(** * mayatest: the unit-test tree of the runner dialog and the temp-file helpers

    A shallow embedding of [mayatest/mayaunittestui.py] (tree nodes, status
    aggregation, the tree model's [setData], the output capture stream, the
    "run failed" action) and of [mayatest/mayaunittest.py] ([Settings],
    [set_temp_dir], [TestCase.delete_temp_files], [TestCase.get_temp_filename]).

    Python objects that are mutated in place (tree nodes, the text edit, the
    class attributes of [Settings] and [TestCase], the file system) are
    modelled by explicit state passing; Python exceptions by the [result]
    type below. *)

From stdpp Require Import base list strings gmap pretty.
From Stdlib Require Import ZArith Lia Ascii.

Local Open Scope string_scope.
Local Open Scope list_scope.
Set Warnings "-register-all".

(** ** Exceptions *)

(** [OSError] stands for [OSError] and its subclasses ([FileExistsError],
    [FileNotFoundError], [NotADirectoryError], [IsADirectoryError]); it
    carries the [filename] of the exception. *)
Inductive exn : Type :=
| AttributeError (what : string)
| RuntimeError (msg : string)
| OSError (path : string)
| KeyError (key : string)
| TestMethodError (msg : string).

Inductive result (A : Type) : Type :=
| Ok (a : A)
| Raise (e : exn).
Arguments Ok {A} a.
Arguments Raise {A} e.

#[export] Instance result_bind : MBind result := fun A B k r =>
  match r with
  | Ok a => k a
  | Raise e => Raise e
  end.

(** Python's [l[i]] for an integer [i]: a negative index counts from the end,
    anything outside [-len(l) .. len(l)-1] is an [IndexError] ([None] here). *)
Definition py_getitem {A : Type} (l : list A) (i : Z) : option A :=
  if (0 <=? i)%Z then l !! Z.to_nat i
  else if (- Z.of_nat (length l) <=? i)%Z then l !! Z.to_nat (Z.of_nat (length l) + i)
  else None.

(** [text.startswith(p)] *)
Definition startswith (text p : string) : bool := String.prefix p text.

(** [text.endswith(p)] *)
Fixpoint endswith (text p : string) : bool :=
  bool_decide (text = p) ||
  match text with
  | EmptyString => false
  | String _ text' => endswith text' p
  end.

(** ** The [unittest] objects the nodes wrap *)

(** What calling a test method does. *)
Inductive MethodOutcome : Type :=
| Returns
| RaisesImportError (traceback : string)
| RaisesOther (e : exn).

(** A [unittest.TestCase] instance or a [unittest.TestSuite] with its tests.
    [str_] is what [str(test)] returns. *)
Inductive UnitTest : Type :=
| TestCaseObj (cls modl method str_ : string) (run : MethodOutcome)
| TestSuiteObj (cls modl str_ : string) (tests : list UnitTest).

Definition isinstance_TestCase (t : UnitTest) : bool :=
  match t with TestCaseObj _ _ _ _ _ => true | TestSuiteObj _ _ _ _ => false end.

Definition isinstance_TestSuite (t : UnitTest) : bool :=
  match t with TestCaseObj _ _ _ _ _ => false | TestSuiteObj _ _ _ _ => true end.

(** [test.__class__.__name__] *)
Definition class_name (t : UnitTest) : string :=
  match t with TestCaseObj c _ _ _ _ => c | TestSuiteObj c _ _ _ => c end.

(** [test.__class__.__module__] *)
Definition class_module (t : UnitTest) : string :=
  match t with TestCaseObj _ m _ _ _ => m | TestSuiteObj _ m _ _ => m end.

Definition str (t : UnitTest) : string :=
  match t with TestCaseObj _ _ _ s _ => s | TestSuiteObj _ _ s _ => s end.

Fixpoint countTestCases (t : UnitTest) : nat :=
  match t with
  | TestCaseObj _ _ _ _ _ => 1
  | TestSuiteObj _ _ _ tests => foldr (fun t_ acc => countTestCases t_ + acc) 0 tests
  end.

(** [getattr(test, name)()]: a test case has its test method; a suite has no
    attribute named after a test class or module. *)
Definition call_method (t : UnitTest) (nm : string) : MethodOutcome :=
  match t with
  | TestCaseObj _ _ method _ run =>
      if String.eqb nm method then run else RaisesOther (AttributeError nm)
  | TestSuiteObj _ _ _ _ => RaisesOther (AttributeError nm)
  end.

(** ** mayaunittestui.py *)

Module MayaUnitTestUI.

(** [class TestStatus] *)
Inductive TestStatus : Type := not_run | success | fail | error | skipped.

#[export] Instance TestStatus_eq_dec : EqDecision TestStatus.
Proof. solve_decision. Defined.

(** The integer each status stands for in the source. *)
Definition TestStatus_value (s : TestStatus) : Z :=
  match s with
  | not_run => 0 | success => 1 | fail => 2 | error => 3 | skipped => 4
  end.

(** [class TestNode(BaseTreeNode)]: the fields of both classes but [_parent],
    which the position of a node in the tree gives. *)
Inductive TestNode : Type :=
  mkTestNode {
    test : UnitTest;
    tool_tip : string;
    status : TestStatus;
    children : list TestNode
  }.

Definition set_tool_tip (n : TestNode) (tip : string) : TestNode :=
  mkTestNode (test n) tip (status n) (children n).

Definition set_status (n : TestNode) (s : TestStatus) : TestNode :=
  mkTestNode (test n) (tool_tip n) s (children n).

Definition set_children (n : TestNode) (cs : list TestNode) : TestNode :=
  mkTestNode (test n) (tool_tip n) (status n) cs.

(** [BaseTreeNode.child]: the [IndexError] of the list access is caught. *)
Definition child (n : TestNode) (row : Z) : option TestNode :=
  py_getitem (children n) row.

(** [BaseTreeNode.child_count] *)
Definition child_count (n : TestNode) : nat := length (children n).

(** [TestNode.name]; [self.child(0)] may be [None], whose [.test] raises. *)
Definition name (n : TestNode) : result string :=
  match test n with
  | TestCaseObj _ _ method _ _ => Ok method
  | TestSuiteObj _ _ _ _ =>
      match child n 0 with
      | None => Raise (AttributeError "test")
      | Some c0 =>
          if isinstance_TestCase (test c0) then Ok (class_name (test c0))
          else
            match child c0 0 with
            | None => Raise (AttributeError "test")
            | Some c00 => Ok (class_module (test c00))
            end
      end
  end.

(** The guard that opens [get_status]:
    ["ModuleImportFailure" in [self.name(), self.test.__class__.__name__]]. *)
Definition is_import_failure (n : TestNode) : result bool :=
  nm ← name n;
  Ok (bool_decide ("ModuleImportFailure" ∈ [nm; class_name (test n)])).

(** One turn of the loop of [get_status] once the child's status is known:
    [None] is the early [return child_status]. *)
Definition merge_step (result_ child_status : TestStatus) : option TestStatus :=
  if decide (child_status = error) then None
  else if decide (child_status = fail) then Some child_status
  else if decide (child_status = success ∧ result_ ≠ fail) then Some child_status
  else if decide (child_status = skipped ∧ result_ ≠ fail) then Some child_status
  else Some result_.

(** The [for child in self.children] loop of [get_status], over the method
    that gives a child's status; the children after an early [return] are not
    visited. *)
Section StatusLoop.
Variable child_get_status : TestNode → result TestStatus.

Fixpoint status_loop (cs : list TestNode) (result_ : TestStatus)
  : result TestStatus :=
  match cs with
  | [] => Ok result_
  | child :: cs' =>
      child_status ← child_get_status child;
      match merge_step result_ child_status with
      | None => Ok child_status
      | Some result' => status_loop cs' result'
      end
  end.
End StatusLoop.

(** [TestNode.get_status] *)
Fixpoint get_status (n : TestNode) : result TestStatus :=
  flagged ← is_import_failure n;
  if flagged : bool then Ok error
  else
    match children n with
    | [] => Ok (status n)
    | _ :: _ => status_loop get_status (children n) not_run
    end.

(** What constructing a node does besides building it. *)
Inductive Event : Type :=
| CalledTestMethod (nm : string)
| LoggedWarning (msg : string).

(** The [for test_ in self.test] loop of [TestNode.__init__], over the
    constructor of the child nodes. *)
Section AddChildren.
Variable init : UnitTest → result (TestNode * list Event).

Fixpoint add_children (ts : list UnitTest) : result (list TestNode * list Event) :=
  match ts with
  | [] => Ok ([], [])
  | test_ :: ts' =>
      if isinstance_TestCase test_ || bool_decide (countTestCases test_ ≠ 0)
      then
        '(c, ev) ← init test_;
        '(cs, evs) ← add_children ts';
        Ok (c :: cs, ev ++ evs)
      else add_children ts'
  end.
End AddChildren.

(** [TestNode.__init__] for a node and, through [add_child(TestNode(test_, self))],
    for the whole tree under it.  A node starts with [status = not_run] and
    [tool_tip = str(test)]; only an [ImportError] of the test method is caught. *)
Fixpoint TestNode_init (t : UnitTest) : result (TestNode * list Event) :=
  '(cs, evs) ←
    match t with
    | TestSuiteObj _ _ _ tests => add_children TestNode_init tests
    | TestCaseObj _ _ _ _ _ => Ok ([], [])
    end;
  let self := mkTestNode t (str t) not_run cs in
  if String.eqb "ModuleImportFailure" (class_name t) then
    nm ← name self;
    match call_method t nm with
    | Returns => Ok (self, evs ++ [CalledTestMethod nm])
    | RaisesImportError traceback =>
        Ok (set_tool_tip self traceback,
            evs ++ [CalledTestMethod nm; LoggedWarning traceback])
    | RaisesOther e => Raise e
    end
  else Ok (self, evs).

(** *** Positions in the tree

    A node is known by the rows that lead to it, its own row first and the
    row of the root's child last; [[]] is the root.  A [QModelIndex] made by
    [createIndex(row, 0, node)] is the same chain; the invalid [QModelIndex()]
    is [[]], and its [internalPointer()] is [None].  An index is known by the
    node it points to: the code reads [internalPointer()] and [isValid()] of
    an index and the [row()] of nodes, never the row of an index. *)
Definition NodeRef := list nat.
Definition QModelIndex := list nat.

(** The node reached from [n] by the rows [rows], the first row first. *)
Fixpoint descend (n : TestNode) (rows : list nat) : option TestNode :=
  match rows with
  | [] => Some n
  | row :: rows' => c ← children n !! row; descend c rows'
  end.

Definition node_at (root : TestNode) (ref : NodeRef) : option TestNode :=
  descend root (reverse ref).

(** The tree after the in-place change [f] of the node reached by [rows]. *)
Fixpoint modify (f : TestNode → TestNode) (rows : list nat) (n : TestNode) : TestNode :=
  match rows with
  | [] => f n
  | row :: rows' => set_children n (alter (modify f rows') row (children n))
  end.

Definition modify_at (f : TestNode → TestNode) (ref : NodeRef) (root : TestNode) : TestNode :=
  modify f (reverse ref) root.

(** [TestNode.path]: [self.parent() and self.parent().parent()] holds for the
    nodes that have a grandparent. *)
Fixpoint path (root : TestNode) (ref : NodeRef) : result string :=
  match node_at root ref with
  | None => Raise (AttributeError "path")
  | Some node =>
      match ref with
      | _ :: ((_ :: _) as parent_ref) =>
          parent_path ← path root parent_ref;
          nm ← name node;
          Ok (parent_path +:+ "." +:+ nm)
      | _ => name node
      end
  end.

(** *** A Python dict with string keys, in insertion order *)
Fixpoint dict_set {V : Type} (d : list (string * V)) (k : string) (v : V)
  : list (string * V) :=
  match d with
  | [] => [(k, v)]
  | (k', v') :: d' =>
      if String.eqb k' k then (k', v) :: d' else (k', v') :: dict_set d' k v
  end.

Fixpoint dict_get {V : Type} (d : list (string * V)) (k : string) : option V :=
  match d with
  | [] => None
  | (k', v') :: d' => if String.eqb k' k then Some v' else dict_get d' k
  end.

Definition dict_values {V : Type} (d : list (string * V)) : list V := d.*2.

(** *** [class TestTreeModel(QAbstractItemModel)] *)
Record TestTreeModel : Type := mkTestTreeModel {
  root_node : TestNode;
  node_lookup : list (string * NodeRef);
  dataChanged : list QModelIndex   (* the indexes [dataChanged.emit] was called with *)
}.

(** The [for child in node.children] loop of [create_node_lookup], over the
    method itself; [row] is the row of the first node of [cs]. *)
Section EachChild.
Variable visit : TestNode → NodeRef → list (string * NodeRef) → list (string * NodeRef).

Fixpoint each_child (cs : list TestNode) (row : nat) (ref : NodeRef)
    (lookup : list (string * NodeRef)) : list (string * NodeRef) :=
  match cs with
  | [] => lookup
  | c :: cs' => each_child cs' (S row) ref (visit c (row :: ref) lookup)
  end.
End EachChild.

(** [TestTreeModel.create_node_lookup] *)
Fixpoint create_node_lookup (node : TestNode) (ref : NodeRef)
    (lookup : list (string * NodeRef)) : list (string * NodeRef) :=
  each_child create_node_lookup (children node) 0 ref
    (dict_set lookup (str (test node)) ref).

(** [TestTreeModel.__init__] *)
Definition TestTreeModel_init (root : TestNode) : TestTreeModel :=
  mkTestTreeModel root (create_node_lookup root [] []) [].

Definition isValid (index : QModelIndex) : bool :=
  match index with [] => false | _ => true end.

Definition internalPointer (m : TestTreeModel) (index : QModelIndex) : option TestNode :=
  match index with
  | [] => None
  | _ => node_at (root_node m) index
  end.

Definition emit (m : TestTreeModel) (index : QModelIndex) : TestTreeModel :=
  mkTestTreeModel (root_node m) (node_lookup m) (dataChanged m ++ [index]).

Definition with_root (m : TestTreeModel) (root : TestNode) : TestTreeModel :=
  mkTestTreeModel root (node_lookup m) (dataChanged m).

(** The [role] argument of [setData] together with the [value] it comes with. *)
Inductive RoleValue : Type :=
| EditRole
| DecorationRole (value : TestStatus)
| ToolTipRole (value : string)
| OtherRole.

(** [TestTreeModel.setData].  With [DecorationRole] the value is written to
    the node's [status] and then, while [node.parent() is not self._root_node],
    to the parent through [self.setData(self.parent(index), value, role)]. *)
Fixpoint setData (m : TestTreeModel) (index : QModelIndex) (rv : RoleValue)
  : result TestTreeModel :=
  match rv with
  | EditRole => Ok (emit m index)
  | DecorationRole value =>
      match internalPointer m index with
      | None => Raise (AttributeError "status")
      | Some _ =>
          let m1 :=
            emit (with_root m (modify_at (fun node => set_status node value) index
                                         (root_node m))) index in
          match index with
          | _ :: ((_ :: _) as parent_index) => setData m1 parent_index rv
          | _ => Ok m1
          end
      end
  | ToolTipRole value =>
      match internalPointer m index with
      | None => Raise (AttributeError "tool_tip")
      | Some _ =>
          Ok (emit (with_root m (modify_at (fun node => set_tool_tip node value) index
                                           (root_node m))) index)
      end
  | OtherRole => Ok m
  end.

(** The place among the children of [n] of the child that
    [self.children[row]] reads: a negative [row] counts from the end. *)
Definition child_position (n : TestNode) (row : Z) : nat :=
  if (0 <=? row)%Z then Z.to_nat row
  else Z.to_nat (Z.of_nat (child_count n) + row).

(** [TestTreeModel.index] with column 0, for any Python integer [row]:
    [createIndex(row, 0, child_item)] is the chain that leads to
    [child_item], also when [row] is negative. *)
Definition index (m : TestTreeModel) (row : Z) (parent : QModelIndex) : QModelIndex :=
  let parent_node :=
    if isValid parent then internalPointer m parent else Some (root_node m) in
  match parent_node with
  | Some parent_node =>
      match child parent_node row with
      | Some child_item => child_position parent_node row :: parent
      | None => []
      end
  | None => []
  end.

(** [TestTreeModel.get_index_of_node]; [node.row()] is the first row of [ref]. *)
Fixpoint get_index_of_node (m : TestTreeModel) (ref : NodeRef) : QModelIndex :=
  match ref with
  | [] => []
  | row :: parent_ref => index m (Z.of_nat row) (get_index_of_node m parent_ref)
  end.

(** [TestTreeModel._set_test_result_data]; a test is given by its [str(test)]. *)
Fixpoint set_test_result_data (m : TestTreeModel) (test_list : list (string * string))
    (status_ : TestStatus) : result TestTreeModel :=
  match test_list with
  | [] => Ok m
  | (test_, reason) :: rest =>
      match dict_get (node_lookup m) test_ with
      | None => Raise (KeyError test_)
      | Some node =>
          let index := get_index_of_node m node in
          m1 ← setData m index (ToolTipRole reason);
          m2 ← setData m1 index (DecorationRole status_);
          set_test_result_data m2 rest status_
      end
  end.

(** The lists of a [mayaunittest.TestResult] after a run. *)
Record TestResult : Type := mkTestResult {
  failures : list (string * string);
  errors : list (string * string);
  skipped_tests : list (string * string);
  successes : list string
}.

(** What [TestTreeModel.run_tests] does with the result of the runner. *)
Definition store_run_result (m : TestTreeModel) (r : TestResult) : result TestTreeModel :=
  m1 ← set_test_result_data m (failures r) fail;
  m2 ← set_test_result_data m1 (errors r) error;
  m3 ← set_test_result_data m2 (skipped_tests r) skipped;
  set_test_result_data m3 ((fun t => (t, "Test Passed")) <$> successes r) success.

(** [MayaTestRunnerDialog.run_failed_tests]: the [test=] argument of each
    [mayaunittest.get_tests] call made while the suite is put together, in
    the order of the calls. *)
Fixpoint failed_test_paths (m : TestTreeModel) (nodes : list NodeRef)
  : result (list string) :=
  match nodes with
  | [] => Ok []
  | ref :: rest =>
      match node_at (root_node m) ref with
      | None => Raise (AttributeError "test")
      | Some node =>
          if isinstance_TestCase (test node) then
            st ← get_status node;
            if bool_decide (st ∈ [fail; error]) then
              p ← path (root_node m) ref;
              ps ← failed_test_paths m rest;
              Ok (p :: ps)
            else failed_test_paths m rest
          else failed_test_paths m rest
      end
  end.

Definition run_failed_tests (m : TestTreeModel) : result (list string) :=
  failed_test_paths m (dict_values (node_lookup m)).

(** *** [class TestCaptureStream] *)
Record QColor : Type := mkQColor { red : Z; green : Z; blue : Z }.

#[export] Instance QColor_eq_dec : EqDecision QColor.
Proof. solve_decision. Defined.

Definition success_color : QColor := mkQColor 92 184 92.
Definition fail_color : QColor := mkQColor 240 173 78.
Definition error_color : QColor := mkQColor 217 83 79.
Definition skip_color : QColor := mkQColor 88 165 204.
Definition normal_color : QColor := mkQColor 200 200 200.

(** The [QTextEdit] the stream writes to: the colour new text is inserted
    with, and the pieces of text inserted so far with the colour of each. *)
Record QTextEdit : Type := mkQTextEdit {
  textColor : QColor;
  inserted : list (QColor * string)
}.

Definition setTextColor (c : QColor) (te : QTextEdit) : QTextEdit :=
  mkQTextEdit c (inserted te).

Definition insertPlainText (text : string) (te : QTextEdit) : QTextEdit :=
  mkQTextEdit (textColor te) (inserted te ++ [(textColor te, text)]).

(** [TestCaptureStream.write] *)
Definition write (text : string) (text_edit : QTextEdit) : QTextEdit :=
  let text_edit :=
    if startswith text "ok" then setTextColor success_color text_edit
    else if startswith text "FAIL" then setTextColor fail_color text_edit
    else if startswith text "ERROR" then setTextColor error_color text_edit
    else if startswith text "skipped" then setTextColor skip_color text_edit
    else text_edit in
  setTextColor normal_color (insertPlainText text text_edit).

(** [TestTreeModel.rowCount] *)
Definition rowCount (m : TestTreeModel) (parent : QModelIndex) : result nat :=
  if isValid parent then
    match internalPointer m parent with
    | Some parent_node => Ok (child_count parent_node)
    | None => Raise (AttributeError "child_count")
    end
  else Ok (child_count (root_node m)).

(** [TestTreeModel.parent]: the invalid index when the parent is the root,
    and otherwise [createIndex(parent_node.row(), 0, parent_node)], which is
    the rest of the chain. *)
Definition TestTreeModel_parent (m : TestTreeModel) (index : QModelIndex)
  : result QModelIndex :=
  match internalPointer m index with
  | None => Raise (AttributeError "parent")
  | Some _ =>
      match index with
      | _ :: [] => Ok []
      | _ :: parent_index => Ok parent_index
      | [] => Ok []
      end
  end.

(** [s.split(".")] *)
Fixpoint split_dot (s : string) : list string :=
  match s with
  | EmptyString => [EmptyString]
  | String c s' =>
      if Ascii.eqb c "."%char then EmptyString :: split_dot s'
      else
        match split_dot s' with
        | tok :: toks => String c tok :: toks
        | [] => [String c EmptyString]
        end
  end.

(** [".".join(tokens)] *)
Fixpoint join_dot (tokens : list string) : string :=
  match tokens with
  | [] => ""
  | tok :: toks =>
      match toks with
      | [] => tok
      | _ :: _ => tok +:+ "." +:+ join_dot toks
      end
  end.

(** The [for i in range(len(tokens) - 1)] loop of [run_selected_tests] over
    the values [todo] of [i] still to come: [true] when it ends in [break]. *)
Fixpoint parent_selected (paths tokens : list string) (todo : list nat) : bool :=
  match todo with
  | [] => false
  | i :: todo' =>
      if bool_decide (join_dot (take (i + 1) tokens) ∈ paths) then true
      else parent_selected paths tokens todo'
  end.

(** The [for path in paths] loop of [run_selected_tests]. *)
Fixpoint prune_paths (paths todo test_paths : list string) : list string :=
  match todo with
  | [] => test_paths
  | path :: rest =>
      let tokens := split_dot path in
      if parent_selected paths tokens (seq 0 (length tokens - 1))
      then prune_paths paths rest test_paths
      else prune_paths paths rest (test_paths ++ [path])
  end.

(** [[index.internalPointer().path() for index in indices]] *)
Fixpoint index_paths (m : TestTreeModel) (indices : list QModelIndex)
  : result (list string) :=
  match indices with
  | [] => Ok []
  | index :: rest =>
      match internalPointer m index with
      | None => Raise (AttributeError "path")
      | Some _ =>
          p ← path (root_node m) index;
          ps ← index_paths m rest;
          Ok (p :: ps)
      end
  end.

(** [MayaTestRunnerDialog.run_selected_tests]: [None] when it returns without
    running anything, and otherwise the [test=] argument of each
    [mayaunittest.get_tests] call, in the order of the calls. *)
Definition run_selected_tests (m : TestTreeModel) (indices : list QModelIndex)
  : result (option (list string)) :=
  match indices with
  | [] => Ok None
  | _ :: _ =>
      paths ← index_paths m indices;
      Ok (Some (prune_paths paths paths []))
  end.

End MayaUnitTestUI.

(** ** mayaunittest.py *)

Module MayaUnitTest.

(** *** The file system, as far as [os.path.exists], [os.remove],
    [os.makedirs] and [shutil.rmtree] see it *)
Inductive FileKind : Type := RegularFile | Directory.

#[export] Instance FileKind_eq_dec : EqDecision FileKind.
Proof. solve_decision. Defined.

(** [os.path.exists] *)
Definition os_path_exists (fs : gmap string FileKind) (p : string) : bool :=
  bool_decide (is_Some (fs !! p)).

(** [posixpath.join(a, *p)] *)
Fixpoint os_path_join (a : string) (p : list string) : string :=
  match p with
  | [] => a
  | b :: p' =>
      os_path_join
        (if startswith b "/" then b
         else if bool_decide (a = "") || endswith a "/" then a +:+ b
         else a +:+ "/" +:+ b) p'
  end.

(** [s.rfind(c)]: the index of the last [c] in [s], or -1. *)
Fixpoint rfind (c : ascii) (s : string) : Z :=
  match s with
  | EmptyString => -1
  | String c' s' =>
      let i := rfind c s' in
      if (0 <=? i)%Z then (i + 1)%Z
      else if Ascii.eqb c' c then 0%Z else (-1)%Z
  end.

(** [posixpath.splitext]: the extension starts at the last dot of the last
    component, unless only dots come before it there. *)
Definition splitext (p : string) : string * string :=
  let sepIndex := rfind "/"%char p in
  let dotIndex := rfind "."%char p in
  let between :=
    take (Z.to_nat (dotIndex - (sepIndex + 1)))
         (drop (Z.to_nat (sepIndex + 1)) (String.list_ascii_of_string p)) in
  if (sepIndex <? dotIndex)%Z && existsb (fun c => negb (Ascii.eqb c "."%char)) between
  then (String.substring 0 (Z.to_nat dotIndex) p,
        String.substring (Z.to_nat dotIndex) (String.length p - Z.to_nat dotIndex) p)
  else (p, "").

(** The proper prefixes of [p] that end just before a ["/"]: the directories
    [os.makedirs(p)] has to find or make above [p]. *)
Fixpoint parent_dirs_from (seen : string) (rest : string) : list string :=
  match rest with
  | EmptyString => []
  | String c rest' =>
      (if Ascii.eqb c "/"%char && negb (bool_decide (seen = "")) then [seen] else [])
        ++ parent_dirs_from (seen +:+ String c EmptyString) rest'
  end.

Definition parent_dirs (p : string) : list string := parent_dirs_from "" p.

(** *** [class Settings] *)
Record Settings : Type := mkSettings {
  temp_dir : string;
  delete_files : bool;
  buffer_output : bool;
  file_new : bool
}.

(** The class body of [Settings], run once when the module is imported:
    [gettempdir] is what [tempfile.gettempdir()] returns then and [uuid4] is
    [str(uuid.uuid4())]. *)
Definition Settings_init (gettempdir uuid4 : string) : Settings :=
  mkSettings (os_path_join gettempdir ["mayaunittest"; uuid4]) true false true.

(** [str(uuid.UUID)]: 32 lowercase hexadecimal digits in groups of
    8-4-4-4-12 with hyphens between them. *)
Definition is_hex_digit (c : ascii) : bool :=
  let n := nat_of_ascii c in
  (Nat.leb 48 n && Nat.leb n 57) || (Nat.leb 97 n && Nat.leb n 102).

Definition is_uuid_str (u : string) : bool :=
  let cs := String.list_ascii_of_string u in
  bool_decide (length cs = 36) &&
  forallb (fun '(i, c) =>
             if bool_decide (i ∈ [8; 13; 18; 23]) then Ascii.eqb c "-"%char
             else is_hex_digit c) (imap pair cs).

(** *** The state the functions below work on: the file system, the class
    attributes of [Settings] and those of [TestCase].  [files_create] is
    [None] as long as the class has no attribute of that name. *)
Record World : Type := mkWorld {
  fs : gmap string FileKind;
  settings : Settings;
  files_created : list string;
  files_create : option (list string)
}.

(** A Python call: it ends in a value or an exception, and the state it
    leaves behind is there in both cases. *)
Definition Py (A : Type) : Type := World → World * result A.

#[export] Instance Py_ret : MRet Py := fun A a w => (w, Ok a).
#[export] Instance Py_bind : MBind Py := fun A B k c w =>
  match c w with
  | (w', Ok a) => k a w'
  | (w', Raise e) => (w', Raise e)
  end.

Definition raise {A : Type} (e : exn) : Py A := fun w => (w, Raise e).
Definition get_world : Py World := fun w => (w, Ok w).
Definition put_fs (fs' : gmap string FileKind) : Py unit :=
  fun w => (mkWorld fs' (settings w) (files_created w) (files_create w), Ok ()).
Definition put_settings (s : Settings) : Py unit :=
  fun w => (mkWorld (fs w) s (files_created w) (files_create w), Ok ()).
Definition put_files_created (l : list string) : Py unit :=
  fun w => (mkWorld (fs w) (settings w) l (files_create w), Ok ()).
Definition put_files_create (l : list string) : Py unit :=
  fun w => (mkWorld (fs w) (settings w) (files_created w) (Some l), Ok ()).

(** [os.remove] *)
Definition os_remove (f : string) : Py unit :=
  w ← get_world;
  match fs w !! f with
  | Some RegularFile => put_fs (delete f (fs w))
  | _ => raise (OSError f)
  end.

(** [shutil.rmtree]: the directory goes with everything below it. *)
Definition shutil_rmtree (d : string) : Py unit :=
  w ← get_world;
  match fs w !! d with
  | Some Directory =>
      put_fs (filter (fun kv => kv.1 ≠ d ∧ ¬ String.prefix (d +:+ "/") kv.1) (fs w))
  | _ => raise (OSError d)
  end.

(** [os.makedirs], over the paths it has to find or make, from the top: a
    directory that exists is kept and a missing one is made by [os.mkdir].
    Below a regular file nothing exists and nothing can be made: the
    [os.mkdir] of the next path fails with a [NotADirectoryError] that
    carries that path.  A regular file at the last path is [os.mkdir] on a
    path that exists, a [FileExistsError] with the path itself. *)
Fixpoint make_each (dirs : list string) : Py unit :=
  match dirs with
  | [] => mret ()
  | d :: dirs' =>
      w ← get_world;
      match fs w !! d with
      | Some Directory => make_each dirs'
      | Some RegularFile => raise (OSError (default d (head dirs')))
      | None => put_fs (<[d := Directory]> (fs w));; make_each dirs'
      end
  end.

(** [os.makedirs(d)] without [exist_ok]: a path that exists is a
    [FileExistsError], and the empty path a [FileNotFoundError]. *)
Definition os_makedirs (d : string) : Py unit :=
  w ← get_world;
  if os_path_exists (fs w) d || bool_decide (d = "") then raise (OSError d)
  else make_each (parent_dirs d ++ [d]).

(** [set_temp_dir] *)
Definition set_temp_dir (directory : string) : Py unit :=
  w ← get_world;
  if os_path_exists (fs w) directory then
    put_settings (mkSettings directory (delete_files (settings w))
                             (buffer_output (settings w)) (file_new (settings w)))
  else raise (RuntimeError (directory +:+ " does not exist.")).

(** [set_delete_files] *)
Definition set_delete_files (value : bool) : Py unit :=
  w ← get_world;
  put_settings (mkSettings (temp_dir (settings w)) value
                           (buffer_output (settings w)) (file_new (settings w))).

(** The [for f in cls.files_created] loop of [delete_temp_files]. *)
Fixpoint remove_existing (files : list string) : Py unit :=
  match files with
  | [] => mret ()
  | f :: files' =>
      w ← get_world;
      (if os_path_exists (fs w) f then os_remove f else mret ());;
      remove_existing files'
  end.

(** [TestCase.delete_temp_files].  The assignment after the loop is to
    [cls.files_create], as in the source. *)
Definition delete_temp_files : Py unit :=
  w ← get_world;
  if delete_files (settings w) then
    remove_existing (files_created w);;
    put_files_create [];;
    w' ← get_world;
    if os_path_exists (fs w') (temp_dir (settings w')) then
      shutil_rmtree (temp_dir (settings w'))
    else mret ()
  else mret ().

(** The [while os.path.exists(path)] loop of [get_temp_filename], for at most
    [fuel] turns. *)
Fixpoint next_free_path (fuel : nat) (fs : gmap string FileKind)
    (temp_dir base_name ext path : string) (count : nat) : option string :=
  if os_path_exists fs path then
    match fuel with
    | 0 => None
    | S fuel' =>
        next_free_path fuel' fs temp_dir base_name ext
          (temp_dir +:+ "/" +:+ base_name +:+ pretty (S count) +:+ ext) (S count)
    end
  else Some path.

(** [TestCase.get_temp_filename].  A path is free after at most as many turns
    of the loop as the file system has entries. *)
Definition get_temp_filename (file_name : string) : Py string :=
  w ← get_world;
  let temp_dir := temp_dir (settings w) in
  (if os_path_exists (fs w) temp_dir then mret () else os_makedirs temp_dir);;
  w ← get_world;
  let '(base_name, ext) := splitext file_name in
  match next_free_path (size (fs w)) (fs w) temp_dir base_name ext
          (temp_dir +:+ "/" +:+ base_name +:+ ext) 0 with
  | None => raise (RuntimeError "get_temp_filename")
  | Some path =>
      put_files_created (files_created w ++ [path]);;
      mret path
  end.


(** *** [sys.path] and the loading of tests *)

(** [add_to_path]: the new [sys.path] and the value returned. *)
Definition add_to_path (fs : gmap string FileKind) (path : string)
    (sys_path : list string) : list string * bool :=
  if os_path_exists fs path && negb (bool_decide (path ∈ sys_path))
  then (path :: sys_path, true)
  else (sys_path, false).

(** [[p for p in directories if add_to_path(p)]]: the new [sys.path] and the
    list built. *)
Fixpoint add_directories (fs : gmap string FileKind) (directories sys_path : list string)
  : list string * list string :=
  match directories with
  | [] => (sys_path, [])
  | p :: rest =>
      let '(sys_path1, added) := add_to_path fs p sys_path in
      let '(sys_path2, directories_added) := add_directories fs rest sys_path1 in
      (sys_path2, if added then p :: directories_added else directories_added)
  end.

(** [l.remove(x)]: the first [x] goes; [None] is the [ValueError] when there
    is none. *)
Fixpoint list_remove (x : string) (l : list string) : option (list string) :=
  match l with
  | [] => None
  | y :: l' => if String.eqb y x then Some l' else cons y <$> list_remove x l'
  end.

(** [for path in directories_added_to_path: sys.path.remove(path)]: the
    [sys.path] the loop leaves, and whether it ended without a [ValueError]. *)
Fixpoint remove_directories (directories_added sys_path : list string)
  : list string * bool :=
  match directories_added with
  | [] => (sys_path, true)
  | path :: rest =>
      match list_remove path sys_path with
      | Some sys_path1 => remove_directories rest sys_path1
      | None => (sys_path, false)
      end
  end.

(** How a call of [get_tests] ends. *)
Inductive GetTests : Type :=
| Returned (test_suite : list UnitTest)
| RaisedValueError (msg : string)
| Raised (e : exn).

Section GetTests.
(** [unittest.TestLoader().loadTestsFromName(name)] and
    [unittest.TestLoader().discover(directory, pattern=pattern)], under a
    given [sys.path]: the [sys.path] they leave, and the tests of the suite
    they return or the exception they raise. *)
Variable loadTestsFromName : list string → string → list string * result (list UnitTest).
Variable discover : list string → string → string → list string * result (list UnitTest).

(** [discovered_suite.countTestCases()] *)
Definition count_tests (tests : list UnitTest) : nat :=
  foldr (fun t acc => countTestCases t + acc) 0 tests.

(** [if discovered_suite.countTestCases(): test_suite.addTests(discovered_suite)] *)
Definition add_discovered (test_suite discovered : list UnitTest) : list UnitTest :=
  if bool_decide (count_tests discovered ≠ 0) then test_suite ++ discovered
  else test_suite.

(** The [for p in directories] loop of the branch without a test name. *)
Fixpoint discover_each (pattern : string) (directories : list string)
    (test_suite : list UnitTest) (sys_path : list string)
  : list string * result (list UnitTest) :=
  match directories with
  | [] => (sys_path, Ok test_suite)
  | p :: rest =>
      match discover sys_path p pattern with
      | (sys_path1, Ok discovered) =>
          discover_each pattern rest (add_discovered test_suite discovered) sys_path1
      | (sys_path1, Raise e) => (sys_path1, Raise e)
      end
  end.

(** [get_tests]: [directories] and [test_suite] are [None] for the Python
    [None]; [test] is the empty string for a name that is not given. *)
Definition get_tests (fs : gmap string FileKind) (directories : option (list string))
    (test : string) (test_suite : option (list UnitTest)) (pattern : string)
    (sys_path : list string) : list string * GetTests :=
  match directories with
  | None => (sys_path, RaisedValueError "directories must be specified.")
  | Some directories =>
      let test_suite := default [] test_suite in
      if bool_decide (test ≠ "") then
        let '(sys_path1, directories_added_to_path) :=
          add_directories fs directories sys_path in
        match loadTestsFromName sys_path1 test with
        | (sys_path2, Raise e) => (sys_path2, Raised e)
        | (sys_path2, Ok discovered) =>
            match remove_directories directories_added_to_path sys_path2 with
            | (sys_path3, true) =>
                (sys_path3, Returned (add_discovered test_suite discovered))
            | (sys_path3, false) =>
                (sys_path3, RaisedValueError "list.remove(x): x not in list")
            end
        end
      else
        match discover_each pattern directories test_suite sys_path with
        | (sys_path1, Ok test_suite) => (sys_path1, Returned test_suite)
        | (sys_path1, Raise e) => (sys_path1, Raised e)
        end
  end.
End GetTests.

(** *** [class ScriptEditorState] and the start and the end of a test run *)

(** The four flags of the script editor that [cmds.scriptEditorInfo] reads
    with [q=True] and sets with [e=True]. *)
Record ScriptEditorInfo : Type := mkScriptEditorInfo {
  suppressResults : bool;
  suppressErrors : bool;
  suppressWarnings : bool;
  suppressInfo : bool
}.

(** The class attributes of [ScriptEditorState]; [None] is the Python [None]
    of the class body. *)
Record ScriptEditorState : Type := mkScriptEditorState {
  suppress_results : option bool;
  suppress_errors : option bool;
  suppress_warnings : option bool;
  suppress_info : option bool
}.

Definition ScriptEditorState_init : ScriptEditorState :=
  mkScriptEditorState None None None None.

(** The level given to [logging.disable]. *)
Inductive LoggingLevel : Type := NOTSET | CRITICAL.

(** What a test run reads and writes besides the file system and the
    settings: [os.environ], the script editor, the class attributes of
    [ScriptEditorState] and the level of [logging.disable]. *)
Record Process : Type := mkProcess {
  world : World;
  environ : gmap string string;
  scriptEditorInfo : ScriptEditorInfo;
  script_editor_state : ScriptEditorState;
  logging_disable : LoggingLevel
}.

Definition CMT_TESTING_VAR : string := "CMT_UNITTEST".

(** [ScriptEditorState.suppress_output] *)
Definition suppress_output (p : Process) : Process :=
  if buffer_output (settings (world p)) then
    let editor := scriptEditorInfo p in
    mkProcess (world p) (environ p)
      (mkScriptEditorInfo true true true true)
      (mkScriptEditorState (Some (suppressResults editor)) (Some (suppressErrors editor))
                           (Some (suppressWarnings editor)) (Some (suppressInfo editor)))
      (logging_disable p)
  else p.

(** [ScriptEditorState.restore_output] *)
Definition restore_output (p : Process) : Process :=
  let cls := script_editor_state p in
  match suppress_results cls, suppress_errors cls, suppress_warnings cls,
        suppress_info cls with
  | Some results, Some errors, Some warnings, Some info =>
      mkProcess (world p) (environ p)
        (mkScriptEditorInfo results errors warnings info)
        cls (logging_disable p)
  | _, _, _, _ => p
  end.

(** [TestResult.startTestRun]; the method of the base class does nothing. *)
Definition startTestRun (p : Process) : Process :=
  let p1 := mkProcess (world p) (<[CMT_TESTING_VAR := "1"]> (environ p))
              (scriptEditorInfo p) (script_editor_state p) (logging_disable p) in
  let p2 := suppress_output p1 in
  if buffer_output (settings (world p2)) then
    mkProcess (world p2) (environ p2) (scriptEditorInfo p2) (script_editor_state p2)
      CRITICAL
  else p2.

(** [TestResult.stopTestRun]; the method of the base class does nothing. *)
Definition stopTestRun (p : Process) : Process * result unit :=
  let p1 :=
    if buffer_output (settings (world p)) then
      mkProcess (world p) (environ p) (scriptEditorInfo p) (script_editor_state p) NOTSET
    else p in
  let p2 := restore_output p1 in
  let w := world p2 in
  match (if delete_files (settings w) && os_path_exists (fs w) (temp_dir (settings w))
         then shutil_rmtree (temp_dir (settings w)) w else (w, Ok ())) with
  | (w', Raise e) =>
      (mkProcess w' (environ p2) (scriptEditorInfo p2) (script_editor_state p2)
         (logging_disable p2), Raise e)
  | (w', Ok _) =>
      let p3 := mkProcess w' (environ p2) (scriptEditorInfo p2) (script_editor_state p2)
                  (logging_disable p2) in
      match environ p3 !! CMT_TESTING_VAR with
      | None => (p3, Raise (KeyError CMT_TESTING_VAR))
      | Some _ =>
          (mkProcess w' (delete CMT_TESTING_VAR (environ p3)) (scriptEditorInfo p3)
             (script_editor_state p3) (logging_disable p3), Ok ())
      end
  end.


End MayaUnitTest.

(** * Spec-level definitions and sample data *)

Import MayaUnitTestUI.

(** A suite node over a passed and a failed test. *)
Definition two_leaves : TestNode :=
  mkTestNode (TestSuiteObj "TestSuite" "unittest.suite" "<suite>" []) "" not_run
    [ mkTestNode (TestCaseObj "T" "test_t" "test_a" "test_a (test_t.T)" Returns)
        "" success [];
      mkTestNode (TestCaseObj "T" "test_t" "test_b" "test_b (test_t.T)" Returns)
        "" fail [] ].

(** The rule of the specification for a node with children, over the
    statuses [ss] its children report, in order: error if any reports error;
    otherwise fail if any failed; otherwise success or skipped, whichever was
    seen last; otherwise not-run. *)
Definition priority_merge (ss : list TestStatus) : TestStatus :=
  if bool_decide (error ∈ ss) then error
  else if bool_decide (fail ∈ ss) then fail
  else default not_run (last (filter (fun s => s = success ∨ s = skipped) ss)).

(** [p] holds at [n] and at every node below it. *)
Fixpoint all_nodes (p : TestNode → bool) (n : TestNode) : bool :=
  match n with
  | mkTestNode _ _ _ cs => p n && forallb (all_nodes p) cs
  end.

(** A node without children has the status skipped. *)
Definition leaf_is_skipped (n : TestNode) : bool :=
  match children n with
  | [] => bool_decide (status n = skipped)
  | _ :: _ => true
  end.

(** The guard of [get_status] does not flag the node as an import failure. *)
Definition not_import_failure (n : TestNode) : bool :=
  match is_import_failure n with
  | Ok false => true
  | _ => false
  end.

(** A tree of three skipped tests in two groups. *)
Definition skipped_tree : TestNode :=
  let leaf nm := mkTestNode (TestCaseObj "T" "test_t" nm (nm +:+ " (test_t.T)") Returns)
                            "not needed" skipped [] in
  let suite s cs := mkTestNode (TestSuiteObj "TestSuite" "unittest.suite" s []) s not_run cs in
  suite "<top>" [suite "<a>" [leaf "test_a"; leaf "test_b"]; suite "<b>" [leaf "test_c"]].

(** Discovery of one test whose class comes from a module that is itself
    called [ModuleImportFailure], and a run in which the test passes. *)
Definition borrowed_case : UnitTest :=
  TestCaseObj "SphereTests" "ModuleImportFailure" "test_radius"
    "test_radius (ModuleImportFailure.SphereTests)" Returns.

Definition borrowed_discovery : UnitTest :=
  TestSuiteObj "TestSuite" "unittest.suite" "<top>"
    [TestSuiteObj "TestSuite" "unittest.suite" "<module>"
       [TestSuiteObj "TestSuite" "unittest.suite" "<class>" [borrowed_case]]].

Definition borrowed_model : result TestTreeModel :=
  '(root, _) ← TestNode_init borrowed_discovery;
  store_run_result (TestTreeModel_init root)
    (mkTestResult [] [] [] ["test_radius (ModuleImportFailure.SphereTests)"]).

(** The colour the specification gives a piece of output, by its prefix. *)
Definition prefix_color (text : string) : QColor :=
  if startswith text "ok" then success_color
  else if startswith text "FAIL" then fail_color
  else if startswith text "ERROR" then error_color
  else if startswith text "skipped" then skip_color
  else normal_color.

(** A text edit nothing has been written to; its text colour is black. *)
Definition fresh_text_edit : QTextEdit := mkQTextEdit (mkQColor 0 0 0) [].

Import MayaUnitTest.

(** What [str(uuid.uuid4())] may return. *)
Definition sample_uuid : string := "123e4567-e89b-42d3-a456-426614174000".

(** A machine with [/tmp], right after [mayaunittest] was imported. *)
Definition fresh_world : World :=
  mkWorld {[ "/tmp" := Directory ]} (Settings_init "/tmp" sample_uuid) [] None.

(** A test asks for a temporary file name and writes the file. *)
Definition write_temp_file (file_name : string) : Py string :=
  p ← get_temp_filename file_name;
  w ← get_world;
  put_fs (<[p := RegularFile]> (fs w));;
  mret p.

Definition with_temp_dir (w : World) (directory : string) : World :=
  mkWorld (fs w)
    (mkSettings directory (delete_files (settings w)) (buffer_output (settings w))
       (file_new (settings w)))
    (files_created w) (files_create w).

(** A call keeps the registry of temporary files as it found it. *)
Definition keeps_files_created {A : Type} (c : Py A) : Prop :=
  ∀ w, files_created (c w).1 = files_created w.

(** Discovery of two tests of one class in one module, and a run in which
    the first fails. *)
Definition sphere_discovery : UnitTest :=
  TestSuiteObj "TestSuite" "unittest.suite" "<top>"
    [TestSuiteObj "TestSuite" "unittest.suite" "<module>"
       [TestSuiteObj "TestSuite" "unittest.suite" "<class>"
          [TestCaseObj "SphereTests" "test_sphere" "test_radius"
             "test_radius (test_sphere.SphereTests)" Returns;
           TestCaseObj "SphereTests" "test_sphere" "test_area"
             "test_area (test_sphere.SphereTests)" Returns]]].

Definition sphere_model : result TestTreeModel :=
  '(root, _) ← TestNode_init sphere_discovery;
  Ok (TestTreeModel_init root).

Definition sphere_failed_run : TestResult :=
  mkTestResult [("test_radius (test_sphere.SphereTests)", "AssertionError: 1 != 2")]
    [] [] ["test_area (test_sphere.SphereTests)"].

(** Two nodes differ at most in their status and in what is below them. *)
Definition same_node (d d' : TestNode) : Prop :=
  test d' = test d ∧ tool_tip d' = tool_tip d ∧
  length (children d') = length (children d).

Definition sphere_tree : TestNode :=
  match TestNode_init sphere_discovery with
  | Ok (root, _) => root
  | Raise _ => two_leaves
  end.

(** A node as the constructor leaves it below the root: a test case without
    children, or a suite with at least one child, all of them such nodes. *)
Fixpoint solid (n : TestNode) : bool :=
  match n with
  | mkTestNode t _ _ cs =>
      match cs with
      | [] => isinstance_TestCase t
      | _ :: _ => isinstance_TestSuite t && forallb solid cs
      end
  end.

(** The root may also be a suite in which no test was found. *)
Definition well_formed (root : TestNode) : bool :=
  solid root ||
  (isinstance_TestSuite (test root) && match children root with [] => true | _ => false end).

(** The models the dialog can hold: made from a discovered suite by the two
    constructors, then changed by [setData] only. *)
Inductive reachable : TestTreeModel → Prop :=
| reachable_init (t : UnitTest) (root : TestNode) (evs : list Event) :
    TestNode_init t = Ok (root, evs) → reachable (TestTreeModel_init root)
| reachable_setData (m m' : TestTreeModel) (index : QModelIndex) (rv : RoleValue) :
    reachable m → setData m index rv = Ok m' → reachable m'.

(** The nodes the specification has the "run failed" action pick: test cases
    without children whose status is fail or error. *)
Definition is_failed_leaf (m : TestTreeModel) (ref : NodeRef) : bool :=
  match node_at (root_node m) ref with
  | Some node =>
      isinstance_TestCase (test node) &&
      match children node with [] => true | _ :: _ => false end &&
      match get_status node with
      | Ok fail | Ok error => true
      | _ => false
      end
  | None => false
  end.

(** What every reachable model satisfies. *)
Record model_inv (m : TestTreeModel) : Prop := mk_model_inv {
  inv_well_formed : well_formed (root_node m) = true;
  inv_lookup : Forall (fun ref => is_Some (node_at (root_node m) ref))
                      (dict_values (node_lookup m))
}.

(** The model of [sphere_tree] after the failure of its first test was stored. *)
Definition failed_sphere_model : TestTreeModel :=
  match setData (TestTreeModel_init sphere_tree) [0; 0; 0] (DecorationRole fail) with
  | Ok m => m
  | Raise _ => TestTreeModel_init sphere_tree
  end.


(** Some node without children, at or below [n], satisfies [p]. *)
Fixpoint any_leaf (p : TestNode → bool) (n : TestNode) : bool :=
  match n with
  | mkTestNode _ _ _ cs =>
      match cs with
      | [] => p n
      | _ :: _ => existsb (any_leaf p) cs
      end
  end.

(** Every node without children, at or below [n], satisfies [p]. *)
Fixpoint all_leaves (p : TestNode → bool) (n : TestNode) : bool :=
  match n with
  | mkTestNode _ _ _ cs =>
      match cs with
      | [] => p n
      | _ :: _ => forallb (all_leaves p) cs
      end
  end.

Definition has_status (s : TestStatus) (n : TestNode) : bool :=
  bool_decide (status n = s).

(** Two groups of tests: one test failed, one was skipped, one passed. *)
Definition mixed_tree : TestNode :=
  let leaf nm st := mkTestNode (TestCaseObj "T" "test_t" nm (nm +:+ " (test_t.T)") Returns)
                               "" st [] in
  let suite s cs := mkTestNode (TestSuiteObj "TestSuite" "unittest.suite" s []) s not_run cs in
  suite "<top>" [suite "<a>" [leaf "test_a" fail; leaf "test_b" skipped];
                 suite "<b>" [leaf "test_c" success]].

(** What the status [s] of a node says about the leaves below it: [E] is
    "some leaf has error", [F] "some leaf has fail", [N] "every leaf is
    not-run". *)
Definition status_reads (E F N : TestNode → bool) (c : TestNode) (s : TestStatus) : Prop :=
  (s = error ↔ E c = true) ∧
  (s = fail ↔ E c = false ∧ F c = true) ∧
  (s = not_run ↔ N c = true).

(** The indexes [setData] visits from [index] up to the child of the root. *)
Fixpoint index_chain (index : QModelIndex) : list QModelIndex :=
  match index with
  | [] => []
  | _ :: parent_index => index :: index_chain parent_index
  end.

(** The node an index stands under: the root for the invalid index. *)
Definition parent_node_of (m : TestTreeModel) (parent : QModelIndex) : option TestNode :=
  if isValid parent then internalPointer m parent else Some (root_node m).

(** Some test of [tests] is looked up to the node at [ref]. *)
Definition hits (m : TestTreeModel) (tests : list string) (ref : NodeRef) : Prop :=
  ∃ t, t ∈ tests ∧ dict_get (node_lookup m) t = Some ref.

(** Every test of [tests] is looked up to a node other than the root. *)
Definition all_known (m : TestTreeModel) (tests : list string) : Prop :=
  Forall (fun t => ∃ ref, dict_get (node_lookup m) t = Some ref ∧ ref ≠ []) tests.

(** The status field of the node at [ref] is written when the results of
    [tests] are stored: [ref] is the node of one of the tests or lies above
    it, and is not the root. *)
Definition written (m : TestTreeModel) (tests : list string) (ref : NodeRef) : Prop :=
  ∃ t r, t ∈ tests ∧ dict_get (node_lookup m) t = Some r ∧ ref ≠ [] ∧ ref `suffix_of` r.

(** A run of [sphere_discovery] in which the first test fails and its
    [tearDown] raises as well, and the second test passes. *)
Definition sphere_fail_and_error_run : TestResult :=
  mkTestResult [("test_radius (test_sphere.SphereTests)", "AssertionError: 1 != 2")]
    [("test_radius (test_sphere.SphereTests)", "RuntimeError: tearDown")]
    [] ["test_area (test_sphere.SphereTests)"].

(** The number of nodes of test cases at or below [n]. *)
Fixpoint count_case_nodes (n : TestNode) : nat :=
  match n with
  | mkTestNode t _ _ cs =>
      (if isinstance_TestCase t then 1 else 0)
      + foldr (fun c acc => count_case_nodes c + acc) 0 cs
  end.

(** Some test or suite at or below [t] has a class called
    [ModuleImportFailure]. *)
Fixpoint has_import_failure_class (t : UnitTest) : bool :=
  String.eqb "ModuleImportFailure" (class_name t) ||
  match t with
  | TestCaseObj _ _ _ _ _ => false
  | TestSuiteObj _ _ _ tests => existsb has_import_failure_class tests
  end.

(** A node as the constructor leaves it when nothing was caught. *)
Definition is_fresh (n : TestNode) : bool :=
  bool_decide (status n = not_run) && bool_decide (tool_tip n = str (test n)).

(** A discovery with a suite in which no test was found. *)
Definition sparse_discovery : UnitTest :=
  TestSuiteObj "TestSuite" "unittest.suite" "<top>"
    [TestSuiteObj "TestSuite" "unittest.suite" "<empty module>" [];
     sphere_discovery].

(** Every entry of [lookup] leads from the [str] of a test to a node of
    [root] that wraps a test with that [str]. *)
Definition lookup_sound (root : TestNode) (lookup : list (string * NodeRef)) : Prop :=
  ∀ k r, dict_get lookup k = Some r →
         ∃ x, node_at root r = Some x ∧ str (test x) = k.

(** [lookup'] has the keys of [lookup], and the tests at and below [node]. *)
Definition lookup_covers (node : TestNode) (lookup lookup' : list (string * NodeRef)) : Prop :=
  (∀ k, is_Some (dict_get lookup k) → is_Some (dict_get lookup' k)) ∧
  (∀ rows x, descend node rows = Some x → is_Some (dict_get lookup' (str (test x)))).

(** [q] is [p] cut after one of its dots: the path of a node above [p]. *)
Definition dotted_ancestor (q p : string) : Prop :=
  ∃ i, i + 1 < length (split_dot p) ∧ q = join_dot (take (i + 1) (split_dot p)).

(** A token of a split: a string without a dot. *)
Fixpoint dot_free (s : string) : bool :=
  match s with
  | EmptyString => true
  | String c s' => negb (Ascii.eqb c "."%char) && dot_free s'
  end.

(** The calls [write(text)] of a run, one after the other. *)
Definition write_all (texts : list string) (text_edit : QTextEdit) : QTextEdit :=
  foldl (fun te text => write text te) text_edit texts.

(** A machine on which a test wrote a temporary file and registered a
    directory it made itself as well. *)
Definition world_with_registered_directory : World :=
  mkWorld {[ "/tmp" := Directory; "/tmp/t" := Directory;
             "/tmp/t/a.ma" := RegularFile; "/tmp/t/cache" := Directory;
             "/tmp/t/b.ma" := RegularFile ]}
    (mkSettings "/tmp/t" true false true)
    ["/tmp/t/a.ma"; "/tmp/t/cache"; "/tmp/t/b.ma"] None.

(** A machine on which two temporary files are registered, one of which was
    never written, beside a file the tests did not register. *)
Definition world_with_two_registered : World :=
  mkWorld {[ "/tmp" := Directory; "/tmp/t" := Directory;
             "/tmp/t/a.ma" := RegularFile; "/tmp/t/notes.txt" := RegularFile;
             "/home/scene.ma" := RegularFile ]}
    (mkSettings "/tmp/t" true false true)
    ["/tmp/t/a.ma"; "/tmp/t/b.ma"] None.

(** The path [get_temp_filename] tries in turn [n] of its loop. *)
Definition numbered_path (temp_dir base_name ext : string) (n : nat) : string :=
  temp_dir +:+ "/" +:+ base_name +:+ pretty n +:+ ext.

(** A machine on which a regular file has the name of the directory the
    temporary directory is to be made in. *)
Definition world_with_file_in_the_way : World :=
  mkWorld {[ "/tmp" := Directory; "/tmp/mayaunittest" := RegularFile ]}
    (Settings_init "/tmp" sample_uuid) [] None.

(** A loader that finds one test under any name and leaves [sys.path] alone,
    and one that fails to import. *)
Definition sample_loader (sys_path : list string) (name : string)
  : list string * result (list UnitTest) :=
  (sys_path, Ok [TestCaseObj "SphereTests" "test_sphere" "test_radius" name Returns]).

Definition failing_loader (sys_path : list string) (name : string)
  : list string * result (list UnitTest) :=
  (sys_path, Raise (AttributeError name)).

Definition no_discover (sys_path : list string) (directory pattern : string)
  : list string * result (list UnitTest) :=
  (sys_path, Ok []).


(** A session that buffers the output of the tests: the user's script editor
    suppresses errors only, and nothing was ever saved. *)
Definition buffered_process : Process :=
  mkProcess
    (mkWorld {[ "/tmp" := Directory; "/tmp/t" := Directory; "/tmp/t/a.ma" := RegularFile ]}
       (mkSettings "/tmp/t" true true true) [] None)
    ∅ (mkScriptEditorInfo false true false false) ScriptEditorState_init NOTSET.

(** The session at the end of the tests of a buffered run: a test has shown
    the results again and has left a file behind. *)
Definition buffered_process_after_the_tests : Process :=
  mkProcess
    (mkWorld {[ "/tmp" := Directory; "/tmp/t" := Directory; "/tmp/t/a.ma" := RegularFile;
                "/tmp/t/b.ma" := RegularFile ]}
       (mkSettings "/tmp/t" true true true) ["/tmp/t/b.ma"] None)
    {[ "CMT_UNITTEST" := "1" ]}
    (mkScriptEditorInfo false true true true)
    (mkScriptEditorState (Some false) (Some true) (Some false) (Some false))
    CRITICAL.

(** A session that does not buffer, after an earlier buffered run saved the
    flags of that time; the user has since chosen to suppress the results. *)
Definition unbuffered_process : Process :=
  mkProcess world_with_two_registered ∅
    (mkScriptEditorInfo true false false false)
    (mkScriptEditorState (Some false) (Some false) (Some false) (Some false))
    NOTSET.

(** A session whose temporary directory is a regular file. *)
Definition process_with_file_as_temp_dir : Process :=
  mkProcess
    (mkWorld {[ "/tmp" := Directory; "/tmp/t" := RegularFile ]}
       (mkSettings "/tmp/t" true false true) [] None)
    ∅ (mkScriptEditorInfo false false false false) ScriptEditorState_init NOTSET.

(** What discovery returns from Python 3.5 on for a module [test_sphere]
    that fails to import: a [unittest.loader._FailedTest] named after the
    module, whose method raises the [ImportError]. *)
Definition failed_import_test : UnitTest :=
  TestCaseObj "_FailedTest" "unittest.loader" "test_sphere"
    "test_sphere (unittest.loader._FailedTest)"
    (RaisesImportError "ImportError: Failed to import test module: test_sphere").

(** * Properties *)

Lemma bind_Ok_inv {A B} (r : result A) (k : A → result B) (b : B) :
  r ≫= k = Ok b → ∃ a, r = Ok a ∧ k a = Ok b.
Proof. destruct r as [a|e]; simpl; [eauto | discriminate]. Qed.

(** ** Induction over trees whose children sit in a list *)

Lemma TestNode_tree_ind (P : TestNode → Prop) :
  (∀ t tip st cs, Forall P cs → P (mkTestNode t tip st cs)) → ∀ n, P n.
Proof.
  intros step. fix IH 1. intros [t tip st cs]. apply step.
  induction cs as [|c cs IHcs]; constructor; [apply IH | exact IHcs].
Qed.

Lemma UnitTest_tree_ind (P : UnitTest → Prop) :
  (∀ c m meth s run, P (TestCaseObj c m meth s run)) →
  (∀ c m s tests, Forall P tests → P (TestSuiteObj c m s tests)) →
  ∀ t, P t.
Proof.
  intros case_step suite_step. fix IH 1. intros [c m meth s run|c m s tests].
  - apply case_step.
  - apply suite_step.
    induction tests as [|t_ tests IHtests]; constructor; [apply IH | exact IHtests].
Qed.

(** ** [BaseTreeNode.child] *)

Lemma py_getitem_in_range {A} (l : list A) (i : Z) :
  (0 ≤ i < Z.of_nat (length l))%Z →
  py_getitem l i = l !! Z.to_nat i ∧ is_Some (py_getitem l i).
Proof.
  intros [Hlo Hhi]. unfold py_getitem.
  destruct (Z.leb_spec 0 i) as [_|Hneg]; [|lia].
  split; [reflexivity|]. apply lookup_lt_is_Some. lia.
Qed.

Lemma py_getitem_past_end {A} (l : list A) (i : Z) :
  (Z.of_nat (length l) ≤ i)%Z → py_getitem l i = None.
Proof.
  intros Hge. unfold py_getitem.
  destruct (Z.leb_spec 0 i) as [_|Hneg]; [|lia].
  apply lookup_ge_None. lia.
Qed.

(** C10. [child(row)] is [None], and no exception, for every row at or past
    the number of children; for [0 <= row < child_count()] it is the element
    of [children] at that row, which exists. *)
Theorem child_row_in_and_out_of_range (n : TestNode) (row : Z) :
  ((Z.of_nat (child_count n) ≤ row)%Z → child n row = None) ∧
  ((0 ≤ row < Z.of_nat (child_count n))%Z →
     child n row = children n !! Z.to_nat row ∧ is_Some (child n row)).
Proof.
  unfold child, child_count. split.
  - apply py_getitem_past_end.
  - apply py_getitem_in_range.
Qed.

Lemma child_row_in_and_out_of_range_witness :
  child two_leaves 2 = None ∧
  child two_leaves 1 = children two_leaves !! 1%nat ∧ is_Some (child two_leaves 1).
Proof.
  split.
  - apply (proj1 (child_row_in_and_out_of_range two_leaves 2)).
    unfold child_count; simpl; lia.
  - apply (proj2 (child_row_in_and_out_of_range two_leaves 1)).
    unfold child_count; simpl; lia.
Defined.

(** ** Status aggregation *)

Lemma get_status_unfold (n : TestNode) :
  get_status n =
    (flagged ← is_import_failure n;
     if flagged : bool then Ok error
     else match children n with
          | [] => Ok (status n)
          | _ :: _ => status_loop get_status (children n) not_run
          end).
Proof. destruct n; reflexivity. Qed.

Lemma merge_step_error (r : TestStatus) : merge_step r error = None.
Proof. reflexivity. Qed.

Lemma merge_step_not_error (r s : TestStatus) :
  s ≠ error → ∃ r', merge_step r s = Some r'.
Proof.
  intros Hs. unfold merge_step.
  repeat case_decide; eauto; contradiction.
Qed.

Lemma bool_decide_elem_of_nil (x : TestStatus) : bool_decide (x ∈ @nil TestStatus) = false.
Proof. apply bool_decide_eq_false. apply not_elem_of_nil. Qed.

Lemma bool_decide_elem_of_cons (x s : TestStatus) (ss : list TestStatus) :
  bool_decide (x ∈ s :: ss) = bool_decide (x = s) || bool_decide (x ∈ ss).
Proof.
  destruct (decide (x = s)) as [->|Hne].
  - rewrite (bool_decide_eq_true_2 (s = s)) by reflexivity.
    apply bool_decide_eq_true_2. left.
  - rewrite (bool_decide_eq_false_2 (x = s)) by assumption. simpl.
    apply bool_decide_ext. rewrite elem_of_cons. tauto.
Qed.

Lemma last_default_cons {A} (d x : A) (l : list A) :
  default d (last (x :: l)) = default x (last l).
Proof. rewrite last_cons. destruct (last l); reflexivity. Qed.

Section Loop.
Variable f : TestNode → result TestStatus.

(** The loop stops at the first child that reports error, whatever comes
    after it. *)
Lemma status_loop_short_circuit (pre post : list TestNode) (c : TestNode)
    (r : TestStatus) :
  Forall (fun x => ∃ s, f x = Ok s ∧ s ≠ error) pre →
  f c = Ok error →
  status_loop f (pre ++ c :: post) r = Ok error.
Proof.
  intros Hpre Hc. revert r.
  induction Hpre as [|x pre (s & Hx & Hs) _ IH]; intros r; simpl.
  - rewrite Hc. reflexivity.
  - rewrite Hx. simpl.
    destruct (merge_step_not_error r s Hs) as [r' ->]. apply IH.
Qed.

(** With the statuses of all children at hand the loop computes the merge,
    started from [r]. *)
Lemma status_loop_merge (cs : list TestNode) (ss : list TestStatus)
    (r : TestStatus) :
  Forall2 (fun c s => f c = Ok s) cs ss →
  status_loop f cs r =
    Ok (if bool_decide (error ∈ ss) then error
        else if bool_decide (fail ∈ ss) || bool_decide (r = fail) then fail
        else default r (last (filter (fun s => s = success ∨ s = skipped) ss))).
Proof.
  intros H. revert r.
  induction H as [|c s cs ss Hc _ IH]; intros r; simpl.
  - destruct r; reflexivity.
  - rewrite Hc. simpl.
    destruct s, r; unfold merge_step; simpl; rewrite ?IH;
      rewrite ?bool_decide_elem_of_cons, ?filter_cons; simpl;
      rewrite ?last_default_cons;
      destruct (bool_decide (error ∈ ss)), (bool_decide (fail ∈ ss));
      reflexivity.
Qed.
End Loop.

Lemma status_loop_all_skipped (f : TestNode → result TestStatus)
    (cs : list TestNode) (r : TestStatus) :
  Forall (fun c => f c = Ok skipped) cs → r ≠ fail →
  status_loop f cs r = Ok (match cs with [] => r | _ :: _ => skipped end).
Proof.
  intros H. revert r. induction H as [|c cs Hc _ IH]; intros r Hr; simpl.
  - reflexivity.
  - rewrite Hc. simpl.
    assert (merge_step r skipped = Some skipped) as ->
      by (destruct r; try reflexivity; contradiction).
    rewrite IH by discriminate. destruct cs; reflexivity.
Qed.

Lemma all_nodes_unfold (p : TestNode → bool) (n : TestNode) :
  all_nodes p n = p n && forallb (all_nodes p) (children n).
Proof. destruct n; reflexivity. Qed.

(** C1 (as amended). For a node with at least one child: when the guard
    of [get_status] flags the node as an import failure the status is error
    whatever the children report; otherwise the loop stops with error at the
    first child that reports error, and when every child reports a status the
    result is the priority merge of these statuses. *)
Theorem get_status_guarded_priority_merge (n : TestNode) :
  children n ≠ [] →
  (is_import_failure n = Ok true → get_status n = Ok error) ∧
  (is_import_failure n = Ok false →
     (∀ pre c post,
        children n = pre ++ c :: post →
        Forall (fun x => ∃ s, get_status x = Ok s ∧ s ≠ error) pre →
        get_status c = Ok error →
        get_status n = Ok error) ∧
     (∀ ss,
        Forall2 (fun c s => get_status c = Ok s) (children n) ss →
        get_status n = Ok (priority_merge ss))).
Proof.
  intros Hcs. rewrite get_status_unfold. split; intros ->; simpl.
  - reflexivity.
  - destruct (children n) as [|c0 cs0] eqn:E; [contradiction|]. split.
    + intros pre c post -> Hpre Hc.
      by apply status_loop_short_circuit.
    + intros ss Hss. rewrite (status_loop_merge _ _ ss) by exact Hss.
      unfold priority_merge. simpl. by rewrite orb_false_r.
Qed.

Lemma get_status_guarded_priority_merge_witness :
  get_status two_leaves = Ok (priority_merge [success; fail]).
Proof.
  refine (proj2 (proj2 (get_status_guarded_priority_merge two_leaves _) _) _ _).
  - discriminate.
  - reflexivity.
  - repeat constructor.
Defined.

(** C1 (as stated) fails: the suite of a module whose test class was
    imported from a module called [ModuleImportFailure] has one child, which
    reports success, and its own status is error. *)
Lemma get_status_is_not_the_merge_under_the_guard :
  match borrowed_model with
  | Ok m =>
      match node_at (root_node m) [0] with
      | Some n =>
          children n ≠ [] ∧
          Forall2 (fun c s => get_status c = Ok s) (children n) [success] ∧
          priority_merge [success] = success ∧
          get_status n = Ok error
      | None => False
      end
  | Raise _ => False
  end.
Proof.
  vm_compute. split; [discriminate|]. split; [|split; reflexivity].
  repeat constructor.
Qed.

(** C2. In a tree where every node without children has the status skipped
    and the guard of [get_status] flags no node as an import failure, the
    status of the root is skipped. *)
Theorem all_skipped_root_skipped (root : TestNode) :
  all_nodes leaf_is_skipped root = true →
  all_nodes not_import_failure root = true →
  get_status root = Ok skipped.
Proof.
  induction root as [t tip st cs IH] using TestNode_tree_ind.
  rewrite !all_nodes_unfold. simpl children.
  intros [Hleaf Hleaves]%andb_true_iff [Hflag Hflags]%andb_true_iff.
  rewrite get_status_unfold.
  unfold not_import_failure in Hflag.
  destruct (is_import_failure _) as [[|]|]; try discriminate. simpl.
  destruct cs as [|c cs'].
  - unfold leaf_is_skipped in Hleaf. simpl in Hleaf.
    apply bool_decide_eq_true_1 in Hleaf. by rewrite Hleaf.
  - rewrite status_loop_all_skipped; [reflexivity| |discriminate].
    rewrite forallb_forall in Hleaves, Hflags.
    rewrite Forall_forall in IH |- *.
    intros x Hx. apply IH; [exact Hx| |]; [apply Hleaves|apply Hflags];
      by apply list_elem_of_In.
Qed.

Lemma all_skipped_root_skipped_witness : get_status skipped_tree = Ok skipped.
Proof. apply (all_skipped_root_skipped skipped_tree); reflexivity. Defined.

(** ** Import failures *)

(** The capture as it is written, for the class name that [unittest] gave a
    failed import up to Python 3.4: constructing the node of a
    [ModuleImportFailure] test whose method raises the [ImportError] calls
    the method once, keeps the formatted traceback as the tooltip, and the
    status of the node is error. *)
Lemma ModuleImportFailure_node_captured (modl method s traceback : string) :
  ∃ node,
    TestNode_init
      (TestCaseObj "ModuleImportFailure" modl method s (RaisesImportError traceback))
    = Ok (node, [CalledTestMethod method; LoggedWarning traceback]) ∧
    tool_tip node = traceback ∧
    get_status node = Ok error.
Proof.
  eexists. split; [|split].
  - cbn -[String.eqb]. rewrite String.eqb_refl. simpl. rewrite String.eqb_refl.
    reflexivity.
  - reflexivity.
  - rewrite get_status_unfold. unfold is_import_failure. simpl.
    rewrite bool_decide_eq_true_2; [reflexivity|].
    apply elem_of_cons. right. apply elem_of_cons. by left.
Qed.

(** C5.  The capture goes by the class name [ModuleImportFailure] alone.  A
    test case of any other class whose method raises an [ImportError], as
    the [_FailedTest] that [unittest] returns for a module that fails to
    import from Python 3.5 on, is not captured: the constructor does not
    call the method and logs nothing, the tooltip stays [str(test)], and the
    status of the node is not-run, not error. *)
Theorem failed_import_is_not_captured (cls modl method s traceback : string) :
  cls ≠ "ModuleImportFailure" → method ≠ "ModuleImportFailure" →
  ∃ node,
    TestNode_init (TestCaseObj cls modl method s (RaisesImportError traceback))
    = Ok (node, []) ∧
    tool_tip node = s ∧
    get_status node = Ok not_run.
Proof.
  intros Hcls Hmethod.
  assert (String.eqb "ModuleImportFailure" cls = false) as Heqb
    by (apply String.eqb_neq; congruence).
  eexists. split; [|split].
  - cbn -[String.eqb]. rewrite Heqb. reflexivity.
  - reflexivity.
  - rewrite get_status_unfold. unfold is_import_failure. simpl.
    rewrite bool_decide_eq_false_2; [reflexivity|].
    intros [Hin|[Hin|[]%elem_of_nil]%elem_of_cons]%elem_of_cons; congruence.
Qed.

Lemma failed_import_is_not_captured_witness :
  ∃ node,
    TestNode_init failed_import_test = Ok (node, []) ∧
    tool_tip node = "test_sphere (unittest.loader._FailedTest)" ∧
    get_status node = Ok not_run.
Proof.
  apply (failed_import_is_not_captured "_FailedTest" "unittest.loader" "test_sphere"
           "test_sphere (unittest.loader._FailedTest)"
           "ImportError: Failed to import test module: test_sphere");
    discriminate.
Defined.

(** ** Output capture *)

Lemma prefix_same_first_char (a b : ascii) (p q text : string) :
  String.prefix (String a p) text = true →
  String.prefix (String b q) text = true → a = b.
Proof.
  destruct text as [|c text]; simpl; [discriminate|].
  destruct (ascii_dec a c), (ascii_dec b c); congruence.
Qed.

Lemma textColor_write (text : string) (te : QTextEdit) :
  textColor (write text te) = normal_color.
Proof. reflexivity. Qed.

Ltac other_prefix :=
  match goal with
  | H1 : startswith ?t _ = true, H2 : startswith ?t _ = true |- _ =>
      pose proof (prefix_same_first_char _ _ _ _ _ H1 H2); discriminate
  end.

(** C4 (as amended). [write] appends the text in the colour of its prefix
    when it starts with "ok", "FAIL", "ERROR" or "skipped", and otherwise in
    the colour the text edit has at that moment; it leaves the text edit with
    the normal colour, so text without such a prefix is in the normal colour
    whenever the text edit has it, as it does after an earlier [write]. *)
Theorem write_colours_by_prefix (text : string) (te : QTextEdit) :
  ∃ c,
    inserted (write text te) = inserted te ++ [(c, text)] ∧
    textColor (write text te) = normal_color ∧
    (startswith text "ok" = true → c = success_color) ∧
    (startswith text "FAIL" = true → c = fail_color) ∧
    (startswith text "ERROR" = true → c = error_color) ∧
    (startswith text "skipped" = true → c = skip_color) ∧
    (startswith text "ok" = false → startswith text "FAIL" = false →
     startswith text "ERROR" = false → startswith text "skipped" = false →
     c = textColor te) ∧
    (textColor te = normal_color → c = prefix_color text) ∧
    (∀ text0 te0, te = write text0 te0 → c = prefix_color text).
Proof.
  assert (∃ c, inserted (write text te) = inserted te ++ [(c, text)] ∧
               c = (if startswith text "ok" then success_color
                    else if startswith text "FAIL" then fail_color
                    else if startswith text "ERROR" then error_color
                    else if startswith text "skipped" then skip_color
                    else textColor te)) as (c & Hins & Hc).
  { unfold write.
    destruct (startswith text "ok"), (startswith text "FAIL"),
      (startswith text "ERROR"), (startswith text "skipped");
      eexists; split; reflexivity. }
  exists c. split; [exact Hins|]. split; [reflexivity|].
  unfold prefix_color.
  destruct (startswith text "ok") eqn:Hok, (startswith text "FAIL") eqn:Hfail,
    (startswith text "ERROR") eqn:Herr, (startswith text "skipped") eqn:Hskip;
    try other_prefix; subst c;
    repeat split; intros; subst; try reflexivity; try discriminate; try assumption.
Qed.

Lemma write_colours_by_prefix_witness :
  ∃ c, inserted (write "FAIL: test_radius" fresh_text_edit)
       = inserted fresh_text_edit ++ [(c, "FAIL: test_radius")] ∧ c = fail_color.
Proof.
  destruct (write_colours_by_prefix "FAIL: test_radius" fresh_text_edit)
    as (c & Hins & _ & _ & Hfail & _).
  exists c. split; [exact Hins | apply Hfail; reflexivity].
Defined.

(** C4 (as stated) fails: the first line a runner writes to a text edit that
    has not been written to, which has none of the prefixes, is inserted in
    the text edit's own colour and not in the normal colour. *)
Lemma write_first_text_not_in_normal_color :
  inserted (write "test_radius (test_sphere.SphereTests) ... " fresh_text_edit)
    = [(mkQColor 0 0 0, "test_radius (test_sphere.SphereTests) ... ")] ∧
  prefix_color "test_radius (test_sphere.SphereTests) ... " = normal_color ∧
  mkQColor 0 0 0 ≠ normal_color.
Proof. split; [reflexivity|]. split; [reflexivity|discriminate]. Qed.

(** ** [Settings] *)

Lemma append_cons (x : ascii) (a b : string) : String x a +:+ b = String x (a +:+ b).
Proof. reflexivity. Qed.

Lemma append_assoc (a b c : string) : (a +:+ b) +:+ c = a +:+ (b +:+ c).
Proof.
  induction a as [|x a IH]; [reflexivity|].
  rewrite !append_cons. by rewrite IH.
Qed.

Lemma append_inj (a x y : string) : a +:+ x = a +:+ y → x = y.
Proof.
  induction a as [|c a IH]; [auto|].
  rewrite !append_cons. intros [=]. auto.
Qed.

Lemma endswith_slash_mayaunittest (a : string) :
  endswith (a +:+ "mayaunittest") "/" = false.
Proof.
  induction a as [|c a IH]; [reflexivity|].
  rewrite append_cons. cbn [endswith]. rewrite IH, orb_false_r.
  apply bool_decide_eq_false_2. intros [= _ H].
  destruct a; discriminate H.
Qed.

Lemma prefix_head (a c : ascii) (p text : string) :
  String.prefix (String a p) (String c text) = true → a = c.
Proof. simpl. destruct (ascii_dec a c); [auto | discriminate]. Qed.

Lemma uuid_str_not_absolute (u : string) :
  is_uuid_str u = true → startswith u "/" = false.
Proof.
  destruct u as [|c u]; [reflexivity|].
  destruct (startswith (String c u) "/") eqn:E; [|reflexivity].
  apply prefix_head in E as <-.
  unfold is_uuid_str. cbn [String.list_ascii_of_string imap forallb].
  intros [_ H]%andb_true_iff. apply andb_true_iff in H as [H _].
  vm_compute in H. discriminate H.
Qed.

(** The directory under the system's temporary directory. *)
Lemma join_mayaunittest (tmp : string) :
  os_path_join tmp ["mayaunittest"] =
    if bool_decide (tmp = "") || endswith tmp "/" then tmp +:+ "mayaunittest"
    else tmp +:+ "/mayaunittest".
Proof. reflexivity. Qed.

Lemma join_mayaunittest_uuid (tmp u : string) :
  is_uuid_str u = true →
  os_path_join tmp ["mayaunittest"; u] = os_path_join tmp ["mayaunittest"] +:+ "/" +:+ u.
Proof.
  intros Hu. cbn [os_path_join].
  rewrite (uuid_str_not_absolute u Hu).
  change (startswith "mayaunittest" "/") with false. cbn iota.
  set (base := if bool_decide (tmp = "") || endswith tmp "/" then _ else _).
  assert (∃ a, base = a +:+ "mayaunittest") as [a ->].
  { subst base. destruct (_ || _).
    - by exists tmp.
    - exists (tmp +:+ "/"). by rewrite append_assoc. }
  rewrite endswith_slash_mayaunittest, orb_false_r.
  rewrite bool_decide_eq_false_2; [reflexivity|].
  destruct a; discriminate.
Qed.

(** C6. [Settings.temp_dir] starts as the system's temporary directory, then
    [mayaunittest], then the string of the uuid generated at import as the
    last component; two imports that drew different uuids have different
    directories. *)
Theorem temp_dir_ends_in_the_uuid (tmp u : string) :
  is_uuid_str u = true →
  temp_dir (Settings_init tmp u) = os_path_join tmp ["mayaunittest"] +:+ "/" +:+ u ∧
  (tmp ≠ "" → endswith tmp "/" = false →
   temp_dir (Settings_init tmp u) = tmp +:+ "/mayaunittest/" +:+ u) ∧
  (∀ u', is_uuid_str u' = true →
         temp_dir (Settings_init tmp u') = temp_dir (Settings_init tmp u) → u' = u).
Proof.
  intros Hu. cbn [Settings_init temp_dir]. split; [|split].
  - by apply join_mayaunittest_uuid.
  - intros Hne Hend. rewrite join_mayaunittest_uuid by exact Hu.
    rewrite join_mayaunittest, Hend, bool_decide_eq_false_2 by exact Hne.
    cbn [orb]. by rewrite append_assoc.
  - intros u' Hu'. rewrite !join_mayaunittest_uuid by assumption.
    intros H%append_inj. by injection H.
Qed.

Lemma temp_dir_ends_in_the_uuid_witness :
  temp_dir (Settings_init "/tmp" sample_uuid)
    = "/tmp/mayaunittest/123e4567-e89b-42d3-a456-426614174000".
Proof.
  destruct (temp_dir_ends_in_the_uuid "/tmp" sample_uuid) as (_ & H & _).
  - reflexivity.
  - apply H; [discriminate | reflexivity].
Defined.

(** C9. [set_temp_dir] stores the directory when the path exists; when it
    does not, it raises a [RuntimeError] and leaves [Settings] and everything
    else as it was. *)
Theorem set_temp_dir_sets_or_raises (directory : string) (w : World) :
  (os_path_exists (fs w) directory = true →
   set_temp_dir directory w = (with_temp_dir w directory, Ok ())) ∧
  (os_path_exists (fs w) directory = false →
   set_temp_dir directory w = (w, Raise (RuntimeError (directory +:+ " does not exist.")))).
Proof.
  unfold set_temp_dir, mbind, Py_bind, get_world. split; intros ->; reflexivity.
Qed.

Lemma set_temp_dir_sets_or_raises_witness :
  set_temp_dir "/tmp" fresh_world = (with_temp_dir fresh_world "/tmp", Ok ()) ∧
  set_temp_dir "/scratch" fresh_world
    = (fresh_world, Raise (RuntimeError "/scratch does not exist.")).
Proof.
  split.
  - apply (proj1 (set_temp_dir_sets_or_raises "/tmp" fresh_world)). reflexivity.
  - apply (proj2 (set_temp_dir_sets_or_raises "/scratch" fresh_world)). reflexivity.
Defined.

(** ** Temporary files *)

Lemma keeps_bind {A B} (c : Py A) (k : A → Py B) :
  keeps_files_created c → (∀ a, keeps_files_created (k a)) →
  keeps_files_created (c ≫= k).
Proof.
  intros Hc Hk w. unfold mbind, Py_bind. specialize (Hc w).
  destruct (c w) as [w' [a|e]]; simpl in *; [|exact Hc].
  by rewrite Hk.
Qed.

Lemma keeps_ret {A} (a : A) : keeps_files_created (mret a : Py A).
Proof. by intros w. Qed.

Lemma keeps_raise {A} (e : exn) : keeps_files_created (raise e : Py A).
Proof. by intros w. Qed.

Lemma keeps_get_world : keeps_files_created get_world.
Proof. by intros w. Qed.

Lemma keeps_put_fs (fs' : gmap string FileKind) : keeps_files_created (put_fs fs').
Proof. by intros w. Qed.

Lemma keeps_put_files_create (l : list string) :
  keeps_files_created (put_files_create l).
Proof. by intros w. Qed.

Create HintDb keeps.
#[local] Hint Resolve keeps_ret keeps_raise keeps_get_world keeps_put_fs
  keeps_put_files_create : keeps.

Ltac keeps_step :=
  repeat first
    [ apply keeps_bind; [|intros ?]
    | solve [auto with keeps]
    | match goal with |- keeps_files_created (match ?x with _ => _ end) => destruct x end
    | match goal with |- keeps_files_created (if ?x then _ else _) => destruct x end ].

Lemma keeps_os_remove (f : string) : keeps_files_created (os_remove f).
Proof. unfold os_remove. keeps_step. Qed.

Lemma keeps_shutil_rmtree (d : string) : keeps_files_created (shutil_rmtree d).
Proof. unfold shutil_rmtree. keeps_step. Qed.

#[local] Hint Resolve keeps_os_remove keeps_shutil_rmtree : keeps.

Lemma keeps_remove_existing (files : list string) :
  keeps_files_created (remove_existing files).
Proof.
  induction files as [|f files IH]; cbn [remove_existing]; keeps_step.
Qed.

#[local] Hint Resolve keeps_remove_existing : keeps.

(** [delete_temp_files] never changes [files_created]. *)
Lemma delete_temp_files_keeps_files_created : keeps_files_created delete_temp_files.
Proof. unfold delete_temp_files. keeps_step. Qed.

(** C8, at the failing input: a test registers and writes one temporary
    file; with [Settings.delete_files] true, [delete_temp_files] removes the
    file and the temporary directory, and [files_created] still holds the
    path afterwards: what was set to the empty list is [files_create]. *)
Theorem delete_temp_files_does_not_empty_the_registry :
  match write_temp_file "sphere.ma" fresh_world with
  | (w1, Ok p) =>
      p = "/tmp/mayaunittest/123e4567-e89b-42d3-a456-426614174000/sphere.ma" ∧
      delete_files (settings w1) = true ∧
      files_created w1 = [p] ∧
      fs w1 !! p = Some RegularFile ∧
      match delete_temp_files w1 with
      | (w2, r) =>
          r = Ok () ∧
          fs w2 !! p = None ∧
          fs w2 !! temp_dir (settings w2) = None ∧
          files_created w2 = [p] ∧
          files_create w2 = Some []
      end
  | (_, Raise _) => False
  end.
Proof. vm_compute. repeat split. Qed.

(** ** Positions, and changes at a position *)

Lemma descend_app (n : TestNode) (rows1 rows2 : list nat) :
  descend n (rows1 ++ rows2) = descend n rows1 ≫= fun c => descend c rows2.
Proof.
  revert n. induction rows1 as [|r rows1 IH]; intros n; simpl; [reflexivity|].
  destruct (children n !! r) as [c|]; simpl; [apply IH | reflexivity].
Qed.

Lemma node_at_cons (root : TestNode) (row : nat) (ref : NodeRef) :
  node_at root (row :: ref) = node_at root ref ≫= fun c => children c !! row.
Proof.
  unfold node_at. rewrite reverse_cons, descend_app.
  destruct (descend root (reverse ref)) as [c|]; simpl; [|reflexivity].
  destruct (children c !! row); reflexivity.
Qed.

Section Modify.
Variable f : TestNode → TestNode.
Hypothesis f_test : ∀ x, test (f x) = test x.
Hypothesis f_children : ∀ x, children (f x) = children x.

(** After the change at [rows] every position that led to a node still
    does, to the changed node at [rows] and elsewhere to a node with the
    same fields. *)
Lemma descend_modify (rows rows' : list nat) (n d : TestNode) :
  descend n rows' = Some d →
  ∃ d', descend (modify f rows n) rows' = Some d' ∧
        test d' = test d ∧
        length (children d') = length (children d) ∧
        (rows' = rows → d' = f d) ∧
        (rows' ≠ rows → status d' = status d ∧ tool_tip d' = tool_tip d).
Proof.
  revert rows n. induction rows' as [|r' t' IH]; intros rows n; simpl.
  - intros [= <-]. destruct rows as [|r t]; simpl.
    + exists (f n). rewrite f_test, f_children. by repeat split.
    + eexists. split; [reflexivity|]. simpl. rewrite length_alter.
      by repeat split.
  - destruct (children n !! r') as [c|] eqn:Hc; simpl; [|discriminate].
    intros Hd. destruct rows as [|r t]; simpl.
    + rewrite f_children, Hc. simpl. exists d. by repeat split.
    + destruct (decide (r = r')) as [->|Hne].
      * rewrite list_lookup_alter_eq, Hc. simpl.
        destruct (IH t c Hd) as (d' & Hd' & Ht & Hl & Heq & Hneq).
        exists d'. repeat split; try assumption.
        -- intros [= ->]. by apply Heq.
        -- apply Hneq. congruence.
        -- apply Hneq. congruence.
      * rewrite list_lookup_alter_ne, Hc by exact Hne. simpl.
        exists d. repeat split; try assumption; congruence.
Qed.

Lemma node_at_modify_at (index ref : NodeRef) (root d : TestNode) :
  node_at root ref = Some d →
  ∃ d', node_at (modify_at f index root) ref = Some d' ∧
        test d' = test d ∧
        length (children d') = length (children d) ∧
        (ref = index → d' = f d) ∧
        (ref ≠ index → status d' = status d ∧ tool_tip d' = tool_tip d).
Proof.
  intros Hd. unfold node_at, modify_at.
  destruct (descend_modify (reverse index) (reverse ref) root d Hd)
    as (d' & Hd' & Ht & Hl & Heq & Hneq).
  exists d'. repeat split; try assumption.
  - intros ->. by apply Heq.
  - apply Hneq. intros Hrev. apply (inj reverse) in Hrev. contradiction.
  - apply Hneq. intros Hrev. apply (inj reverse) in Hrev. contradiction.
Qed.
End Modify.

(** ** [setData] with the decoration role *)

Lemma set_status_at (value : TestStatus) (index ref : NodeRef) (root d : TestNode) :
  node_at root ref = Some d →
  ∃ d', node_at (modify_at (fun node => set_status node value) index root) ref = Some d' ∧
        same_node d d' ∧
        status d' = if bool_decide (ref = index) then value else status d.
Proof.
  intros Hd.
  destruct (node_at_modify_at (fun node => set_status node value)
              (fun _ => eq_refl) (fun _ => eq_refl) index ref root d Hd)
    as (d' & Hd' & Ht & Hl & Heq & Hneq).
  exists d'. split; [exact Hd'|]. case_bool_decide as Hri.
  - rewrite (Heq Hri). by repeat split.
  - destruct (Hneq Hri) as [Hs Htip]. by repeat split.
Qed.

Lemma suffix_of_singleton (ref : NodeRef) (row : nat) :
  ref ≠ [] ∧ ref `suffix_of` [row] ↔ ref = [row].
Proof.
  split.
  - intros [Hne [k Hk]]. destruct k as [|x k].
    + by rewrite Hk.
    + destruct k, ref; simplify_eq/=.
  - intros ->. split; [discriminate | reflexivity].
Qed.

Lemma suffix_of_cons (ref p : NodeRef) (row : nat) :
  ref ≠ [] ∧ ref `suffix_of` row :: p ↔ ref = row :: p ∨ (ref ≠ [] ∧ ref `suffix_of` p).
Proof.
  split.
  - intros [Hne [k Hk]]. destruct k as [|x k]; simpl in Hk.
    + left. by rewrite Hk.
    + right. split; [exact Hne|]. exists k. by injection Hk.
  - intros [->|[Hne Hs]]; split; try done. by apply suffix_cons_r.
Qed.

(** [setData] with the decoration role writes the value to the status of the
    indexed node and of every node above it except the root, and changes no
    other field of any node. *)
Lemma setData_decoration (value : TestStatus) (index : QModelIndex) :
  ∀ (m : TestTreeModel) (node : TestNode),
    internalPointer m index = Some node →
    ∃ m', setData m index (DecorationRole value) = Ok m' ∧
          node_lookup m' = node_lookup m ∧
          ∀ ref d, node_at (root_node m) ref = Some d →
            ∃ d', node_at (root_node m') ref = Some d' ∧
                  same_node d d' ∧
                  status d' =
                    if bool_decide (ref ≠ [] ∧ ref `suffix_of` index)
                    then value else status d.
Proof.
  induction index as [|row p IH]; intros m node Hptr; [discriminate|].
  cbn [setData]. rewrite Hptr. cbn [internalPointer] in Hptr.
  set (root1 := modify_at _ (row :: p) (root_node m)).
  destruct p as [|row2 p2].
  - eexists. split; [reflexivity|]. split; [reflexivity|].
    intros ref d Hd. cbn [root_node emit with_root].
    destruct (set_status_at value [row] ref (root_node m) d Hd)
      as (d' & Hd' & Hsame & Hst).
    exists d'. split; [exact Hd'|]. split; [exact Hsame|]. rewrite Hst.
    apply (f_equal (fun b : bool => if b then value else status d)).
    apply bool_decide_ext. by rewrite suffix_of_singleton.
  - set (p := row2 :: p2) in *.
    rewrite node_at_cons in Hptr.
    destruct (node_at (root_node m) p) as [parent|] eqn:Hparent; [|discriminate].
    destruct (set_status_at value (row :: p) p (root_node m) parent Hparent)
      as (parent1 & Hparent1 & _ & _).
    set (m1 := emit (with_root m root1) (row :: p)).
    destruct (IH m1 parent1) as (m' & Hm' & Hlookup & Hall).
    { exact Hparent1. }
    exists m'. split; [exact Hm'|]. split; [exact Hlookup|].
    intros ref d Hd.
    destruct (set_status_at value (row :: p) ref (root_node m) d Hd)
      as (d1 & Hd1 & (Ht1 & Htip1 & Hl1) & Hst1).
    destruct (Hall ref d1 Hd1) as (d' & Hd' & (Ht & Htip & Hl) & Hst).
    exists d'. split; [exact Hd'|]. split.
    { repeat split; congruence. }
    rewrite Hst, Hst1.
    rewrite (bool_decide_ext _ _ (suffix_of_cons ref p row)), bool_decide_or.
    destruct (bool_decide (ref = row :: p)), (bool_decide (ref ≠ [] ∧ ref `suffix_of` p));
      reflexivity.
Qed.

(** C3 (as amended). The status [get_status] reports for a node with children
    does not depend on the node's own [status] field; [setData] with the
    decoration role, which stores the outcome of a test, writes the value to
    the [status] field of the indexed node and of each node above it except
    the root, and to no other field. *)
Theorem non_leaf_status_written_but_not_read :
  (∀ (n : TestNode) (s : TestStatus),
     children n ≠ [] → get_status (set_status n s) = get_status n) ∧
  (∀ (value : TestStatus) (index : QModelIndex) (m : TestTreeModel) (node : TestNode),
     internalPointer m index = Some node →
     ∃ m', setData m index (DecorationRole value) = Ok m' ∧
           ∀ ref d, node_at (root_node m) ref = Some d →
             ∃ d', node_at (root_node m') ref = Some d' ∧
                   same_node d d' ∧
                   status d' =
                     if bool_decide (ref ≠ [] ∧ ref `suffix_of` index)
                     then value else status d).
Proof.
  split.
  - intros n s Hcs. rewrite !get_status_unfold.
    destruct n as [t tip st cs]. simpl in *.
    destruct cs; [contradiction | reflexivity].
  - intros value index m node Hptr.
    destruct (setData_decoration value index m node Hptr) as (m' & Hm' & _ & Hall).
    by exists m'.
Qed.

Lemma non_leaf_status_written_but_not_read_witness :
  ∃ m' d',
    setData (TestTreeModel_init sphere_tree) [0; 0; 0] (DecorationRole fail) = Ok m' ∧
    node_at (root_node m') [0; 0] = Some d' ∧
    status d' = fail.
Proof.
  destruct (proj2 non_leaf_status_written_but_not_read fail [0; 0; 0]
              (TestTreeModel_init sphere_tree)
              (default two_leaves (node_at sphere_tree [0; 0; 0])) eq_refl)
    as (m' & Hm' & Hall).
  destruct (Hall [0; 0] (default two_leaves (node_at sphere_tree [0; 0])) eq_refl)
    as (d' & Hd' & _ & Hst).
  exists m', d'. split; [exact Hm'|]. split; [exact Hd'|]. exact Hst.
Defined.

(** C3 (as stated) fails: storing the outcome of a run in which one test of
    a class fails and the other passes writes the [status] field of the node
    of the class, which has children; the field ends as success, while
    [get_status] of the node is fail. *)
Lemma run_outcome_sets_non_leaf_status :
  match sphere_model with
  | Ok m =>
      match store_run_result m sphere_failed_run with
      | Ok m' =>
          match node_at (root_node m) [0; 0], node_at (root_node m') [0; 0] with
          | Some d, Some d' =>
              children d ≠ [] ∧ status d = not_run ∧
              status d' = success ∧ get_status d' = Ok fail
          | _, _ => False
          end
      | Raise _ => False
      end
  | Raise _ => False
  end.
Proof. vm_compute. split; [discriminate|]. repeat split. Qed.

(** ** The shape of the trees the constructor builds *)

Lemma solid_unfold (n : TestNode) :
  solid n = match children n with
            | [] => isinstance_TestCase (test n)
            | _ :: _ => isinstance_TestSuite (test n) && forallb solid (children n)
            end.
Proof. destruct n; reflexivity. Qed.

Lemma TestNode_init_unfold (t : UnitTest) :
  TestNode_init t =
    ('(cs, evs) ←
       match t with
       | TestSuiteObj _ _ _ tests => add_children TestNode_init tests
       | TestCaseObj _ _ _ _ _ => Ok ([], [])
       end;
     let self := mkTestNode t (str t) not_run cs in
     if String.eqb "ModuleImportFailure" (class_name t) then
       nm ← name self;
       match call_method t nm with
       | Returns => Ok (self, evs ++ [CalledTestMethod nm])
       | RaisesImportError traceback =>
           Ok (set_tool_tip self traceback,
               evs ++ [CalledTestMethod nm; LoggedWarning traceback])
       | RaisesOther e => Raise e
       end
     else Ok (self, evs)).
Proof. destruct t; reflexivity. Qed.

(** The node the constructor returns wraps the test it was given, over the
    children the loop added. *)
Lemma TestNode_init_inv (t : UnitTest) (n : TestNode) (evs : list Event) :
  TestNode_init t = Ok (n, evs) →
  ∃ cs evs0,
    match t with
    | TestSuiteObj _ _ _ tests => add_children TestNode_init tests
    | TestCaseObj _ _ _ _ _ => Ok ([], [])
    end = Ok (cs, evs0) ∧
    test n = t ∧ children n = cs.
Proof.
  rewrite TestNode_init_unfold. intros ([cs evs0] & Hcs & H)%bind_Ok_inv.
  exists cs, evs0. split; [exact Hcs|]. cbv zeta in H.
  destruct (String.eqb _ _).
  - apply bind_Ok_inv in H as (nm & _ & H).
    destruct (call_method t nm); simplify_eq; by split.
  - simplify_eq. by split.
Qed.

Lemma add_children_solid (tests : list UnitTest) :
  Forall (fun t_ => ∀ n evs, TestNode_init t_ = Ok (n, evs) →
                    isinstance_TestCase t_ || bool_decide (countTestCases t_ ≠ 0) = true →
                    solid n = true) tests →
  ∀ cs evs, add_children TestNode_init tests = Ok (cs, evs) →
    forallb solid cs = true ∧
    (foldr (fun t_ acc => countTestCases t_ + acc) 0 tests ≠ 0 → cs ≠ []).
Proof.
  induction 1 as [|t_ tests Ht _ IH]; intros cs evs; simpl.
  - intros [= <- <-]. split; [reflexivity | intros []; reflexivity].
  - destruct (isinstance_TestCase t_ || bool_decide (countTestCases t_ ≠ 0)) eqn:Hadd.
    + intros ([c ev] & Hc & ([cs' evs'] & Hcs' & H)%bind_Ok_inv)%bind_Ok_inv.
      simplify_eq. destruct (IH _ _ Hcs') as [Hsolid _].
      split; [|discriminate]. simpl. by rewrite (Ht _ _ Hc), Hsolid.
    + intros Hcs. destruct (IH _ _ Hcs) as [Hsolid Hne]. split; [exact Hsolid|].
      apply orb_false_iff in Hadd as [_ Hcount].
      apply bool_decide_eq_false_1 in Hcount.
      assert (countTestCases t_ = 0) as -> by (destruct (countTestCases t_); [done|by destruct Hcount]).
      exact Hne.
Qed.

Lemma TestNode_init_solid (t : UnitTest) :
  ∀ n evs, TestNode_init t = Ok (n, evs) →
    isinstance_TestCase t || bool_decide (countTestCases t ≠ 0) = true →
    solid n = true.
Proof.
  induction t as [c m meth s run|c m s tests IH] using UnitTest_tree_ind;
    intros n evs Hinit Hadd;
    destruct (TestNode_init_inv _ _ _ Hinit) as (cs & evs0 & Hcs & Ht & Hch);
    rewrite solid_unfold, Ht, Hch.
  - injection Hcs as <- <-. reflexivity.
  - destruct (add_children_solid tests IH cs evs0 Hcs) as [Hsolid Hne].
    simpl in Hadd. apply bool_decide_eq_true_1 in Hadd.
    destruct cs as [|c0 cs0]; [by destruct (Hne Hadd)|]. exact Hsolid.
Qed.

Lemma TestNode_init_well_formed (t : UnitTest) (n : TestNode) (evs : list Event) :
  TestNode_init t = Ok (n, evs) → well_formed n = true.
Proof.
  intros Hinit. unfold well_formed.
  destruct (isinstance_TestCase t || bool_decide (countTestCases t ≠ 0)) eqn:Hadd.
  - by rewrite (TestNode_init_solid t n evs Hinit Hadd).
  - destruct (TestNode_init_inv _ _ _ Hinit) as (cs & evs0 & Hcs & Ht & Hch).
    apply orb_false_iff in Hadd as [Hcase Hcount].
    apply bool_decide_eq_false_1 in Hcount.
    destruct t as [|c m s tests]; [discriminate|]. rewrite Ht, Hch. simpl.
    destruct cs as [|c0 cs0]; [apply orb_true_r|].
    rewrite solid_unfold, Ht, Hch. simpl.
    assert (Forall (fun t_ => ∀ n evs, TestNode_init t_ = Ok (n, evs) →
              isinstance_TestCase t_ || bool_decide (countTestCases t_ ≠ 0) = true →
              solid n = true) tests) as Hall.
    { apply Forall_forall. intros t_ _. apply TestNode_init_solid. }
    destruct (add_children_solid tests Hall _ _ Hcs) as [Hsolid _].
    simpl in Hsolid. by rewrite Hsolid.
Qed.

Section ModifyShape.
Variable f : TestNode → TestNode.
Hypothesis f_test : ∀ x, test (f x) = test x.
Hypothesis f_children : ∀ x, children (f x) = children x.

Lemma forallb_alter (g : TestNode → TestNode) (p : TestNode → bool)
    (row : nat) (cs : list TestNode) :
  (∀ x, p (g x) = p x) → forallb p (alter g row cs) = forallb p cs.
Proof.
  intros Hg. revert row. induction cs as [|c cs IH]; intros [|row]; simpl;
    rewrite ?Hg; try reflexivity.
  f_equal. apply IH.
Qed.

Lemma alter_nil_iff (g : TestNode → TestNode) (row : nat) (cs : list TestNode) :
  match alter g row cs with [] => true | _ :: _ => false end
  = match cs with [] => true | _ :: _ => false end.
Proof. destruct cs, row; reflexivity. Qed.

Lemma test_modify (rows : list nat) (n : TestNode) : test (modify f rows n) = test n.
Proof. destruct rows; simpl; [apply f_test | reflexivity]. Qed.

Lemma solid_modify (rows : list nat) (n : TestNode) : solid (modify f rows n) = solid n.
Proof.
  revert n. induction rows as [|row rows IH]; intros n; simpl.
  - by rewrite !solid_unfold, f_test, f_children.
  - rewrite !solid_unfold. simpl.
    rewrite (forallb_alter _ _ _ _ IH).
    pose proof (alter_nil_iff (modify f rows) row (children n)) as Hnil.
    destruct (alter _ row (children n)), (children n); try discriminate; reflexivity.
Qed.

Lemma well_formed_modify (rows : list nat) (n : TestNode) :
  well_formed (modify f rows n) = well_formed n.
Proof.
  unfold well_formed. rewrite solid_modify, test_modify. f_equal. f_equal.
  destruct rows as [|row rows]; simpl; [by rewrite f_children|].
  apply alter_nil_iff.
Qed.

Lemma model_inv_modify (m : TestTreeModel) (index : QModelIndex) :
  model_inv m → model_inv (with_root m (modify_at f index (root_node m))).
Proof.
  intros [Hwf Hlookup]. split; simpl.
  - unfold modify_at. by rewrite well_formed_modify.
  - eapply Forall_impl; [exact Hlookup|]. intros ref [d Hd].
    destruct (node_at_modify_at f f_test f_children index ref _ d Hd) as (d' & Hd' & _).
    by exists d'.
Qed.
End ModifyShape.

Lemma model_inv_emit (m : TestTreeModel) (index : QModelIndex) :
  model_inv m → model_inv (emit m index).
Proof. intros [Hwf Hlookup]. by split. Qed.

Lemma setData_model_inv (index : QModelIndex) :
  ∀ m rv m', setData m index rv = Ok m' → model_inv m → model_inv m'.
Proof.
  induction index as [|row p IH]; intros m rv m'; destruct rv as [|value|value|];
    cbn [setData]; try (intros [= <-]; auto using model_inv_emit; fail);
    try (cbn [internalPointer]; discriminate).
  - destruct (internalPointer m (row :: p)); [|discriminate].
    intros Hset Hinv.
    assert (model_inv (emit (with_root m (modify_at (fun node => set_status node value)
                         (row :: p) (root_node m))) (row :: p))) as Hinv1.
    { apply model_inv_emit. by apply model_inv_modify. }
    destruct p as [|row2 p2].
    + by injection Hset as <-.
    + by apply IH in Hset.
  - destruct (internalPointer m (row :: p)); [|discriminate].
    intros [= <-] Hinv. apply model_inv_emit. by apply model_inv_modify.
Qed.

(** ** The node lookup *)

Lemma dict_set_values {V} (P : V → Prop) (d : list (string * V)) (k : string) (v : V) :
  Forall P (dict_values d) → P v → Forall P (dict_values (dict_set d k v)).
Proof.
  unfold dict_values. intros Hd Hv. induction d as [|[k' v'] d IH]; simpl.
  - by repeat constructor.
  - apply Forall_cons in Hd as [Hv' Hd]. destruct (String.eqb k' k); simpl.
    + by constructor.
    + constructor; [exact Hv' | by apply IH].
Qed.

Lemma create_node_lookup_valid (root : TestNode) (node : TestNode) :
  ∀ ref lookup,
    node_at root ref = Some node →
    Forall (fun r => is_Some (node_at root r)) (dict_values lookup) →
    Forall (fun r => is_Some (node_at root r))
           (dict_values (create_node_lookup node ref lookup)).
Proof.
  induction node as [t tip st cs IH] using TestNode_tree_ind.
  intros ref lookup Hnode Hlookup. cbn [create_node_lookup children test].
  assert (∀ done rest row lookup',
            cs = done ++ rest → row = length done →
            Forall (fun r => is_Some (node_at root r)) (dict_values lookup') →
            Forall (fun r => is_Some (node_at root r))
                   (dict_values (each_child create_node_lookup rest row ref lookup')))
    as Hloop.
  { intros done rest. revert done.
    induction rest as [|c rest IHrest]; intros done row lookup' Hcs Hrow Hl; simpl.
    - exact Hl.
    - apply (IHrest (done ++ [c])).
      + by rewrite <- app_assoc.
      + rewrite length_app. simpl. lia.
      + rewrite Forall_forall in IH. apply IH.
        * rewrite Hcs. apply elem_of_app. right. left.
        * rewrite node_at_cons, Hnode. simpl. rewrite Hcs, Hrow.
          by rewrite list_lookup_middle.
        * exact Hl. }
  apply (Hloop [] cs); [reflexivity | reflexivity |].
  apply dict_set_values; [exact Hlookup | by exists (mkTestNode t tip st cs)].
Qed.

(** Every reachable model is well formed and looks up nodes of its tree. *)
Lemma reachable_model_inv (m : TestTreeModel) : reachable m → model_inv m.
Proof.
  induction 1 as [t root evs Hinit|m m' index rv _ IH Hset].
  - split; simpl.
    + by eapply TestNode_init_well_formed.
    + apply create_node_lookup_valid; [reflexivity | constructor].
  - by eapply setData_model_inv.
Qed.

(** ** Names, paths and statuses in a well-formed tree *)

Lemma forallb_lookup (p : TestNode → bool) (cs : list TestNode) (row : nat) (c : TestNode) :
  forallb p cs = true → cs !! row = Some c → p c = true.
Proof.
  intros Hall Hc. rewrite forallb_forall in Hall. apply Hall.
  apply list_elem_of_In. by eapply list_elem_of_lookup_2.
Qed.

Lemma solid_children (n : TestNode) (row : nat) (c : TestNode) :
  solid n = true → children n !! row = Some c → solid c = true.
Proof.
  rewrite solid_unfold. intros Hn Hc.
  destruct (children n) as [|c0 cs0] eqn:E; [discriminate|].
  apply andb_true_iff in Hn as [_ Hall]. by eapply forallb_lookup.
Qed.

Lemma solid_descend (rows : list nat) :
  ∀ n d, solid n = true → descend n rows = Some d → solid d = true.
Proof.
  induction rows as [|row rows IH]; intros n d Hn; simpl.
  - by intros [= <-].
  - destruct (children n !! row) as [c|] eqn:Hc; simpl; [|discriminate].
    apply IH. by eapply solid_children.
Qed.

Lemma well_formed_node (root d : TestNode) (ref : NodeRef) :
  well_formed root = true → node_at root ref = Some d →
  ref ≠ [] ∨ isinstance_TestCase (test d) = true →
  solid d = true.
Proof.
  unfold well_formed, node_at. intros [Hsolid|Hempty]%orb_true_iff Hd Hwhich.
  - by eapply solid_descend.
  - apply andb_true_iff in Hempty as [Hsuite Hnil].
    destruct (children root) as [|c0 cs0] eqn:E; [|discriminate].
    destruct (reverse ref) as [|row rows] eqn:Hrev; simpl in Hd.
    + injection Hd as <-. destruct Hwhich as [Hne|Hcase].
      * apply (f_equal reverse) in Hrev. rewrite reverse_involutive in Hrev.
        contradiction.
      * destruct (test root); discriminate.
    + rewrite E in Hd. discriminate.
Qed.

Lemma child_0 (n : TestNode) : child n 0 = children n !! 0%nat.
Proof. reflexivity. Qed.

Lemma solid_case_leaf (n : TestNode) :
  solid n = true → isinstance_TestCase (test n) = true → children n = [].
Proof.
  rewrite solid_unfold. destruct (children n); [reflexivity|].
  destruct (test n); simpl; discriminate.
Qed.

Lemma solid_suite_child (n : TestNode) :
  solid n = true → isinstance_TestCase (test n) = false →
  ∃ c0, children n !! 0%nat = Some c0 ∧ solid c0 = true.
Proof.
  intros Hn Hsuite. pose proof Hn as Hn'. rewrite solid_unfold in Hn'.
  destruct (children n) as [|c0 cs0] eqn:E; [congruence|].
  exists c0. split; [reflexivity|]. apply (solid_children n 0 c0 Hn). by rewrite E.
Qed.

Lemma name_solid (n : TestNode) : solid n = true → ∃ nm, name n = Ok nm.
Proof.
  intros Hn. unfold name. destruct (test n) as [c m meth s run|c m s tests] eqn:Ht.
  - by eexists.
  - destruct (solid_suite_child n Hn) as (c0 & Hc0 & Hs0); [by rewrite Ht|].
    rewrite child_0, Hc0.
    destruct (isinstance_TestCase (test c0)) eqn:Hcase0; [by eexists|].
    destruct (solid_suite_child c0 Hs0 Hcase0) as (c00 & Hc00 & _).
    rewrite child_0, Hc00. by eexists.
Qed.

Lemma get_status_case_leaf (n : TestNode) :
  isinstance_TestCase (test n) = true → children n = [] →
  ∃ st, get_status n = Ok st.
Proof.
  intros Hcase Hleaf. rewrite get_status_unfold, Hleaf.
  unfold is_import_failure, name. destruct (test n); [|discriminate]. simpl.
  destruct (bool_decide _); by eexists.
Qed.

Lemma path_ok (root : TestNode) (ref : NodeRef) :
  well_formed root = true →
  ∀ d, node_at root ref = Some d →
       ref ≠ [] ∨ isinstance_TestCase (test d) = true →
       ∃ p, path root ref = Ok p.
Proof.
  intros Hwf. induction ref as [|row parent_ref IH]; intros d Hd Hwhich.
  - cbn [path]. rewrite Hd. by apply name_solid, (well_formed_node root d []).
  - cbn [path]. rewrite Hd.
    destruct (name_solid d) as [nm Hnm].
    { apply (well_formed_node root d (row :: parent_ref)); auto. }
    destruct parent_ref as [|row2 ref2]; [by eexists|].
    rewrite node_at_cons in Hd.
    destruct (node_at root (row2 :: ref2)) as [parent|] eqn:Hparent; [|discriminate].
    destruct (IH parent eq_refl) as [pp Hpp]; [by left|].
    rewrite Hpp, Hnm. by eexists.
Qed.

(** ** The "run failed" action *)

Lemma failed_test_paths_spec (m : TestTreeModel) (refs : list NodeRef) :
  well_formed (root_node m) = true →
  Forall (fun ref => is_Some (node_at (root_node m) ref)) refs →
  ∃ paths,
    failed_test_paths m refs = Ok paths ∧
    Forall2 (fun ref p => path (root_node m) ref = Ok p)
            (filter (is_failed_leaf m) refs) paths.
Proof.
  intros Hwf. induction 1 as [|ref refs [node Hnode] _ (paths & Hpaths & Hall)].
  - exists []. split; [reflexivity | constructor].
  - cbn [failed_test_paths]. rewrite Hnode.
    assert (is_failed_leaf m ref =
              isinstance_TestCase (test node) &&
              match children node with [] => true | _ :: _ => false end &&
              match get_status node with Ok fail | Ok error => true | _ => false end)
      as Hsel by (unfold is_failed_leaf; by rewrite Hnode).
    destruct (isinstance_TestCase (test node)) eqn:Hcase.
    + assert (solid node = true) as Hsolid
        by (apply (well_formed_node _ node ref Hwf Hnode); by right).
      pose proof (solid_case_leaf node Hsolid Hcase) as Hleaf.
      destruct (get_status_case_leaf node Hcase Hleaf) as [st Hst].
      destruct (path_ok _ ref Hwf node Hnode) as [p Hp]; [by right|].
      rewrite Hst, Hleaf in Hsel. rewrite Hst. simpl.
      destruct st; simpl in *;
        rewrite ?Hp, ?Hpaths; simpl;
        solve
          [ exists paths; split; [reflexivity|];
            rewrite filter_cons_False by (rewrite Hsel; auto); exact Hall
          | exists (p :: paths); split; [reflexivity|];
            rewrite filter_cons_True by (by rewrite Hsel); by constructor ].
    + exists paths. split; [exact Hpaths|].
      rewrite filter_cons_False by (rewrite Hsel; auto). exact Hall.
Qed.

(** C7. In every model the dialog can hold, the "run failed" action asks
    [get_tests] for the paths of exactly those nodes of the node lookup that
    are test cases without children whose status is fail or error, one call
    for each, in the order of the lookup; no node with another status is
    asked for. *)
Theorem run_failed_selects_failed_leaf_cases (m : TestTreeModel) :
  reachable m →
  ∃ paths,
    run_failed_tests m = Ok paths ∧
    Forall2 (fun ref p => path (root_node m) ref = Ok p)
            (filter (is_failed_leaf m) (dict_values (node_lookup m))) paths ∧
    (∀ ref node st,
       node_at (root_node m) ref = Some node → get_status node = Ok st →
       st ∈ [not_run; success; skipped] → is_failed_leaf m ref = false).
Proof.
  intros [Hwf Hlookup]%reachable_model_inv.
  destruct (failed_test_paths_spec m _ Hwf Hlookup) as (paths & Hpaths & Hall).
  exists paths. split; [exact Hpaths|]. split; [exact Hall|].
  intros ref node st Hnode Hst Hin. unfold is_failed_leaf. rewrite Hnode, Hst.
  rewrite andb_false_iff. right.
  repeat (apply elem_of_cons in Hin as [->|Hin]; [reflexivity|]).
  by apply elem_of_nil in Hin.
Qed.

Lemma failed_sphere_model_reachable : reachable failed_sphere_model.
Proof.
  apply (reachable_setData (TestTreeModel_init sphere_tree) _ [0; 0; 0]
           (DecorationRole fail)).
  - apply (reachable_init sphere_discovery sphere_tree []). reflexivity.
  - reflexivity.
Defined.

Lemma run_failed_selects_failed_leaf_cases_witness :
  ∃ paths,
    run_failed_tests failed_sphere_model = Ok paths ∧
    Forall2 (fun ref p => path (root_node failed_sphere_model) ref = Ok p)
            (filter (is_failed_leaf failed_sphere_model)
                    (dict_values (node_lookup failed_sphere_model))) paths.
Proof.
  destruct (run_failed_selects_failed_leaf_cases failed_sphere_model
              failed_sphere_model_reachable) as (paths & Hrun & Hall & _).
  exists paths. split; [exact Hrun | exact Hall].
Defined.

(** The action on the sample model asks for the one failed test. *)
Example run_failed_tests_sphere :
  run_failed_tests failed_sphere_model = Ok ["test_sphere.SphereTests.test_radius"].
Proof. reflexivity. Qed.


(** ** The status of a whole tree *)

Lemma priority_merge_error (ss : list TestStatus) :
  priority_merge ss = error ↔ error ∈ ss.
Proof.
  unfold priority_merge. case_bool_decide as He; [tauto|].
  case_bool_decide as Hf; [split; [discriminate | contradiction]|].
  split; [|contradiction]. intros Hlast.
  destruct (last _) as [s|] eqn:El; simpl in Hlast; [|discriminate].
  apply last_Some_elem_of, list_elem_of_filter in El as [[?|?] _]; congruence.
Qed.

Lemma priority_merge_fail (ss : list TestStatus) :
  priority_merge ss = fail ↔ (error ∉ ss) ∧ fail ∈ ss.
Proof.
  unfold priority_merge. case_bool_decide as He; [split; [discriminate | tauto]|].
  case_bool_decide as Hf; [tauto|].
  split; [|tauto]. intros Hlast.
  destruct (last _) as [s|] eqn:El; simpl in Hlast; [|discriminate].
  apply last_Some_elem_of, list_elem_of_filter in El as [[?|?] _]; congruence.
Qed.

Lemma priority_merge_not_run (ss : list TestStatus) :
  priority_merge ss = not_run ↔ Forall (fun s => s = not_run) ss.
Proof.
  unfold priority_merge. rewrite Forall_forall. split.
  - case_bool_decide as He; [discriminate|].
    case_bool_decide as Hf; [discriminate|].
    intros Hlast s Hs.
    destruct (last (filter (fun s => s = success ∨ s = skipped) ss)) as [y|] eqn:El.
    + simpl in Hlast. subst y.
      apply last_Some_elem_of, list_elem_of_filter in El as [[?|?] _]; discriminate.
    + apply last_None in El.
      assert (s ∉ filter (fun s => s = success ∨ s = skipped) ss) as Hnot
        by (rewrite El; apply not_elem_of_nil).
      rewrite list_elem_of_filter in Hnot.
      destruct s; try reflexivity; try contradiction; exfalso; apply Hnot; auto.
  - intros Hall.
    rewrite bool_decide_eq_false_2 by (intros H%Hall; discriminate).
    rewrite bool_decide_eq_false_2 by (intros H%Hall; discriminate).
    destruct (last _) as [s|] eqn:El; [|reflexivity]. simpl.
    apply last_Some_elem_of, list_elem_of_filter in El as [_ ?%Hall]. done.
Qed.

Lemma Forall_exists_Forall2 {A B} (R : A → B → Prop) (l : list A) :
  Forall (fun a => ∃ b, R a b) l → ∃ k, Forall2 R l k.
Proof.
  induction 1 as [|a l [b Hb] _ [k Hk]]; [by exists [] | exists (b :: k); by constructor].
Qed.

(** What the statuses of the children say about the leaves below them, given
    what each status says about the leaves below its child. *)
Section ChildrenStatuses.
Variables (E F N : TestNode → bool).

Lemma error_among_children (cs : list TestNode) (ss : list TestStatus) :
  Forall2 (status_reads E F N) cs ss → (error ∈ ss ↔ existsb E cs = true).
Proof.
  induction 1 as [|c s cs ss (He & _ & _) _ IH]; simpl.
  - split; [intros []%elem_of_nil | discriminate].
  - rewrite elem_of_cons, orb_true_iff, <- IH, <- He. split; intros [?|?]; auto.
Qed.

Lemma fail_among_children (cs : list TestNode) (ss : list TestStatus) :
  Forall2 (status_reads E F N) cs ss →
  ((error ∉ ss) ∧ fail ∈ ss ↔ existsb E cs = false ∧ existsb F cs = true).
Proof.
  intros H. pose proof (error_among_children cs ss H) as Herr.
  assert (error ∉ ss ↔ existsb E cs = false) as Hno.
  { rewrite Herr. destruct (existsb E cs); split; congruence. }
  rewrite Hno. split; intros [HE Hf]; (split; [exact HE|]); clear Herr Hno.
  - induction H as [|c s cs ss (_ & Hfail & _) _ IH]; simpl in *.
    + by apply elem_of_nil in Hf.
    + apply orb_false_iff in HE as [HEc HEcs].
      apply elem_of_cons in Hf as [<-|Hf].
      * destruct Hfail as [[_ ->] _]; auto.
      * rewrite (IH HEcs Hf). apply orb_true_r.
  - induction H as [|c s cs ss (_ & Hfail & _) _ IH]; simpl in *; [discriminate|].
    apply orb_false_iff in HE as [HEc HEcs].
    apply orb_true_iff in Hf as [HFc|HFcs].
    + assert (s = fail) as -> by (apply Hfail; auto). left.
    + right. by apply IH.
Qed.

Lemma not_run_among_children (cs : list TestNode) (ss : list TestStatus) :
  Forall2 (status_reads E F N) cs ss →
  (Forall (fun s => s = not_run) ss ↔ forallb N cs = true).
Proof.
  induction 1 as [|c s cs ss (_ & _ & Hn) _ IH]; simpl.
  - split; [reflexivity | constructor].
  - rewrite Forall_cons, andb_true_iff, <- IH, <- Hn. tauto.
Qed.
End ChildrenStatuses.

Lemma any_leaf_unfold (p : TestNode → bool) (n : TestNode) :
  any_leaf p n = match children n with
                 | [] => p n
                 | _ :: _ => existsb (any_leaf p) (children n)
                 end.
Proof. destruct n; reflexivity. Qed.

Lemma all_leaves_unfold (p : TestNode → bool) (n : TestNode) :
  all_leaves p n = match children n with
                   | [] => p n
                   | _ :: _ => forallb (all_leaves p) (children n)
                   end.
Proof. destruct n; reflexivity. Qed.

(** X1. In a tree where the guard of [get_status] flags no node, the status
    of the root is error exactly when some leaf has the status error; it is
    fail exactly when no leaf has error and some leaf has fail; and it is
    not-run exactly when every leaf is not-run. *)
Theorem tree_status_follows_the_leaves (root : TestNode) :
  all_nodes not_import_failure root = true →
  ∃ s, get_status root = Ok s ∧
       (s = error ↔ any_leaf (has_status error) root = true) ∧
       (s = fail ↔ any_leaf (has_status error) root = false ∧
                   any_leaf (has_status fail) root = true) ∧
       (s = not_run ↔ all_leaves (has_status not_run) root = true).
Proof.
  induction root as [t tip st cs IH] using TestNode_tree_ind.
  rewrite all_nodes_unfold. simpl children.
  intros [Hflag Hflags]%andb_true_iff.
  rewrite get_status_unfold, !any_leaf_unfold, all_leaves_unfold.
  unfold not_import_failure in Hflag.
  destruct (is_import_failure _) as [[|]|]; try discriminate. simpl.
  destruct cs as [|c cs'].
  - exists st. split; [reflexivity|]. unfold has_status. simpl.
    destruct st; repeat split; intros; try done; destruct_and?; done.
  - set (cs := c :: cs') in *.
    assert (∃ ss, Forall2 (fun c s => get_status c = Ok s ∧
                     status_reads (any_leaf (has_status error)) (any_leaf (has_status fail))
                                  (all_leaves (has_status not_run)) c s) cs ss) as [ss Hss].
    { apply Forall_exists_Forall2.
      rewrite forallb_forall in Hflags. rewrite Forall_forall in IH |- *.
      intros x Hx. destruct (IH x Hx) as (s & Hs & Hreads).
      - apply Hflags. by apply list_elem_of_In.
      - by exists s. }
    exists (priority_merge ss). split.
    + rewrite (status_loop_merge get_status cs ss).
      * unfold priority_merge. simpl. by rewrite orb_false_r.
      * eapply Forall2_impl; [exact Hss|]. by intros ?? [? _].
    + assert (Forall2 (status_reads (any_leaf (has_status error))
                (any_leaf (has_status fail)) (all_leaves (has_status not_run))) cs ss)
        as Hreads by (eapply Forall2_impl; [exact Hss|]; by intros ?? [_ ?]).
      rewrite priority_merge_error, priority_merge_fail, priority_merge_not_run.
      split; [|split].
      * by eapply error_among_children.
      * by eapply fail_among_children.
      * by eapply not_run_among_children.
Qed.

Lemma tree_status_follows_the_leaves_witness : get_status mixed_tree = Ok fail.
Proof.
  destruct (tree_status_follows_the_leaves mixed_tree eq_refl) as (s & Hs & _ & Hfail & _).
  rewrite Hs. f_equal. apply Hfail. split; reflexivity.
Defined.


(** ** More about [setData] *)

Lemma same_leaf_same_guard (d d' : TestNode) :
  test d' = test d → children d = [] → children d' = [] →
  is_import_failure d' = is_import_failure d.
Proof.
  intros Ht Hd Hd'. unfold is_import_failure, name, child. by rewrite Ht, Hd, Hd'.
Qed.

(** X2. Storing a status at the index of a node without children makes
    [get_status] of that node report it, unless the guard flags the node as
    an import failure, in which case the node keeps reporting error. *)
Theorem setData_decoration_shows_on_leaf (value : TestStatus) (index : QModelIndex)
    (m : TestTreeModel) (node : TestNode) :
  internalPointer m index = Some node → children node = [] →
  ∃ m' d',
    setData m index (DecorationRole value) = Ok m' ∧
    internalPointer m' index = Some d' ∧
    get_status d' =
      (flagged ← is_import_failure node; Ok (if flagged : bool then error else value)).
Proof.
  intros Hptr Hleaf.
  destruct (setData_decoration value index m node Hptr) as (m' & Hm' & _ & Hall).
  destruct index as [|row p]; [discriminate|]. cbn [internalPointer] in *.
  destruct (Hall (row :: p) node Hptr) as (d' & Hd' & (Ht & _ & Hlen) & Hst).
  exists m', d'. split; [exact Hm'|]. split; [exact Hd'|].
  rewrite bool_decide_eq_true_2 in Hst by (split; [discriminate | reflexivity]).
  assert (children d' = []) as Hleaf'.
  { rewrite Hleaf in Hlen. by destruct (children d'). }
  rewrite get_status_unfold, Hleaf', Hst.
  rewrite (same_leaf_same_guard node d' Ht Hleaf Hleaf').
  by destruct (is_import_failure node) as [[|]|].
Qed.

Lemma setData_decoration_shows_on_leaf_witness :
  ∃ m' d',
    setData (TestTreeModel_init sphere_tree) [1; 0; 0] (DecorationRole skipped) = Ok m' ∧
    internalPointer m' [1; 0; 0] = Some d' ∧
    get_status d' = Ok skipped.
Proof.
  destruct (setData_decoration_shows_on_leaf skipped [1; 0; 0]
              (TestTreeModel_init sphere_tree)
              (default two_leaves (node_at sphere_tree [1; 0; 0])) eq_refl eq_refl)
    as (m' & d' & Hm' & Hd' & Hst).
  exists m', d'. split; [exact Hm'|]. split; [exact Hd' | exact Hst].
Defined.

Lemma node_at_parent (root : TestNode) (row : nat) (p : NodeRef) (d : TestNode) :
  node_at root (row :: p) = Some d → ∃ parent, node_at root p = Some parent.
Proof.
  rewrite node_at_cons. destruct (node_at root p) as [parent|]; [by eexists | discriminate].
Qed.

(** X3. [setData] with the decoration role emits [dataChanged] once for the
    indexed node and once for each node above it except the root, from the
    node upwards; the root is never announced. *)
Theorem setData_decoration_emits_the_chain (value : TestStatus) (index : QModelIndex) :
  ∀ (m : TestTreeModel) (node : TestNode),
    internalPointer m index = Some node →
    ∃ m', setData m index (DecorationRole value) = Ok m' ∧
          dataChanged m' = dataChanged m ++ index_chain index ∧
          [] ∉ index_chain index.
Proof.
  induction index as [|row p IH]; intros m node Hptr; [discriminate|].
  cbn [setData]. rewrite Hptr. cbn [internalPointer] in Hptr.
  destruct p as [|row2 p2].
  - eexists. split; [reflexivity|]. split; [reflexivity|].
    simpl. intros [?|[]%elem_of_nil]%elem_of_cons. discriminate.
  - set (p := row2 :: p2) in *.
    destruct (node_at_parent _ _ _ _ Hptr) as [parent Hparent].
    destruct (set_status_at value (row :: p) p (root_node m) parent Hparent)
      as (parent1 & Hparent1 & _ & _).
    destruct (IH (emit (with_root m (modify_at (fun node => set_status node value)
                                        (row :: p) (root_node m))) (row :: p)) parent1)
      as (m' & Hm' & Hemit & Hno); [exact Hparent1|].
    exists m'. split; [exact Hm'|]. split.
    + rewrite Hemit. cbn [dataChanged emit index_chain]. by rewrite <- app_assoc.
    + cbn [index_chain]. intros [?|?]%elem_of_cons; [discriminate | contradiction].
Qed.

Lemma setData_decoration_emits_the_chain_witness :
  ∃ m', setData (TestTreeModel_init sphere_tree) [1; 0; 0] (DecorationRole fail) = Ok m' ∧
        dataChanged m' = [[1; 0; 0]; [0; 0]; [0]].
Proof.
  destruct (setData_decoration_emits_the_chain fail [1; 0; 0]
              (TestTreeModel_init sphere_tree)
              (default two_leaves (node_at sphere_tree [1; 0; 0])) eq_refl)
    as (m' & Hm' & Hemit & _).
  exists m'. split; [exact Hm' | exact Hemit].
Defined.

(** *** Changes that touch neither tests, children nor statuses *)
Section ModifyKeepsStatus.
Variable f : TestNode → TestNode.
Hypothesis f_test : ∀ x, test (f x) = test x.
Hypothesis f_children : ∀ x, children (f x) = children x.
Hypothesis f_status : ∀ x, status (f x) = status x.

Lemma first_child_test_modify (rows : list nat) (n : TestNode) :
  test <$> child (modify f rows n) 0 = test <$> child n 0.
Proof.
  rewrite !child_0. destruct rows as [|row rows]; simpl; [by rewrite f_children|].
  destruct row as [|row].
  - rewrite list_lookup_alter_eq. destruct (children n !! 0%nat); simpl; [|reflexivity].
    by rewrite (test_modify f f_test).
  - by rewrite list_lookup_alter_ne.
Qed.

Lemma first_grandchild_test_modify (rows : list nat) (n : TestNode) :
  (child (modify f rows n) 0 ≫= fun c0 => test <$> child c0 0)
  = (child n 0 ≫= fun c0 => test <$> child c0 0).
Proof.
  rewrite !child_0. destruct rows as [|row rows]; simpl; [by rewrite f_children|].
  destruct row as [|row].
  - rewrite list_lookup_alter_eq. destruct (children n !! 0%nat); simpl; [|reflexivity].
    apply first_child_test_modify.
  - by rewrite list_lookup_alter_ne.
Qed.

Lemma name_by_first_tests (n n' : TestNode) :
  test n' = test n →
  test <$> child n' 0 = test <$> child n 0 →
  (child n' 0 ≫= fun c0 => test <$> child c0 0) = (child n 0 ≫= fun c0 => test <$> child c0 0) →
  name n' = name n.
Proof.
  unfold name. intros -> H1 H2. destruct (test n); [reflexivity|].
  destruct (child n' 0) as [c0'|], (child n 0) as [c0|]; simpl in *; try discriminate;
    [|reflexivity].
  injection H1 as ->. destruct (isinstance_TestCase (test c0)); [reflexivity|].
  destruct (child c0' 0) as [c00'|], (child c0 0) as [c00|]; simpl in *; try discriminate;
    [|reflexivity].
  by injection H2 as ->.
Qed.

Lemma name_modify (rows : list nat) (n : TestNode) : name (modify f rows n) = name n.
Proof.
  apply name_by_first_tests.
  - apply (test_modify f f_test).
  - apply first_child_test_modify.
  - apply first_grandchild_test_modify.
Qed.

Lemma status_loop_alter (g : TestNode → TestNode) (row : nat) (cs : list TestNode)
    (r : TestStatus) :
  (∀ x, get_status (g x) = get_status x) →
  status_loop get_status (alter g row cs) r = status_loop get_status cs r.
Proof.
  intros Hg. revert row r. induction cs as [|c cs IH]; intros [|row] r; simpl;
    rewrite ?Hg; try reflexivity.
  destruct (get_status c) as [s|]; simpl; [|reflexivity].
  destruct (merge_step r s); [apply IH | reflexivity].
Qed.

Lemma get_status_modify (rows : list nat) :
  ∀ n, get_status (modify f rows n) = get_status n.
Proof.
  induction rows as [|row rows IH]; intros n.
  - pose proof (name_modify [] n) as Hname. simpl in *.
    rewrite !get_status_unfold. unfold is_import_failure.
    rewrite Hname, f_test, f_children, f_status. reflexivity.
  - rewrite !get_status_unfold. unfold is_import_failure.
    rewrite name_modify, (test_modify f f_test). simpl.
    rewrite (status_loop_alter _ _ _ _ IH).
    pose proof (alter_nil_iff (modify f rows) row (children n)) as Hnil.
    destruct (alter _ row (children n)), (children n); try discriminate; reflexivity.
Qed.

(** The node found at a position after the change is the node that was
    there, changed at most inside. *)
Lemma descend_modify_inside (rows rows' : list nat) (n d : TestNode) :
  descend n rows' = Some d →
  ∃ rest, descend (modify f rows n) rows' = Some (modify f rest d) ∨
          descend (modify f rows n) rows' = Some d.
Proof.
  revert rows n. induction rows' as [|r' t' IH]; intros rows n; simpl.
  - intros [= <-]. exists rows. by left.
  - destruct (children n !! r') as [c|] eqn:Hc; simpl; [|discriminate].
    intros Hd. destruct rows as [|r t]; simpl.
    + rewrite f_children, Hc. simpl. exists []. by right.
    + destruct (decide (r = r')) as [->|Hne].
      * rewrite list_lookup_alter_eq, Hc. simpl. by apply IH.
      * rewrite list_lookup_alter_ne, Hc by exact Hne. simpl. exists []. by right.
Qed.

Lemma get_status_at_modify (index ref : NodeRef) (root d : TestNode) :
  node_at root ref = Some d →
  ∃ d', node_at (modify_at f index root) ref = Some d' ∧ get_status d' = get_status d.
Proof.
  intros Hd. unfold node_at, modify_at in *.
  destruct (descend_modify_inside (reverse index) (reverse ref) root d Hd) as [rest [H|H]].
  - eexists. split; [exact H | apply get_status_modify].
  - by exists d.
Qed.
End ModifyKeepsStatus.

(** X4. [setData] with the tooltip role stores the text as the tooltip of
    the indexed node only, emits [dataChanged] for that index once, and
    changes the status field and the reported status of no node. *)
Theorem setData_tooltip_changes_no_status (value : string) (index : QModelIndex)
    (m : TestTreeModel) (node : TestNode) :
  internalPointer m index = Some node →
  ∃ m', setData m index (ToolTipRole value) = Ok m' ∧
        dataChanged m' = dataChanged m ++ [index] ∧
        ∀ ref d, node_at (root_node m) ref = Some d →
          ∃ d', node_at (root_node m') ref = Some d' ∧
                tool_tip d' = (if bool_decide (ref = index) then value else tool_tip d) ∧
                status d' = status d ∧
                get_status d' = get_status d.
Proof.
  intros Hptr. destruct index as [|row p]; [discriminate|].
  cbn [setData]. rewrite Hptr.
  eexists. split; [reflexivity|]. split; [reflexivity|].
  intros ref d Hd. cbn [root_node emit with_root].
  destruct (node_at_modify_at (fun node => set_tool_tip node value)
              (fun _ => eq_refl) (fun _ => eq_refl) (row :: p) ref _ d Hd)
    as (d' & Hd' & _ & _ & Heq & Hneq).
  destruct (get_status_at_modify (fun node => set_tool_tip node value)
              (fun _ => eq_refl) (fun _ => eq_refl) (fun _ => eq_refl) (row :: p) ref _ d Hd)
    as (d'' & Hd'' & Hget).
  rewrite Hd' in Hd''. injection Hd'' as <-.
  exists d'. split; [exact Hd'|]. case_bool_decide as Hri.
  - repeat split; [by rewrite (Heq Hri) | by rewrite (Heq Hri) | exact Hget].
  - destruct (Hneq Hri) as [Hs Htip]. by repeat split.
Qed.

Lemma setData_tooltip_changes_no_status_witness :
  ∃ m', setData (TestTreeModel_init sphere_tree) [0; 0; 0] (ToolTipRole "Test Passed") = Ok m' ∧
        dataChanged m' = [[0; 0; 0]].
Proof.
  destruct (setData_tooltip_changes_no_status "Test Passed" [0; 0; 0]
              (TestTreeModel_init sphere_tree)
              (default two_leaves (node_at sphere_tree [0; 0; 0])) eq_refl)
    as (m' & Hm' & Hemit & _).
  exists m'. split; [exact Hm' | exact Hemit].
Defined.


(** ** Indexes *)

Lemma child_of_nat (n : TestNode) (row : nat) : child n (Z.of_nat row) = children n !! row.
Proof.
  unfold child, py_getitem.
  destruct (Z.leb_spec 0 (Z.of_nat row)) as [_|Hneg]; [|lia]. by rewrite Nat2Z.id.
Qed.

Lemma parent_node_of_node_at (m : TestTreeModel) (parent : QModelIndex) :
  parent_node_of m parent = node_at (root_node m) parent.
Proof. destruct parent; reflexivity. Qed.

Lemma index_parent_node (m : TestTreeModel) (row : Z) (parent : QModelIndex) :
  index m row parent =
    match node_at (root_node m) parent with
    | Some parent_node =>
        match child parent_node row with
        | Some _ => child_position parent_node row :: parent
        | None => []
        end
    | None => []
    end.
Proof.
  unfold index. change (if isValid parent then _ else _) with (parent_node_of m parent).
  by rewrite parent_node_of_node_at.
Qed.

Lemma index_child (m : TestTreeModel) (row : nat) (parent : QModelIndex) :
  index m (Z.of_nat row) parent =
    match node_at (root_node m) parent ≫= fun p => children p !! row with
    | Some _ => row :: parent
    | None => []
    end.
Proof.
  rewrite index_parent_node.
  destruct (node_at (root_node m) parent) as [p|]; simpl; [|reflexivity].
  rewrite child_of_nat. unfold child_position.
  assert ((0 <=? Z.of_nat row)%Z = true) as -> by (apply Z.leb_le; lia).
  by rewrite Nat2Z.id.
Qed.

Lemma get_index_of_node_valid (m : TestTreeModel) (ref : NodeRef) (d : TestNode) :
  node_at (root_node m) ref = Some d → get_index_of_node m ref = ref.
Proof.
  revert d. induction ref as [|row p IH]; intros d Hd; [reflexivity|].
  cbn [get_index_of_node]. rewrite node_at_cons in Hd.
  destruct (node_at (root_node m) p) as [parent|] eqn:Hparent; [|discriminate].
  rewrite (IH parent eq_refl), index_child, Hparent. simpl in *. by rewrite Hd.
Qed.

(** X5. For every node of the tree, [get_index_of_node] returns the index
    whose [internalPointer] is that node; for the root it returns the invalid
    index. *)
Theorem get_index_of_node_finds_the_node (m : TestTreeModel) (ref : NodeRef) (d : TestNode) :
  node_at (root_node m) ref = Some d →
  get_index_of_node m ref = ref ∧
  (ref = [] → isValid (get_index_of_node m ref) = false) ∧
  (ref ≠ [] → internalPointer m (get_index_of_node m ref) = Some d).
Proof.
  intros Hd. rewrite (get_index_of_node_valid m ref d Hd).
  split; [reflexivity|]. split; [by intros -> |].
  intros Hne. destruct ref; [contradiction | exact Hd].
Qed.

Lemma get_index_of_node_finds_the_node_witness :
  internalPointer (TestTreeModel_init sphere_tree)
    (get_index_of_node (TestTreeModel_init sphere_tree) [1; 0; 0])
  = node_at sphere_tree [1; 0; 0].
Proof.
  apply (proj2 (proj2 (get_index_of_node_finds_the_node (TestTreeModel_init sphere_tree)
                         [1; 0; 0] (default two_leaves (node_at sphere_tree [1; 0; 0]))
                         eq_refl))).
  discriminate.
Defined.

(** X6. Under a parent index that is invalid (the root) or points to a node,
    [rowCount] is the number of children of that node.  [index] of a row from
    0 to below that number is a valid index that points to the child at that
    row and whose [parent] is the parent index again.  [index] of a negative
    row down to minus that number is, as Python's list indexing has it, an
    index that points to the child counted from the end, and its [parent] is
    the parent index too.  [index] of any row outside both ranges is the
    invalid index. *)
Theorem index_parent_round_trip (m : TestTreeModel) (parent : QModelIndex)
    (parent_node : TestNode) (row : Z) :
  parent_node_of m parent = Some parent_node →
  rowCount m parent = Ok (child_count parent_node) ∧
  ((0 ≤ row < Z.of_nat (child_count parent_node))%Z →
     index m row parent = Z.to_nat row :: parent ∧
     internalPointer m (index m row parent) = children parent_node !! Z.to_nat row ∧
     is_Some (internalPointer m (index m row parent)) ∧
     TestTreeModel_parent m (index m row parent) = Ok parent) ∧
  ((- Z.of_nat (child_count parent_node) ≤ row < 0)%Z →
     internalPointer m (index m row parent)
     = children parent_node !! Z.to_nat (Z.of_nat (child_count parent_node) + row) ∧
     is_Some (internalPointer m (index m row parent)) ∧
     TestTreeModel_parent m (index m row parent) = Ok parent) ∧
  ((Z.of_nat (child_count parent_node) ≤ row ∨
    row < - Z.of_nat (child_count parent_node))%Z →
     index m row parent = []).
Proof.
  intros Hp. split; [|split; [|split]].
  - unfold rowCount, parent_node_of in *. destruct (isValid parent).
    + by rewrite Hp.
    + by injection Hp as <-.
  - intros Hrow. rewrite parent_node_of_node_at in Hp.
    assert (Z.to_nat row < child_count parent_node)%nat as Hlt by lia.
    destruct (lookup_lt_is_Some_2 (children parent_node) _ Hlt) as [c Hc].
    rewrite index_parent_node, Hp. unfold child, py_getitem, child_position.
    assert ((0 <=? row)%Z = true) as -> by (apply Z.leb_le; lia). rewrite Hc.
    assert (internalPointer m (Z.to_nat row :: parent) = Some c) as Hptr.
    { cbn [internalPointer]. rewrite node_at_cons, Hp. exact Hc. }
    split; [reflexivity|]. split; [exact Hptr|]. split; [by rewrite Hptr|].
    unfold TestTreeModel_parent. rewrite Hptr. by destruct parent.
  - intros Hrow. rewrite parent_node_of_node_at in Hp.
    set (k := Z.to_nat (Z.of_nat (child_count parent_node) + row)).
    assert (k < child_count parent_node)%nat as Hlt by (subst k; lia).
    destruct (lookup_lt_is_Some_2 (children parent_node) _ Hlt) as [c Hc].
    rewrite index_parent_node, Hp. unfold child, py_getitem, child_position.
    assert ((0 <=? row)%Z = false) as -> by (apply Z.leb_gt; lia).
    assert ((- Z.of_nat (length (children parent_node)) <=? row)%Z = true) as ->
      by (apply Z.leb_le; unfold child_count in Hrow; lia).
    fold (child_count parent_node). fold k. rewrite Hc.
    assert (internalPointer m (k :: parent) = Some c) as Hptr.
    { cbn [internalPointer]. rewrite node_at_cons, Hp. exact Hc. }
    split; [exact Hptr|]. split; [by rewrite Hptr|].
    unfold TestTreeModel_parent. rewrite Hptr. by destruct parent.
  - intros Hrow. rewrite parent_node_of_node_at in Hp.
    rewrite index_parent_node, Hp. unfold child, py_getitem.
    unfold child_count in Hrow.
    destruct (0 <=? row)%Z eqn:Hpos.
    + apply Z.leb_le in Hpos. rewrite lookup_ge_None_2 by lia. reflexivity.
    + apply Z.leb_gt in Hpos.
      assert ((- Z.of_nat (length (children parent_node)) <=? row)%Z = false) as ->
        by (apply Z.leb_gt; lia).
      reflexivity.
Qed.

Lemma index_parent_round_trip_witness :
  index (TestTreeModel_init sphere_tree) 1 [0; 0] = [1; 0; 0] ∧
  TestTreeModel_parent (TestTreeModel_init sphere_tree)
    (index (TestTreeModel_init sphere_tree) 1 [0; 0]) = Ok [0; 0] ∧
  internalPointer (TestTreeModel_init sphere_tree)
    (index (TestTreeModel_init sphere_tree) (-1) [0; 0])
  = node_at sphere_tree [1; 0; 0] ∧
  index (TestTreeModel_init sphere_tree) 2 [0; 0] = [] ∧
  index (TestTreeModel_init sphere_tree) (-3) [0; 0] = [].
Proof.
  destruct (index_parent_round_trip (TestTreeModel_init sphere_tree) [0; 0]
              (default two_leaves (node_at sphere_tree [0; 0])) 1 eq_refl)
    as (_ & Hin & _).
  destruct (index_parent_round_trip (TestTreeModel_init sphere_tree) [0; 0]
              (default two_leaves (node_at sphere_tree [0; 0])) (-1) eq_refl)
    as (_ & _ & Hneg & _).
  destruct (index_parent_round_trip (TestTreeModel_init sphere_tree) [0; 0]
              (default two_leaves (node_at sphere_tree [0; 0])) 2 eq_refl)
    as (_ & _ & _ & Hout).
  destruct (index_parent_round_trip (TestTreeModel_init sphere_tree) [0; 0]
              (default two_leaves (node_at sphere_tree [0; 0])) (-3) eq_refl)
    as (_ & _ & _ & Hbelow).
  destruct Hin as (Hidx & _ & _ & Hpar); [vm_compute; split; [discriminate | reflexivity]|].
  destruct Hneg as (Hptr & _); [vm_compute; split; [discriminate | reflexivity]|].
  split; [exact Hidx|]. split; [exact Hpar|]. split; [exact Hptr|].
  split; [apply Hout | apply Hbelow]; vm_compute.
  - left. discriminate.
  - right. reflexivity.
Defined.


(** ** Storing the results of a run *)

Lemma setData_lookup (index : QModelIndex) :
  ∀ m rv m', setData m index rv = Ok m' → node_lookup m' = node_lookup m.
Proof.
  induction index as [|row p IH]; intros m rv m'; destruct rv as [|value|value|];
    cbn [setData]; try (intros [= <-]; reflexivity);
    try (cbn [internalPointer]; discriminate).
  - destruct (internalPointer m (row :: p)); [|discriminate].
    destruct p as [|row2 p2]; [by intros [= <-]|].
    intros Hset. by rewrite (IH _ _ _ Hset).
  - destruct (internalPointer m (row :: p)); [|discriminate]. by intros [= <-].
Qed.

(** What storing one result does: the tooltip of the node, then the status
    of the node and of the nodes above it. *)
Lemma store_one_result (m : TestTreeModel) (ref : NodeRef) (node : TestNode)
    (reason : string) (st : TestStatus) :
  ref ≠ [] → node_at (root_node m) ref = Some node →
  ∃ m1 m2,
    setData m ref (ToolTipRole reason) = Ok m1 ∧
    setData m1 ref (DecorationRole st) = Ok m2 ∧
    node_lookup m2 = node_lookup m ∧
    ∀ r d, node_at (root_node m) r = Some d →
      ∃ d', node_at (root_node m2) r = Some d' ∧
            test d' = test d ∧
            length (children d') = length (children d) ∧
            status d' = (if bool_decide (r ≠ [] ∧ r `suffix_of` ref) then st else status d) ∧
            tool_tip d' = (if bool_decide (r = ref) then reason else tool_tip d).
Proof.
  intros Hne Hnode. destruct ref as [|row p]; [contradiction|].
  set (f := fun n : TestNode => set_tool_tip n reason).
  set (m1 := emit (with_root m (modify_at f (row :: p) (root_node m))) (row :: p)).
  assert (setData m (row :: p) (ToolTipRole reason) = Ok m1) as Hm1.
  { cbn [setData internalPointer]. by rewrite Hnode. }
  destruct (node_at_modify_at f (fun _ => eq_refl) (fun _ => eq_refl) (row :: p) (row :: p)
              (root_node m) node Hnode) as (node1 & Hnode1 & _).
  destruct (setData_decoration st (row :: p) m1 node1 Hnode1) as (m2 & Hm2 & Hlookup & Hall).
  exists m1, m2. split; [exact Hm1|]. split; [exact Hm2|]. split; [exact Hlookup|].
  intros r d Hd.
  destruct (node_at_modify_at f (fun _ => eq_refl) (fun _ => eq_refl) (row :: p) r
              (root_node m) d Hd) as (d1 & Hd1 & Ht1 & Hl1 & Heq & Hneq).
  destruct (Hall r d1 Hd1) as (d2 & Hd2 & (Ht2 & Htip2 & Hl2) & Hst2).
  exists d2. split; [exact Hd2|]. split; [congruence|]. split; [congruence|].
  rewrite Hst2, Htip2. destruct (decide (r = row :: p)) as [Hr|Hr].
  - rewrite (bool_decide_eq_true_2 (r = row :: p)) by exact Hr.
    rewrite (Heq Hr). split; [|reflexivity]. unfold f. simpl.
    by destruct (bool_decide _).
  - rewrite (bool_decide_eq_false_2 (r = row :: p)) by exact Hr.
    destruct (Hneq Hr) as [-> ->]. by split.
Qed.

Lemma set_test_result_data_app (pre post : list (string * string)) (st : TestStatus) :
  ∀ m, set_test_result_data m (pre ++ post) st
       = set_test_result_data m pre st ≫= fun m1 => set_test_result_data m1 post st.
Proof.
  induction pre as [|[t reason] pre IH]; intros m; [reflexivity|].
  cbn [app set_test_result_data]. destruct (dict_get (node_lookup m) t); [|reflexivity].
  destruct (setData m _ (ToolTipRole reason)) as [m1|]; [|reflexivity]. simpl.
  destruct (setData m1 _ (DecorationRole st)) as [m2|]; [|reflexivity]. simpl.
  apply IH.
Qed.

Lemma written_cons (m : TestTreeModel) (t : string) (ref : NodeRef)
    (tests : list string) (r : NodeRef) :
  dict_get (node_lookup m) t = Some ref →
  (written m (t :: tests) r ↔ (r ≠ [] ∧ r `suffix_of` ref) ∨ written m tests r).
Proof.
  intros Ht. unfold written. split.
  - intros (t' & r' & [->|Hin]%elem_of_cons & Hr' & Hne & Hsuf).
    + left. rewrite Ht in Hr'. injection Hr' as <-. by split.
    + right. by exists t', r'.
  - intros [[Hne Hsuf]|(t' & r' & Hin & Hr' & Hne & Hsuf)].
    + exists t, ref. repeat split; try done. left.
    + exists t', r'. repeat split; try done. by right.
Qed.

Lemma written_lookup (m m' : TestTreeModel) (tests : list string) (r : NodeRef) :
  node_lookup m' = node_lookup m → (written m' tests r ↔ written m tests r).
Proof. unfold written. by intros ->. Qed.

Lemma written_dec (m : TestTreeModel) (tests : list string) (r : NodeRef) :
  written m tests r ∨ ¬ written m tests r.
Proof.
  induction tests as [|t tests [IH|IH]].
  - right. intros (t & r' & []%elem_of_nil & _).
  - left. destruct IH as (t' & r' & Hin & H). exists t', r'. split; [by right | exact H].
  - destruct (dict_get (node_lookup m) t) as [ref|] eqn:Ht.
    + destruct (decide (r ≠ [] ∧ r `suffix_of` ref)) as [Hs|Hs].
      * left. exists t, ref. split; [left|]. by split.
      * right. intros Hw. apply (written_cons m t ref tests r Ht) in Hw. tauto.
    + right. intros (t' & r' & [->|Hin]%elem_of_cons & Hr' & H).
      * congruence.
      * apply IH. by exists t', r'.
Qed.

(** Storing the results of a list of known tests with one status. *)
Lemma set_test_result_data_status (st : TestStatus) (entries : list (string * string)) :
  ∀ m, model_inv m → all_known m entries.*1 →
    ∃ m', set_test_result_data m entries st = Ok m' ∧
          node_lookup m' = node_lookup m ∧
          model_inv m' ∧
          ∀ r d, node_at (root_node m) r = Some d →
            ∃ d', node_at (root_node m') r = Some d' ∧
                  test d' = test d ∧
                  length (children d') = length (children d) ∧
                  (written m entries.*1 r → status d' = st) ∧
                  (¬ written m entries.*1 r → status d' = status d).
Proof.
  induction entries as [|[t reason] entries IH]; intros m Hinv Hknown.
  - exists m. split; [reflexivity|]. split; [reflexivity|]. split; [exact Hinv|].
    intros r d Hd. exists d. repeat split; try done.
    intros (t & r' & []%elem_of_nil & _).
  - apply Forall_cons in Hknown as [(ref & Hlook & Hne) Hknown]. simpl in Hlook.
    assert (is_Some (node_at (root_node m) ref)) as [node Hnode].
    { destruct Hinv as [_ Hvalid]. rewrite Forall_forall in Hvalid. apply Hvalid.
      unfold dict_values. clear -Hlook.
      induction (node_lookup m) as [|[k v] l IHl]; simpl in *; [discriminate|].
      destruct (String.eqb k t); [injection Hlook as ->; left | right; auto]. }
    destruct (store_one_result m ref node reason st Hne Hnode)
      as (m1 & m2 & Hm1 & Hm2 & Hlookup2 & Hall2).
    assert (model_inv m2) as Hinv2
      by (eapply setData_model_inv; [exact Hm2|]; by eapply setData_model_inv).
    destruct (IH m2 Hinv2) as (m' & Hm' & Hlookup' & Hinv' & Hall').
    { unfold all_known. by rewrite Hlookup2. }
    exists m'. split.
    { cbn [set_test_result_data]. rewrite Hlook.
      rewrite (get_index_of_node_valid m ref node Hnode), Hm1. simpl. by rewrite Hm2. }
    split; [congruence|]. split; [exact Hinv'|].
    intros r d Hd.
    destruct (Hall2 r d Hd) as (d2 & Hd2 & Ht2 & Hl2 & Hst2 & _).
    destruct (Hall' r d2 Hd2) as (d' & Hd' & Ht' & Hl' & Hw & Hnw).
    exists d'. split; [exact Hd'|]. split; [congruence|]. split; [congruence|].
    cbn [fmap list_fmap fst]. rewrite (written_cons m t ref _ r Hlook).
    rewrite (written_lookup m m2 _ r Hlookup2) in Hw, Hnw.
    split.
    + intros [Hsuf|Hwr]; [|by apply Hw].
      destruct (written_dec m entries.*1 r) as [Hwr|Hnwr]; [by apply Hw|].
      rewrite (Hnw Hnwr), Hst2. by rewrite bool_decide_eq_true_2.
    + intros Hnot. rewrite Hnw by tauto. rewrite Hst2.
      rewrite bool_decide_eq_false_2; [reflexivity | tauto].
Qed.


Lemma dict_get_values {V} (d : list (string * V)) (k : string) (v : V) :
  dict_get d k = Some v → v ∈ dict_values d.
Proof.
  unfold dict_values. induction d as [|[k' v'] d IH]; simpl; [discriminate|].
  destruct (String.eqb k' k); [intros [= ->]; left | right; auto].
Qed.

Lemma leaf_has_nothing_below (root d x : TestNode) (ref r : NodeRef) :
  node_at root ref = Some d → children d = [] →
  node_at root r = Some x → ref `suffix_of` r → r = ref.
Proof.
  intros Hd Hleaf Hx [k ->]. unfold node_at in *.
  rewrite reverse_app, descend_app, Hd in Hx. simpl in Hx.
  destruct (reverse k) as [|a l] eqn:Hk.
  - apply (f_equal reverse) in Hk. rewrite reverse_involutive in Hk. by subst k.
  - simpl in Hx. by rewrite Hleaf in Hx.
Qed.

Lemma written_leaf (m : TestTreeModel) (tests : list string) (ref : NodeRef) (d : TestNode) :
  model_inv m → all_known m tests →
  node_at (root_node m) ref = Some d → children d = [] →
  (written m tests ref ↔ hits m tests ref).
Proof.
  intros [_ Hvalid] Hknown Hd Hleaf. unfold written, hits. split.
  - intros (t & r & Hin & Hr & Hne & Hsuf). exists t. split; [exact Hin|].
    rewrite Forall_forall in Hvalid.
    destruct (Hvalid r (dict_get_values _ _ _ Hr)) as [x Hx].
    by rewrite <- (leaf_has_nothing_below _ d x ref r Hd Hleaf Hx Hsuf).
  - intros (t & Hin & Hr). exists t, ref. split; [exact Hin|]. split; [exact Hr|].
    split; [|reflexivity].
    unfold all_known in Hknown. rewrite Forall_forall in Hknown.
    destruct (Hknown t Hin) as (ref' & Hr' & Hne). congruence.
Qed.

(** X7. Storing the result of one test that the lookup knows at a node other
    than the root puts the reason into the tooltip of that node and the
    status into its status field, and leaves the tooltip of every other node
    as it was. *)
Theorem set_test_result_data_reaches_the_node (m : TestTreeModel) (t reason : string)
    (ref : NodeRef) (node : TestNode) (st : TestStatus) :
  dict_get (node_lookup m) t = Some ref → ref ≠ [] →
  node_at (root_node m) ref = Some node →
  ∃ m', set_test_result_data m [(t, reason)] st = Ok m' ∧
        (∃ d', node_at (root_node m') ref = Some d' ∧
               test d' = test node ∧ tool_tip d' = reason ∧ status d' = st) ∧
        (∀ r d, r ≠ ref → node_at (root_node m) r = Some d →
           ∃ d', node_at (root_node m') r = Some d' ∧ tool_tip d' = tool_tip d).
Proof.
  intros Hlook Hne Hnode.
  destruct (store_one_result m ref node reason st Hne Hnode)
    as (m1 & m2 & Hm1 & Hm2 & _ & Hall).
  exists m2. split; [|split].
  - cbn [set_test_result_data]. rewrite Hlook.
    rewrite (get_index_of_node_valid m ref node Hnode), Hm1. simpl. by rewrite Hm2.
  - destruct (Hall ref node Hnode) as (d' & Hd' & Ht & _ & Hst & Htip).
    exists d'. split; [exact Hd'|]. split; [exact Ht|].
    rewrite bool_decide_eq_true_2 in Htip by reflexivity.
    rewrite bool_decide_eq_true_2 in Hst by (by split). by split.
  - intros r d Hr Hd. destruct (Hall r d Hd) as (d' & Hd' & _ & _ & _ & Htip).
    exists d'. split; [exact Hd'|]. by rewrite bool_decide_eq_false_2 in Htip.
Qed.

Lemma set_test_result_data_reaches_the_node_witness :
  ∃ m', set_test_result_data (TestTreeModel_init sphere_tree)
          [("test_area (test_sphere.SphereTests)", "unexpected success")] fail = Ok m' ∧
        ∃ d', node_at (root_node m') [1; 0; 0] = Some d' ∧
              tool_tip d' = "unexpected success" ∧ status d' = fail.
Proof.
  destruct (set_test_result_data_reaches_the_node (TestTreeModel_init sphere_tree)
              "test_area (test_sphere.SphereTests)" "unexpected success" [1; 0; 0]
              (default two_leaves (node_at sphere_tree [1; 0; 0])) fail
              eq_refl ltac:(discriminate) eq_refl)
    as (m' & Hm' & (d' & Hd' & _ & Htip & Hst) & _).
  exists m'. split; [exact Hm'|]. exists d'. by repeat split.
Defined.

(** X8. When the results before it belong to known tests, the result of a
    test that the lookup does not know ends [_set_test_result_data] with a
    [KeyError], and the result of a test that is looked up to the root ends
    it with an [AttributeError]: the root has no index. *)
Theorem set_test_result_data_unknown_test (m : TestTreeModel)
    (pre post : list (string * string)) (t reason : string) (st : TestStatus) :
  reachable m → all_known m pre.*1 →
  (dict_get (node_lookup m) t = None →
   set_test_result_data m (pre ++ (t, reason) :: post) st = Raise (KeyError t)) ∧
  (dict_get (node_lookup m) t = Some [] →
   set_test_result_data m (pre ++ (t, reason) :: post) st
   = Raise (AttributeError "tool_tip")).
Proof.
  intros Hinv%reachable_model_inv Hknown.
  destruct (set_test_result_data_status st pre m Hinv Hknown) as (m1 & Hm1 & Hlookup & _).
  rewrite set_test_result_data_app, Hm1. simpl. rewrite Hlookup.
  split; intros ->; reflexivity.
Qed.

Lemma set_test_result_data_unknown_test_witness :
  set_test_result_data (TestTreeModel_init sphere_tree)
    [("test_area (test_sphere.SphereTests)", "boom");
     ("setUpClass (test_sphere.SphereTests)", "boom")] error
  = Raise (KeyError "setUpClass (test_sphere.SphereTests)") ∧
  set_test_result_data (TestTreeModel_init sphere_tree) [("<top>", "boom")] error
  = Raise (AttributeError "tool_tip").
Proof.
  split.
  - apply (proj1 (set_test_result_data_unknown_test (TestTreeModel_init sphere_tree)
             [("test_area (test_sphere.SphereTests)", "boom")] []
             "setUpClass (test_sphere.SphereTests)" "boom" error
             (reachable_init sphere_discovery sphere_tree [] eq_refl)
             ltac:(repeat constructor; by exists [1; 0; 0]))).
    reflexivity.
  - apply (proj2 (set_test_result_data_unknown_test (TestTreeModel_init sphere_tree)
             [] [] "<top>" "boom" error
             (reachable_init sphere_discovery sphere_tree [] eq_refl)
             ltac:(constructor))).
    reflexivity.
Defined.

Lemma successes_names (l : list string) :
  ((fun t => (t, "Test Passed")) <$> l).*1 = l.
Proof. induction l as [|t l IH]; simpl; [reflexivity | f_equal; exact IH]. Qed.

(** X9. After the results of a run whose tests the lookup all knows (at
    nodes other than the root) are stored, the status field of every node
    without children is: success when a passed test is looked up to it;
    otherwise skipped when a skipped test is; otherwise error when a test
    with an error is; otherwise fail when a failed test is; and otherwise
    what it was. *)
Theorem store_run_result_last_list_wins (m : TestTreeModel) (r : TestResult) :
  reachable m →
  all_known m (failures r).*1 → all_known m (errors r).*1 →
  all_known m (skipped_tests r).*1 → all_known m (successes r) →
  ∃ m', store_run_result m r = Ok m' ∧
    ∀ ref d, node_at (root_node m) ref = Some d → children d = [] →
      ∃ d', node_at (root_node m') ref = Some d' ∧ test d' = test d ∧ children d' = [] ∧
        (hits m (successes r) ref → status d' = success) ∧
        (¬ hits m (successes r) ref → hits m (skipped_tests r).*1 ref →
         status d' = skipped) ∧
        (¬ hits m (successes r) ref → ¬ hits m (skipped_tests r).*1 ref →
         hits m (errors r).*1 ref → status d' = error) ∧
        (¬ hits m (successes r) ref → ¬ hits m (skipped_tests r).*1 ref →
         ¬ hits m (errors r).*1 ref → hits m (failures r).*1 ref → status d' = fail) ∧
        (¬ hits m (successes r) ref → ¬ hits m (skipped_tests r).*1 ref →
         ¬ hits m (errors r).*1 ref → ¬ hits m (failures r).*1 ref →
         status d' = status d).
Proof.
  intros Hinv%reachable_model_inv Kf Ke Ks Kp.
  destruct (set_test_result_data_status fail (failures r) m Hinv Kf)
    as (m1 & Hm1 & L1 & Hinv1 & A1).
  destruct (set_test_result_data_status error (errors r) m1 Hinv1)
    as (m2 & Hm2 & L2 & Hinv2 & A2); [unfold all_known; by rewrite L1|].
  destruct (set_test_result_data_status skipped (skipped_tests r) m2 Hinv2)
    as (m3 & Hm3 & L3 & Hinv3 & A3); [unfold all_known; by rewrite L2, L1|].
  destruct (set_test_result_data_status success
              ((fun t => (t, "Test Passed")) <$> successes r) m3 Hinv3)
    as (m4 & Hm4 & L4 & Hinv4 & A4);
    [unfold all_known; by rewrite successes_names, L3, L2, L1|].
  exists m4. split.
  { unfold store_run_result. rewrite Hm1. simpl. rewrite Hm2. simpl.
    rewrite Hm3. simpl. exact Hm4. }
  intros ref d Hd Hleaf.
  assert (∀ x y : TestNode, length (children y) = length (children x) →
                            children x = [] → children y = []) as Hnil.
  { intros x y Hlen Hx. rewrite Hx in Hlen. by destruct (children y). }
  destruct (A1 ref d Hd) as (d1 & Hd1 & T1 & Len1 & W1 & N1).
  destruct (A2 ref d1 Hd1) as (d2 & Hd2 & T2 & Len2 & W2 & N2).
  destruct (A3 ref d2 Hd2) as (d3 & Hd3 & T3 & Len3 & W3 & N3).
  destruct (A4 ref d3 Hd3) as (d4 & Hd4 & T4 & Len4 & W4 & N4).
  pose proof (Hnil _ _ Len1 Hleaf) as Leaf1.
  pose proof (Hnil _ _ Len2 Leaf1) as Leaf2.
  pose proof (Hnil _ _ Len3 Leaf2) as Leaf3.
  pose proof (Hnil _ _ Len4 Leaf3) as Leaf4.
  rewrite successes_names in W4, N4.
  rewrite (written_lookup m m3) in W4, N4 by congruence.
  rewrite (written_lookup m m2) in W3, N3 by congruence.
  rewrite (written_lookup m m1) in W2, N2 by congruence.
  rewrite (written_leaf m _ ref d Hinv Kp Hd Hleaf) in W4, N4.
  rewrite (written_leaf m _ ref d Hinv Ks Hd Hleaf) in W3, N3.
  rewrite (written_leaf m _ ref d Hinv Ke Hd Hleaf) in W2, N2.
  rewrite (written_leaf m _ ref d Hinv Kf Hd Hleaf) in W1, N1.
  exists d4. split; [exact Hd4|]. split; [congruence|]. split; [exact Leaf4|].
  repeat split.
  - exact W4.
  - intros Hp Hs. by rewrite (N4 Hp), (W3 Hs).
  - intros Hp Hs He. by rewrite (N4 Hp), (N3 Hs), (W2 He).
  - intros Hp Hs He Hf. by rewrite (N4 Hp), (N3 Hs), (N2 He), (W1 Hf).
  - intros Hp Hs He Hf. by rewrite (N4 Hp), (N3 Hs), (N2 He), (N1 Hf).
Qed.

Lemma store_run_result_last_list_wins_witness :
  ∃ m', store_run_result (TestTreeModel_init sphere_tree) sphere_fail_and_error_run = Ok m' ∧
        ∃ d', node_at (root_node m') [0; 0; 0] = Some d' ∧ status d' = error.
Proof.
  destruct (store_run_result_last_list_wins (TestTreeModel_init sphere_tree)
              sphere_fail_and_error_run
              (reachable_init sphere_discovery sphere_tree [] eq_refl)
              ltac:(repeat constructor; by exists [0; 0; 0])
              ltac:(repeat constructor; by exists [0; 0; 0])
              ltac:(constructor)
              ltac:(repeat constructor; by exists [1; 0; 0]))
    as (m' & Hm' & Hall).
  destruct (Hall [0; 0; 0] (default two_leaves (node_at sphere_tree [0; 0; 0]))
              eq_refl eq_refl) as (d' & Hd' & _ & _ & _ & _ & Herr & _).
  exists m'. split; [exact Hm'|]. exists d'. split; [exact Hd'|].
  apply Herr.
  - intros (t & [->|[]%elem_of_nil]%elem_of_cons & Ht). discriminate Ht.
  - intros (t & []%elem_of_nil & _).
  - exists "test_radius (test_sphere.SphereTests)". split; [left | reflexivity].
Defined.


(** ** The tree the constructor builds *)

Lemma count_case_nodes_unfold (n : TestNode) :
  count_case_nodes n =
    (if isinstance_TestCase (test n) then 1 else 0)
    + foldr (fun c acc => count_case_nodes c + acc) 0 (children n).
Proof. destruct n; reflexivity. Qed.

Lemma add_children_counts (tests : list UnitTest) :
  Forall (fun t_ => ∀ n evs, TestNode_init t_ = Ok (n, evs) →
                    count_case_nodes n = countTestCases t_ ∧
                    all_nodes (has_status not_run) n = true) tests →
  ∀ cs evs, add_children TestNode_init tests = Ok (cs, evs) →
    foldr (fun c acc => count_case_nodes c + acc) 0 cs
    = foldr (fun t_ acc => countTestCases t_ + acc) 0 tests ∧
    forallb (all_nodes (has_status not_run)) cs = true.
Proof.
  induction 1 as [|t_ tests Ht _ IH]; intros cs evs; simpl.
  - by intros [= <- <-].
  - destruct (isinstance_TestCase t_ || bool_decide (countTestCases t_ ≠ 0)) eqn:Hadd.
    + intros ([c ev] & Hc & ([cs' evs'] & Hcs' & H)%bind_Ok_inv)%bind_Ok_inv.
      simplify_eq. destruct (IH _ _ Hcs') as [Hcount Hfresh].
      destruct (Ht _ _ Hc) as [Hc1 Hc2]. simpl. by rewrite Hc1, Hcount, Hc2, Hfresh.
    + intros Hcs. destruct (IH _ _ Hcs) as [Hcount Hfresh]. split; [|exact Hfresh].
      apply orb_false_iff in Hadd as [_ Hzero].
      apply bool_decide_eq_false_1 in Hzero.
      assert (countTestCases t_ = 0) as ->
        by (destruct (countTestCases t_); [done | by destruct Hzero]).
      exact Hcount.
Qed.

Lemma TestNode_init_status (t : UnitTest) (n : TestNode) (evs : list Event) :
  TestNode_init t = Ok (n, evs) → status n = not_run.
Proof.
  rewrite TestNode_init_unfold. intros ([cs evs0] & _ & H)%bind_Ok_inv. cbv zeta in H.
  destruct (String.eqb _ _).
  - apply bind_Ok_inv in H as (nm & _ & H).
    destruct (call_method t nm); by simplify_eq.
  - by simplify_eq.
Qed.

Lemma TestNode_init_all_not_run (t : UnitTest) :
  ∀ n evs, TestNode_init t = Ok (n, evs) → all_nodes (has_status not_run) n = true.
Proof.
  induction t as [c m meth s run|c m s tests IH] using UnitTest_tree_ind;
    intros n evs Hinit; rewrite all_nodes_unfold;
    destruct (TestNode_init_inv _ _ _ Hinit) as (cs & evs0 & Hcs & Ht & Hch);
    unfold has_status at 1; rewrite (TestNode_init_status _ _ _ Hinit), Hch.
  - by injection Hcs as <- <-.
  - simpl. clear Hinit Ht Hch. revert cs evs0 Hcs.
    induction IH as [|t_ tests Ht_ _ IHtests]; intros cs evs0; simpl.
    + by intros [= <- <-].
    + destruct (_ || _).
      * intros ([c' ev] & Hc & ([cs' evs'] & Hcs' & H)%bind_Ok_inv)%bind_Ok_inv.
        simplify_eq. simpl. by rewrite (Ht_ _ _ Hc), (IHtests _ _ Hcs').
      * apply IHtests.
Qed.

Lemma TestNode_init_count (t : UnitTest) :
  ∀ n evs, TestNode_init t = Ok (n, evs) → count_case_nodes n = countTestCases t.
Proof.
  induction t as [c m meth s run|c m s tests IH] using UnitTest_tree_ind;
    intros n evs Hinit;
    destruct (TestNode_init_inv _ _ _ Hinit) as (cs & evs0 & Hcs & Ht & Hch);
    rewrite count_case_nodes_unfold, Ht, Hch.
  - by injection Hcs as <- <-.
  - assert (Forall (fun t_ => ∀ n evs, TestNode_init t_ = Ok (n, evs) →
              count_case_nodes n = countTestCases t_ ∧
              all_nodes (has_status not_run) n = true) tests) as Hall.
    { eapply Forall_impl; [exact IH|]. intros t_ Ht_ n' evs' Hn'.
      split; [by eapply Ht_ | by eapply TestNode_init_all_not_run]. }
    by destruct (add_children_counts tests Hall cs evs0 Hcs) as [-> _].
Qed.

(** X10. The tree the constructor returns has exactly one node of a test
    case for each test case the suite counts, every node in it starts with
    the status not-run, and below the root every node is a test case without
    children or a suite with children: suites without tests get no node. *)
Theorem TestNode_init_one_node_per_test_case (t : UnitTest) (n : TestNode)
    (evs : list Event) :
  TestNode_init t = Ok (n, evs) →
  test n = t ∧
  count_case_nodes n = countTestCases t ∧
  all_nodes (has_status not_run) n = true ∧
  well_formed n = true.
Proof.
  intros Hinit. split; [|split; [|split]].
  - by destruct (TestNode_init_inv _ _ _ Hinit) as (cs & evs0 & _ & Ht & _).
  - by eapply TestNode_init_count.
  - by eapply TestNode_init_all_not_run.
  - by eapply TestNode_init_well_formed.
Qed.

Lemma TestNode_init_one_node_per_test_case_witness :
  ∃ n, TestNode_init sparse_discovery = Ok (n, []) ∧
       count_case_nodes n = 2 ∧ length (children n) = 1.
Proof.
  exists (default two_leaves
            (match TestNode_init sparse_discovery with Ok (n, _) => Some n | _ => None end)).
  split; [reflexivity|]. split; [|reflexivity].
  apply (TestNode_init_one_node_per_test_case sparse_discovery _ []). reflexivity.
Defined.

Lemma add_children_quiet (tests : list UnitTest) :
  Forall (fun t_ => has_import_failure_class t_ = false →
                    ∃ n, TestNode_init t_ = Ok (n, []) ∧ all_nodes is_fresh n = true) tests →
  existsb has_import_failure_class tests = false →
  ∃ cs, add_children TestNode_init tests = Ok (cs, []) ∧
        forallb (all_nodes is_fresh) cs = true.
Proof.
  induction 1 as [|t_ tests Ht _ IH]; simpl.
  - intros _. by exists [].
  - intros [H1 H2]%orb_false_iff. destruct (IH H2) as (cs & Hcs & Hfresh).
    destruct (_ || _).
    + destruct (Ht H1) as (c & Hc & Hcfresh). exists (c :: cs).
      rewrite Hc. simpl. rewrite Hcs. simpl. by rewrite Hcfresh, Hfresh.
    + by exists cs.
Qed.

(** X11. When no test and no suite has a class called [ModuleImportFailure],
    the constructor raises nothing, calls no test method and logs nothing,
    and leaves every node with the status not-run and [str(test)] as its
    tooltip. *)
Theorem TestNode_init_quiet_without_import_failures (t : UnitTest) :
  has_import_failure_class t = false →
  ∃ n, TestNode_init t = Ok (n, []) ∧ all_nodes is_fresh n = true.
Proof.
  induction t as [c m meth s run|c m s tests IH] using UnitTest_tree_ind;
    intros [Hcls Hsub]%orb_false_iff; rewrite TestNode_init_unfold.
  - simpl in *. rewrite Hcls. eexists. split; [reflexivity|].
    unfold is_fresh. simpl. by rewrite !bool_decide_eq_true_2.
  - destruct (add_children_quiet tests IH Hsub) as (cs & -> & Hfresh).
    simpl in *. rewrite Hcls. eexists. split; [reflexivity|].
    rewrite all_nodes_unfold. unfold is_fresh at 1. simpl.
    by rewrite !bool_decide_eq_true_2.
Qed.

Lemma TestNode_init_quiet_without_import_failures_witness :
  ∃ n, TestNode_init sphere_discovery = Ok (n, []) ∧ all_nodes is_fresh n = true.
Proof. apply (TestNode_init_quiet_without_import_failures sphere_discovery). reflexivity. Defined.


(** ** The node lookup finds every test *)

Lemma dict_get_set_eq {V} (d : list (string * V)) (k : string) (v : V) :
  dict_get (dict_set d k v) k = Some v.
Proof.
  induction d as [|[k' v'] d IH]; simpl.
  - by rewrite String.eqb_refl.
  - destruct (String.eqb k' k) eqn:E; simpl; rewrite E; [reflexivity | exact IH].
Qed.

Lemma dict_get_set_ne {V} (d : list (string * V)) (k k' : string) (v : V) :
  k ≠ k' → dict_get (dict_set d k v) k' = dict_get d k'.
Proof.
  intros Hne. induction d as [|[k0 v0] d IH]; simpl.
  - by apply String.eqb_neq in Hne as ->.
  - destruct (String.eqb k0 k) eqn:E; simpl.
    + apply String.eqb_eq in E as ->. by apply String.eqb_neq in Hne as ->.
    + by rewrite IH.
Qed.

Section Lookup.
Variable root : TestNode.

Lemma lookup_sound_set (lookup : list (string * NodeRef)) (node : TestNode) (ref : NodeRef) :
  node_at root ref = Some node → lookup_sound root lookup →
  lookup_sound root (dict_set lookup (str (test node)) ref).
Proof.
  intros Hnode Hsound k r. destruct (decide (str (test node) = k)) as [<-|Hne].
  - rewrite dict_get_set_eq. intros [= <-]. by exists node.
  - rewrite dict_get_set_ne by exact Hne. apply Hsound.
Qed.

Lemma lookup_keys_set (lookup : list (string * NodeRef)) (k0 k : string) (ref : NodeRef) :
  is_Some (dict_get lookup k) → is_Some (dict_get (dict_set lookup k0 ref) k).
Proof.
  destruct (decide (k0 = k)) as [->|Hne].
  - rewrite dict_get_set_eq. by eexists.
  - by rewrite dict_get_set_ne.
Qed.

Lemma each_child_lookup (cs : list TestNode) (ref : NodeRef) :
  Forall (fun c => ∀ r lookup, node_at root r = Some c → lookup_sound root lookup →
                   lookup_sound root (create_node_lookup c r lookup) ∧
                   lookup_covers c lookup (create_node_lookup c r lookup)) cs →
  ∀ done rest row lookup,
    cs = done ++ rest → row = length done →
    (∀ i c, cs !! i = Some c → node_at root (i :: ref) = Some c) →
    lookup_sound root lookup →
    lookup_sound root (each_child create_node_lookup rest row ref lookup) ∧
    (∀ k, is_Some (dict_get lookup k) →
          is_Some (dict_get (each_child create_node_lookup rest row ref lookup) k)) ∧
    (∀ c rows x, c ∈ rest → descend c rows = Some x →
       is_Some (dict_get (each_child create_node_lookup rest row ref lookup)
                         (str (test x)))).
Proof.
  intros IH done rest. revert done.
  induction rest as [|c rest IHrest]; intros done row lookup Hcs Hrow Hat Hsound; simpl.
  - split; [exact Hsound|]. split; [auto|]. intros c rows x []%elem_of_nil.
  - rewrite Forall_forall in IH.
    destruct (IH c) with (r := row :: ref) (lookup := lookup) as [Hsound1 [Hmono1 Hcov1]].
    + rewrite Hcs. apply elem_of_app. right. left.
    + apply Hat. rewrite Hcs, Hrow. apply list_lookup_middle. reflexivity.
    + exact Hsound.
    + destruct (IHrest (done ++ [c]) (S row) (create_node_lookup c (row :: ref) lookup))
        as [Hsound2 [Hmono2 Hcov2]].
      * by rewrite <- app_assoc.
      * rewrite length_app. simpl. lia.
      * exact Hat.
      * exact Hsound1.
      * split; [exact Hsound2|]. split; [auto|].
        intros c' rows x [->|Hin]%elem_of_cons Hx.
        -- apply Hmono2. by eapply Hcov1.
        -- by eapply Hcov2.
Qed.

Lemma create_node_lookup_covers (node : TestNode) :
  ∀ ref lookup, node_at root ref = Some node → lookup_sound root lookup →
    lookup_sound root (create_node_lookup node ref lookup) ∧
    lookup_covers node lookup (create_node_lookup node ref lookup).
Proof.
  induction node as [t tip st cs IH] using TestNode_tree_ind.
  intros ref lookup Hnode Hsound. cbn [create_node_lookup children test].
  destruct (each_child_lookup cs ref IH [] cs 0
              (dict_set lookup (str t) ref) eq_refl eq_refl)
    as [Hsound' [Hmono Hcov]].
  - intros i c Hc. rewrite node_at_cons, Hnode. exact Hc.
  - by apply (lookup_sound_set lookup (mkTestNode t tip st cs) ref).
  - split; [exact Hsound'|]. split.
    + intros k Hk. by apply Hmono, lookup_keys_set.
    + intros [|row rows] x; simpl.
      * intros [= <-]. apply Hmono. simpl. rewrite dict_get_set_eq. by eexists.
      * destruct (cs !! row) as [c|] eqn:Hc; simpl; [|discriminate].
        apply Hcov. by eapply list_elem_of_lookup_2.
Qed.
End Lookup.

(** X12. The lookup a new model builds has an entry for the [str] of the
    test of every node of the tree, every entry leads to a node whose test
    has that [str], and when no other node's test has the same [str] the
    entry leads to the node itself. *)
Theorem node_lookup_finds_every_test (root : TestNode) (ref : NodeRef) (d : TestNode) :
  node_at root ref = Some d →
  lookup_sound root (node_lookup (TestTreeModel_init root)) ∧
  ∃ ref' d',
    dict_get (node_lookup (TestTreeModel_init root)) (str (test d)) = Some ref' ∧
    node_at root ref' = Some d' ∧
    str (test d') = str (test d) ∧
    ((∀ r x, node_at root r = Some x → str (test x) = str (test d) → r = ref) →
     ref' = ref).
Proof.
  intros Hd. cbn [TestTreeModel_init node_lookup].
  destruct (create_node_lookup_covers root root [] [] eq_refl) as [Hsound [_ Hcov]].
  { intros k r. discriminate. }
  split; [exact Hsound|].
  destruct (Hcov (reverse ref) d Hd) as [ref' Href'].
  destruct (Hsound _ _ Href') as (d' & Hd' & Hstr).
  exists ref', d'. split; [exact Href'|]. split; [exact Hd'|]. split; [exact Hstr|].
  intros Huniq. by apply (Huniq ref' d').
Qed.

Lemma node_lookup_finds_every_test_witness :
  ∃ ref', dict_get (node_lookup (TestTreeModel_init sphere_tree))
                   "test_area (test_sphere.SphereTests)" = Some ref' ∧
          ∃ d', node_at sphere_tree ref' = Some d' ∧
                str (test d') = "test_area (test_sphere.SphereTests)".
Proof.
  destruct (node_lookup_finds_every_test sphere_tree [1; 0; 0]
              (default two_leaves (node_at sphere_tree [1; 0; 0])) eq_refl)
    as (_ & ref' & d' & Href' & Hd' & Hstr & _).
  exists ref'. split; [exact Href'|]. exists d'. split; [exact Hd' | exact Hstr].
Defined.


(** ** The paths "run selected" asks for *)

Lemma split_dot_tokens (s : string) :
  split_dot s ≠ [] ∧ Forall (fun tok => dot_free tok = true) (split_dot s).
Proof.
  induction s as [|c s [Hne Hfree]]; simpl.
  - split; [discriminate | by repeat constructor].
  - destruct (Ascii.eqb c ".") eqn:Hc.
    + split; [discriminate | by constructor].
    + destruct (split_dot s) as [|tok toks]; [contradiction|].
      apply Forall_cons in Hfree as [Htok Htoks].
      split; [discriminate|]. constructor; [|exact Htoks]. simpl. by rewrite Hc, Htok.
Qed.

Lemma split_dot_single (tok : string) : dot_free tok = true → split_dot tok = [tok].
Proof.
  induction tok as [|c tok IH]; simpl; [reflexivity|].
  intros [Hc Htok]%andb_true_iff. apply negb_true_iff in Hc. by rewrite Hc, IH.
Qed.

Lemma split_dot_app (tok rest : string) :
  dot_free tok = true → split_dot (tok +:+ "." +:+ rest) = tok :: split_dot rest.
Proof.
  induction tok as [|c tok IH]; [reflexivity|]. simpl dot_free.
  intros [Hc Htok]%andb_true_iff. apply negb_true_iff in Hc.
  rewrite append_cons. simpl. by rewrite Hc, IH.
Qed.

(** Joining tokens and splitting again gives the tokens back. *)
Lemma split_join_dot (toks : list string) :
  toks ≠ [] → Forall (fun tok => dot_free tok = true) toks →
  split_dot (join_dot toks) = toks.
Proof.
  induction toks as [|tok toks IH]; [contradiction|]. intros _ [Htok Htoks]%Forall_cons.
  destruct toks as [|tok2 toks]; simpl.
  - by apply split_dot_single.
  - rewrite split_dot_app by exact Htok. f_equal. by apply IH.
Qed.

Lemma split_dotted_ancestor (p : string) (i : nat) :
  i + 1 < length (split_dot p) →
  split_dot (join_dot (take (i + 1) (split_dot p))) = take (i + 1) (split_dot p).
Proof.
  intros Hi. destruct (split_dot_tokens p) as [Hne Hfree]. apply split_join_dot.
  - destruct (split_dot p); [contradiction|]. rewrite Nat.add_1_r. discriminate.
  - by apply Forall_take.
Qed.

Lemma dotted_ancestor_trans (r q p : string) :
  dotted_ancestor r q → dotted_ancestor q p → dotted_ancestor r p.
Proof.
  intros (j & Hj & ->) (i & Hi & ->).
  rewrite split_dotted_ancestor in Hj |- * by exact Hi.
  rewrite length_take in Hj. exists j. split; [lia|].
  rewrite take_take. f_equal. f_equal. lia.
Qed.

Lemma parent_selected_true (paths tokens : list string) (todo : list nat) :
  parent_selected paths tokens todo = true ↔
  ∃ i, i ∈ todo ∧ join_dot (take (i + 1) tokens) ∈ paths.
Proof.
  induction todo as [|i todo IH]; simpl.
  - split; [discriminate | intros (i & []%elem_of_nil & _)].
  - case_bool_decide as Hin.
    + split; [|reflexivity]. intros _. exists i. split; [left | exact Hin].
    + rewrite IH. split.
      * intros (k & Hk & Hpath). exists k. split; [by right | exact Hpath].
      * intros (k & [->|Hk]%elem_of_cons & Hpath); [contradiction|]. by exists k.
Qed.

Lemma has_selected_ancestor (paths : list string) (p : string) :
  parent_selected paths (split_dot p) (seq 0 (length (split_dot p) - 1)) = true ↔
  ∃ q, dotted_ancestor q p ∧ q ∈ paths.
Proof.
  rewrite parent_selected_true. split.
  - intros (i & Hi%elem_of_seq & Hin). eexists. split; [|exact Hin].
    exists i. split; [lia | reflexivity].
  - intros (q & (i & Hi & ->) & Hin). exists i. split; [|exact Hin].
    apply elem_of_seq. lia.
Qed.

Lemma prune_paths_filter (paths todo test_paths : list string) :
  prune_paths paths todo test_paths =
    test_paths ++
    filter (fun p => parent_selected paths (split_dot p)
                       (seq 0 (length (split_dot p) - 1)) = false) todo.
Proof.
  revert test_paths. induction todo as [|p todo IH]; intros test_paths; simpl.
  - by rewrite app_nil_r.
  - rewrite filter_cons. destruct (parent_selected _ _ _) eqn:Hsel; rewrite IH.
    + by rewrite decide_False by discriminate.
    + rewrite decide_True by reflexivity. by rewrite <- app_assoc.
Qed.

Lemma elem_of_prune_paths (paths : list string) (p : string) :
  p ∈ prune_paths paths paths [] ↔
  p ∈ paths ∧ ¬ ∃ q, dotted_ancestor q p ∧ q ∈ paths.
Proof.
  rewrite prune_paths_filter. simpl. rewrite list_elem_of_filter.
  rewrite <- has_selected_ancestor. destruct (parent_selected _ _ _); split;
    intros [? ?]; split; done.
Qed.

(** X13. The paths "run selected" asks [get_tests] for are selected paths
    none of which lies below another selected path, so no test is run
    twice; and every selected path is asked for itself or lies below a path
    that is asked for, so no selected test is left out. *)
Theorem run_selected_tests_prunes_nested_paths (m : TestTreeModel)
    (indices : list QModelIndex) (paths : list string) :
  indices ≠ [] → index_paths m indices = Ok paths →
  ∃ test_paths,
    run_selected_tests m indices = Ok (Some test_paths) ∧
    (∀ p, p ∈ test_paths → p ∈ paths ∧ ∀ q, dotted_ancestor q p → q ∉ paths) ∧
    (∀ p, p ∈ paths → ∃ q, q ∈ test_paths ∧ (q = p ∨ dotted_ancestor q p)).
Proof.
  intros Hne Hpaths. exists (prune_paths paths paths []). split; [|split].
  - destruct indices; [contradiction|]. unfold run_selected_tests. by rewrite Hpaths.
  - intros p [Hin Hnone]%elem_of_prune_paths. split; [exact Hin|].
    intros q Hq Hqin. apply Hnone. by exists q.
  - assert (∀ n p, (length (split_dot p) ≤ n)%nat → p ∈ paths →
              ∃ q, q ∈ prune_paths paths paths [] ∧ (q = p ∨ dotted_ancestor q p))
      as Hcover.
    { induction n as [|n IH]; intros p Hlen Hin.
      - destruct (split_dot_tokens p) as [Hnil _].
        destruct (split_dot p); [contradiction | simpl in Hlen; lia].
      - destruct (parent_selected paths (split_dot p)
                    (seq 0 (length (split_dot p) - 1))) eqn:Hsel.
        + apply has_selected_ancestor in Hsel as (q0 & Hanc & Hq0).
          destruct (IH q0) as (q & Hq & Hrel); [|exact Hq0|].
          * destruct Hanc as (i & Hi & ->).
            rewrite split_dotted_ancestor by exact Hi. rewrite length_take. lia.
          * exists q. split; [exact Hq|]. right.
            destruct Hrel as [->|Hrel]; [exact Hanc|].
            by eapply dotted_ancestor_trans.
        + exists p. split; [|by left]. apply elem_of_prune_paths. split; [exact Hin|].
          intros Hex. apply has_selected_ancestor in Hex. congruence. }
    intros p Hin. by apply (Hcover (length (split_dot p))).
Qed.

Lemma run_selected_tests_prunes_nested_paths_witness :
  ∃ test_paths,
    run_selected_tests (TestTreeModel_init sphere_tree) [[0; 0; 0]; [0; 0]; [1; 0; 0]]
    = Ok (Some test_paths) ∧
    ∀ p, p ∈ ["test_sphere.SphereTests.test_radius"; "test_sphere.SphereTests";
              "test_sphere.SphereTests.test_area"] →
         ∃ q, q ∈ test_paths ∧ (q = p ∨ dotted_ancestor q p).
Proof.
  destruct (run_selected_tests_prunes_nested_paths (TestTreeModel_init sphere_tree)
              [[0; 0; 0]; [0; 0]; [1; 0; 0]]
              ["test_sphere.SphereTests.test_radius"; "test_sphere.SphereTests";
               "test_sphere.SphereTests.test_area"] ltac:(discriminate) eq_refl)
    as (test_paths & Hrun & _ & Hcover).
  exists test_paths. split; [exact Hrun | exact Hcover].
Defined.

(** On the sample, selecting a class and its two tests asks for the class only. *)
Example run_selected_tests_sphere :
  run_selected_tests (TestTreeModel_init sphere_tree) [[0; 0; 0]; [0; 0]; [1; 0; 0]]
  = Ok (Some ["test_sphere.SphereTests"]).
Proof. reflexivity. Qed.


(** ** A run's output in the text edit *)

Lemma write_inserted (text : string) (te : QTextEdit) :
  textColor te = normal_color →
  inserted (write text te) = inserted te ++ [(prefix_color text, text)].
Proof.
  intros Hcol. unfold write, prefix_color.
  destruct (startswith text "ok"), (startswith text "FAIL"),
    (startswith text "ERROR"), (startswith text "skipped");
    simpl; rewrite ?Hcol; reflexivity.
Qed.

Lemma write_all_normal (texts : list string) :
  ∀ te, textColor te = normal_color →
    inserted (write_all texts te)
    = inserted te ++ ((fun t => (prefix_color t, t)) <$> texts) ∧
    textColor (write_all texts te) = normal_color.
Proof.
  induction texts as [|text texts IH]; intros te Hcol; simpl.
  - by rewrite app_nil_r.
  - destruct (IH (write text te) eq_refl) as [Hins Hcol'].
    unfold write_all in *. simpl. rewrite Hins, Hcol'.
    rewrite (write_inserted text te Hcol). by rewrite <- app_assoc.
Qed.

(** X14. A sequence of writes puts every text into the text edit once, in
    the order written and after what was there; from the second text on,
    each is in the colour of its prefix, and the text edit is left with the
    normal colour. *)
Theorem write_all_keeps_order_and_colours (text0 : string) (texts : list string)
    (te : QTextEdit) :
  ∃ c,
    inserted (write_all (text0 :: texts) te)
    = inserted te ++ (c, text0) :: ((fun t => (prefix_color t, t)) <$> texts) ∧
    (inserted (write_all (text0 :: texts) te)).*2
    = (inserted te).*2 ++ text0 :: texts ∧
    textColor (write_all (text0 :: texts) te) = normal_color.
Proof.
  destruct (write_all_normal texts (write text0 te) eq_refl) as [Hins Hcol].
  assert (∃ c, inserted (write text0 te) = inserted te ++ [(c, text0)]) as [c Hc].
  { unfold write.
    destruct (startswith text0 "ok"), (startswith text0 "FAIL"),
      (startswith text0 "ERROR"), (startswith text0 "skipped"); by eexists. }
  exists c. change (write_all (text0 :: texts) te) with (write_all texts (write text0 te)).
  rewrite Hins, Hc, <- app_assoc. split; [reflexivity|]. split; [|exact Hcol].
  rewrite fmap_app. simpl. f_equal. f_equal.
  clear. induction texts as [|t texts IH]; simpl; [reflexivity | f_equal; exact IH].
Qed.


(** ** Deleting temporary files *)

Lemma Py_bind_ok {A B} (c : Py A) (k : A → Py B) (w w' : World) (a : A) :
  c w = (w', Ok a) → (c ≫= k) w = k a w'.
Proof. unfold mbind, Py_bind. by intros ->. Qed.

Lemma Py_bind_raise {A B} (c : Py A) (k : A → Py B) (w w' : World) (e : exn) :
  c w = (w', Raise e) → (c ≫= k) w = (w', Raise e).
Proof. unfold mbind, Py_bind. by intros ->. Qed.

Lemma os_path_exists_true (fs : gmap string FileKind) (p : string) :
  os_path_exists fs p = true ↔ is_Some (fs !! p).
Proof. unfold os_path_exists. apply bool_decide_eq_true. Qed.

Lemma os_path_exists_false (fs : gmap string FileKind) (p : string) :
  os_path_exists fs p = false ↔ fs !! p = None.
Proof.
  unfold os_path_exists. rewrite bool_decide_eq_false, eq_None_not_Some. tauto.
Qed.

(** The loop over the registered paths, when none of them is a directory:
    it removes those that exist and changes nothing else. *)
Lemma remove_existing_files (files : list string) :
  ∀ w, (∀ f, f ∈ files → fs w !! f ≠ Some Directory) →
    ∃ w', remove_existing files w = (w', Ok ()) ∧
          settings w' = settings w ∧
          files_created w' = files_created w ∧
          files_create w' = files_create w ∧
          ∀ p, fs w' !! p = if bool_decide (p ∈ files) then None else fs w !! p.
Proof.
  induction files as [|f files IH]; intros w Hfiles.
  - exists w. do 4 (split; [reflexivity|]). intros p.
    by rewrite bool_decide_eq_false_2 by apply not_elem_of_nil.
  - assert (∃ w1, (w0 ← get_world;
                   if os_path_exists (fs w0) f then os_remove f else mret ()) w
                  = (w1, Ok ()) ∧
                  settings w1 = settings w ∧ files_created w1 = files_created w ∧
                  files_create w1 = files_create w ∧
                  ∀ p, fs w1 !! p = if bool_decide (p = f) then None else fs w !! p)
      as (w1 & Hw1 & Hs1 & Hc1 & Hcr1 & Hfs1).
    { unfold mbind, Py_bind, get_world. simpl.
      destruct (os_path_exists (fs w) f) eqn:Hex.
      - unfold os_remove, mbind, Py_bind, get_world. simpl.
        destruct (fs w !! f) as [[|]|] eqn:Hf.
        + eexists. do 4 (split; [reflexivity|]). intros p. simpl.
          case_bool_decide as Hp; [subst; apply lookup_delete_eq|].
          by apply lookup_delete_ne.
        + destruct (Hfiles f); [left | exact Hf].
        + apply os_path_exists_true in Hex as [? Hex]. congruence.
      - exists w. do 4 (split; [reflexivity|]). intros p.
        apply os_path_exists_false in Hex.
        case_bool_decide; by subst. }
    destruct (IH w1) as (w' & Hw' & Hs' & Hc' & Hcr' & Hfs').
    { intros f' Hf'. rewrite Hfs1. case_bool_decide; [discriminate|].
      apply Hfiles. by right. }
    exists w'. split.
    { cbn [remove_existing]. unfold mbind at 1, Py_bind at 1.
      fold (@mbind Py _). unfold get_world at 1. cbn beta iota.
      change ((w0 ← get_world; if os_path_exists (fs w0) f then os_remove f else mret ()) w)
        with ((w0 ← get_world; if os_path_exists (fs w0) f then os_remove f else mret ()) w)
        in Hw1.
      unfold mbind at 1, Py_bind at 1, get_world at 1 in Hw1. cbn beta iota in Hw1.
      unfold mbind, Py_bind. rewrite Hw1. exact Hw'. }
    split; [congruence|]. split; [congruence|]. split; [congruence|].
    intros p. rewrite Hfs', Hfs1.
    destruct (decide (p = f)) as [->|Hne].
    + rewrite (bool_decide_eq_true_2 (f = f)) by reflexivity.
      rewrite (bool_decide_eq_true_2 (f ∈ f :: files)) by left.
      by destruct (bool_decide _).
    + rewrite (bool_decide_eq_false_2 (p = f)) by exact Hne.
      apply (f_equal (fun b : bool => if b then None else fs w !! p)).
      apply bool_decide_ext. rewrite elem_of_cons. tauto.
Qed.


Lemma shutil_rmtree_directory (d : string) (w : World) :
  fs w !! d = Some Directory →
  ∃ w', shutil_rmtree d w = (w', Ok ()) ∧
        settings w' = settings w ∧ files_created w' = files_created w ∧
        files_create w' = files_create w ∧
        fs w' !! d = None ∧
        (∀ p, String.prefix (d +:+ "/") p = true → fs w' !! p = None) ∧
        (∀ p, p ≠ d → String.prefix (d +:+ "/") p = false → fs w' !! p = fs w !! p).
Proof.
  intros Hd. unfold shutil_rmtree.
  rewrite (Py_bind_ok get_world _ w w w eq_refl), Hd.
  eexists. split; [reflexivity|]. do 3 (split; [reflexivity|]). simpl.
  split; [|split].
  - apply map_lookup_filter_None. right. intros x _ [Hne _]. by apply Hne.
  - intros p Hp. apply map_lookup_filter_None. right. intros x _ [_ Hnot].
    apply Hnot. simpl. by rewrite Hp.
  - intros p Hne Hp. apply option_eq. intros x.
    rewrite map_lookup_filter_Some. simpl. rewrite Hp. split; [by intros [? _]|].
    intros Hx. split; [exact Hx|]. split; [exact Hne | by intros []].
Qed.

(** X15. With [Settings.delete_files] true, when no registered path is a
    directory and the temporary directory is not a regular file,
    [delete_temp_files] ends without an exception; afterwards no registered
    path exists, the temporary directory and everything below it is gone, and
    every other path is as it was. *)
Theorem delete_temp_files_removes_the_registered (w : World) :
  delete_files (settings w) = true →
  (∀ f, f ∈ files_created w → fs w !! f ≠ Some Directory) →
  fs w !! temp_dir (settings w) ≠ Some RegularFile →
  ∃ w', delete_temp_files w = (w', Ok ()) ∧
        settings w' = settings w ∧
        (∀ f, f ∈ files_created w → fs w' !! f = None) ∧
        fs w' !! temp_dir (settings w) = None ∧
        (∀ p, fs w !! temp_dir (settings w) = Some Directory →
              String.prefix (temp_dir (settings w) +:+ "/") p = true →
              fs w' !! p = None) ∧
        (∀ p, p ∉ files_created w → p ≠ temp_dir (settings w) →
              String.prefix (temp_dir (settings w) +:+ "/") p = false →
              fs w' !! p = fs w !! p).
Proof.
  intros Hdel Hfiles Htd.
  destruct (remove_existing_files (files_created w) w Hfiles)
    as (w1 & Hw1 & Hs1 & Hc1 & Hcr1 & Hfs1).
  set (w2 := mkWorld (fs w1) (settings w1) (files_created w1) (Some [])).
  unfold delete_temp_files.
  rewrite (Py_bind_ok get_world _ w w w eq_refl), Hdel.
  rewrite (Py_bind_ok _ _ w w1 () Hw1).
  rewrite (Py_bind_ok (put_files_create []) _ w1 w2 () eq_refl).
  rewrite (Py_bind_ok get_world _ w2 w2 w2 eq_refl).
  cbn [fs settings w2]. rewrite Hs1.
  set (td := temp_dir (settings w)) in *.
  destruct (fs w !! td) as [[|]|] eqn:Hwtd; [contradiction| |].
  - assert (td ∉ files_created w) as Hnot
      by (intros Hin; by apply (Hfiles td Hin)).
    assert (fs w1 !! td = Some Directory) as Hw1td
      by (by rewrite Hfs1, bool_decide_eq_false_2).
    rewrite (proj2 (os_path_exists_true (fs w1) td)) by (by rewrite Hw1td).
    destruct (shutil_rmtree_directory td w2 Hw1td)
      as (w' & Hw' & Hs' & _ & _ & Hgone & Hbelow & Hother).
    exists w'. split; [exact Hw'|]. split; [by rewrite Hs'|].
    split; [|split; [exact Hgone|split]].
    + intros f Hf. destruct (decide (f = td)) as [->|Hne]; [exact Hgone|].
      destruct (String.prefix (td +:+ "/") f) eqn:Hpre; [by apply Hbelow|].
      rewrite Hother by assumption. simpl.
      by rewrite Hfs1, bool_decide_eq_true_2.
    + intros p _ Hp. by apply Hbelow.
    + intros p Hp Hne Hpre. rewrite Hother by assumption. simpl.
      by rewrite Hfs1, bool_decide_eq_false_2.
  - assert (fs w1 !! td = None) as Hw1td
      by (rewrite Hfs1; by destruct (bool_decide _)).
    rewrite (proj2 (os_path_exists_false (fs w1) td) Hw1td).
    exists w2. split; [reflexivity|]. split; [exact Hs1|].
    split; [|split; [exact Hw1td|split]].
    + intros f Hf. simpl. by rewrite Hfs1, bool_decide_eq_true_2.
    + intros p [=].
    + intros p Hp _ _. simpl. by rewrite Hfs1, bool_decide_eq_false_2.
Qed.

Lemma delete_temp_files_removes_the_registered_witness :
  ∃ w', delete_temp_files world_with_two_registered = (w', Ok ()) ∧
        fs w' !! "/tmp/t/a.ma" = None ∧
        fs w' !! "/tmp/t" = None ∧
        fs w' !! "/tmp/t/notes.txt" = None ∧
        fs w' !! "/home/scene.ma" = Some RegularFile.
Proof.
  destruct (delete_temp_files_removes_the_registered world_with_two_registered)
    as (w' & Hw' & _ & Hreg & Hgone & Hbelow & Hother).
  - reflexivity.
  - intros f Hf. repeat (apply elem_of_cons in Hf as [->|Hf]; [vm_compute; discriminate|]).
    by apply elem_of_nil in Hf.
  - vm_compute. discriminate.
  - exists w'. split; [exact Hw'|]. split; [apply Hreg; left|].
    split; [exact Hgone|]. split; [apply Hbelow; reflexivity|].
    rewrite Hother; [reflexivity| |discriminate|reflexivity].
    intros Hin. repeat (apply elem_of_cons in Hin as [Hin|Hin]; [discriminate Hin|]).
    by apply elem_of_nil in Hin.
Defined.

Lemma remove_existing_app (pre post : list string) (w : World) :
  remove_existing (pre ++ post) w
  = (remove_existing pre ≫= fun _ => remove_existing post) w.
Proof.
  revert w. induction pre as [|f pre IH]; intros w; [reflexivity|].
  cbn [app remove_existing]. unfold mbind, Py_bind, get_world in *. simpl.
  destruct (os_path_exists (fs w) f).
  - destruct (os_remove f w) as [w1 [[]|e]]; [apply IH | reflexivity].
  - apply IH.
Qed.

(** X16. When a registered path is a directory and no path registered
    before it is, [delete_temp_files] ends with the [OSError] of
    [os.remove] on that directory: the paths registered after it and the
    temporary directory are left in place, and [files_create] is not set. *)
Theorem delete_temp_files_stops_at_a_directory (w : World) (pre post : list string)
    (d : string) :
  delete_files (settings w) = true →
  files_created w = pre ++ d :: post →
  (∀ f, f ∈ pre → fs w !! f ≠ Some Directory) →
  fs w !! d = Some Directory →
  ∃ w', delete_temp_files w = (w', Raise (OSError d)) ∧
        files_create w' = files_create w ∧
        (∀ f, f ∈ pre → fs w' !! f = None) ∧
        (∀ p, p ∉ pre → fs w' !! p = fs w !! p).
Proof.
  intros Hdel Hreg Hpre Hd.
  destruct (remove_existing_files pre w Hpre) as (w1 & Hw1 & _ & _ & Hcr1 & Hfs1).
  assert (d ∉ pre) as Hnot by (intros Hin; by apply (Hpre d Hin)).
  assert (fs w1 !! d = Some Directory) as Hw1d
    by (by rewrite Hfs1, bool_decide_eq_false_2).
  exists w1. split; [|split; [exact Hcr1|split]].
  - unfold delete_temp_files.
    rewrite (Py_bind_ok get_world _ w w w eq_refl), Hdel, Hreg.
    apply Py_bind_raise. rewrite remove_existing_app.
    rewrite (Py_bind_ok _ _ w w1 () Hw1). cbn [remove_existing].
    rewrite (Py_bind_ok get_world _ w1 w1 w1 eq_refl).
    rewrite (proj2 (os_path_exists_true (fs w1) d)) by (by rewrite Hw1d).
    apply Py_bind_raise. unfold os_remove.
    rewrite (Py_bind_ok get_world _ w1 w1 w1 eq_refl). by rewrite Hw1d.
  - intros f Hf. by rewrite Hfs1, bool_decide_eq_true_2.
  - intros p Hp. by rewrite Hfs1, bool_decide_eq_false_2.
Qed.

Lemma delete_temp_files_stops_at_a_directory_witness :
  ∃ w', delete_temp_files world_with_registered_directory
        = (w', Raise (OSError "/tmp/t/cache")) ∧
        fs w' !! "/tmp/t/a.ma" = None ∧
        fs w' !! "/tmp/t/b.ma" = Some RegularFile ∧
        fs w' !! "/tmp/t" = Some Directory.
Proof.
  destruct (delete_temp_files_stops_at_a_directory world_with_registered_directory
              ["/tmp/t/a.ma"] ["/tmp/t/b.ma"] "/tmp/t/cache" eq_refl eq_refl)
    as (w' & Hw' & _ & Hpre & Hother).
  - intros f [->|[]%elem_of_nil]%elem_of_cons. vm_compute. discriminate.
  - reflexivity.
  - exists w'. split; [exact Hw'|]. split; [apply Hpre; left|].
    split; (rewrite Hother; [reflexivity|]);
      (intros [Hin|[]%elem_of_nil]%elem_of_cons; discriminate Hin).
Defined.


(** ** Temporary file names *)

Lemma append_nil_r (a : string) : a +:+ "" = a.
Proof. induction a as [|c a IH]; [reflexivity|]. by rewrite append_cons, IH. Qed.

Lemma length_append (a b : string) :
  String.length (a +:+ b) = String.length a + String.length b.
Proof. induction a as [|c a IH]; [reflexivity|]. rewrite append_cons. simpl. by rewrite IH. Qed.

Lemma append_inj_r (a b e : string) : a +:+ e = b +:+ e → a = b.
Proof.
  revert b. induction a as [|c a IH]; intros [|c' b] H.
  - reflexivity.
  - apply (f_equal String.length) in H. rewrite !length_append in H. simpl in H. lia.
  - apply (f_equal String.length) in H. rewrite !length_append in H. simpl in H. lia.
  - rewrite !append_cons in H. injection H as -> H. f_equal. by apply IH.
Qed.

Lemma prefix_append (a b : string) : String.prefix a (a +:+ b) = true.
Proof.
  induction a as [|c a IH]; [by destruct b|]. rewrite append_cons. simpl.
  by destruct (ascii_dec c c).
Qed.

Lemma pretty_N_go_length (x : N) :
  ∀ s, (String.length s ≤ String.length (pretty_N_go x s))%nat.
Proof.
  induction (N.lt_wf_0 x) as [x _ IH]; intros s.
  assert (x = 0 ∨ 0 < x)%N as [->|Hpos] by lia; [by rewrite pretty_N_go_0|].
  rewrite pretty_N_go_step by exact Hpos.
  etrans; [|apply IH; by apply N.div_lt]. simpl. lia.
Qed.

Lemma pretty_nat_not_empty (n : nat) : pretty n ≠ "".
Proof.
  unfold pretty, pretty_nat, pretty, pretty_N. case_decide as Hz; [discriminate|].
  intros Hempty. assert (0 < N.of_nat n)%N as Hpos by lia.
  rewrite pretty_N_go_step in Hempty by exact Hpos.
  pose proof (pretty_N_go_length (N.of_nat n `div` 10)
                (String (pretty_N_char (N.of_nat n `mod` 10)) "")) as Hlen.
  rewrite Hempty in Hlen. simpl in Hlen. lia.
Qed.

Lemma numbered_path_inj (td b e : string) (n n' : nat) :
  numbered_path td b e n = numbered_path td b e n' → n = n'.
Proof.
  unfold numbered_path. intros H. do 3 apply append_inj in H.
  apply append_inj_r in H. by apply (inj pretty).
Qed.

Lemma numbered_path_not_plain (td b e : string) (n : nat) :
  numbered_path td b e n ≠ td +:+ "/" +:+ b +:+ e.
Proof.
  unfold numbered_path. intros H. do 3 apply append_inj in H.
  change e with ("" +:+ e) in H at 2. apply append_inj_r in H.
  by apply pretty_nat_not_empty in H.
Qed.

Section NextFree.
Variables (fs : gmap string FileKind) (td b e : string).

Lemma next_free_path_free (fuel : nat) :
  ∀ path count, fs !! path = None →
    next_free_path fuel fs td b e path count = Some path.
Proof.
  intros path count Hfree. apply os_path_exists_false in Hfree.
  destruct fuel; simpl; by rewrite Hfree.
Qed.

Lemma next_free_path_Some (fuel : nat) :
  ∀ path count p, next_free_path fuel fs td b e path count = Some p →
    fs !! p = None ∧ (p = path ∨ ∃ n, p = numbered_path td b e n).
Proof.
  induction fuel as [|fuel IH]; intros path count p; simpl;
    destruct (os_path_exists fs path) eqn:Hex; try discriminate.
  - intros [= <-]. split; [by apply os_path_exists_false | by left].
  - intros [Hp [->|Hn]]%IH; (split; [exact Hp|]); right; [by eexists | exact Hn].
  - intros [= <-]. split; [by apply os_path_exists_false | by left].
Qed.

Lemma next_free_path_None (fuel : nat) :
  ∀ path count, next_free_path fuel fs td b e path count = None →
    is_Some (fs !! path) ∧
    ∀ k, (1 ≤ k ≤ fuel)%nat → is_Some (fs !! numbered_path td b e (count + k)).
Proof.
  induction fuel as [|fuel IH]; intros path count; simpl;
    destruct (os_path_exists fs path) eqn:Hex; try discriminate.
  - intros _. split; [by apply os_path_exists_true|]. intros k Hk. lia.
  - intros [Hnext Hrest]%IH. split; [by apply os_path_exists_true|].
    intros k Hk. destruct (decide (k = 1)) as [->|Hne].
    + by rewrite Nat.add_1_r.
    + replace (count + k) with (S count + (k - 1)) by lia. apply Hrest. lia.
Qed.

(** There are not enough files for all the paths of the loop to exist. *)
Lemma next_free_path_total :
  ∃ p, next_free_path (size fs) fs td b e (td +:+ "/" +:+ b +:+ e) 0 = Some p.
Proof.
  destruct (next_free_path (size fs) fs td b e (td +:+ "/" +:+ b +:+ e) 0) as [p|] eqn:Hnext;
    [by exists p|].
  exfalso. apply next_free_path_None in Hnext as [Hplain Hnumbered].
  set (l := (td +:+ "/" +:+ b +:+ e) :: (numbered_path td b e <$> seq 1 (size fs))).
  assert (NoDup l) as Hnodup.
  { constructor.
    - intros (n & Hn & _)%list_elem_of_fmap. symmetry in Hn.
      by apply numbered_path_not_plain in Hn.
    - apply NoDup_fmap_2; [|apply NoDup_seq]. intros n n'. apply numbered_path_inj. }
  assert (list_to_set l ⊆ dom fs) as Hsub.
  { intros x [->|(n & -> & Hn%elem_of_seq)%list_elem_of_fmap]%elem_of_list_to_set%elem_of_cons;
      apply elem_of_dom; [exact Hplain|].
    replace n with (0 + n) by lia. apply Hnumbered. lia. }
  apply subseteq_size in Hsub.
  rewrite size_dom, size_list_to_set in Hsub by exact Hnodup.
  unfold l in Hsub. simpl in Hsub. rewrite length_fmap, length_seq in Hsub. lia.
Qed.
End NextFree.

Lemma substring_full (p : string) : String.substring 0 (String.length p) p = p.
Proof. induction p as [|c p IH]; simpl; [reflexivity | by rewrite IH]. Qed.

Lemma substring_split (p : string) :
  ∀ n, String.substring 0 n p +:+ String.substring n (String.length p - n) p = p.
Proof.
  induction p as [|c p IH]; intros [|n]; simpl; try reflexivity.
  - by rewrite substring_full.
  - rewrite append_cons. by rewrite IH.
Qed.

(** [splitext] cuts the name in two. *)
Lemma splitext_append (p base_name ext : string) :
  splitext p = (base_name, ext) → base_name +:+ ext = p.
Proof.
  unfold splitext. destruct (_ && _).
  - intros [= <- <-]. apply substring_split.
  - intros [= <- <-]. apply append_nil_r.
Qed.

Lemma get_temp_filename_in_existing_dir (file_name : string) (w : World) :
  os_path_exists (fs w) (temp_dir (settings w)) = true →
  ∃ w' path,
    get_temp_filename file_name w = (w', Ok path) ∧
    fs w' = fs w ∧ settings w' = settings w ∧ files_create w' = files_create w ∧
    files_created w' = files_created w ++ [path] ∧
    fs w !! path = None ∧
    String.prefix (temp_dir (settings w) +:+ "/") path = true ∧
    (fs w !! (temp_dir (settings w) +:+ "/" +:+ file_name) = None →
     path = temp_dir (settings w) +:+ "/" +:+ file_name).
Proof.
  intros Hex. unfold get_temp_filename.
  rewrite (Py_bind_ok get_world _ w w w eq_refl), Hex.
  rewrite (Py_bind_ok (mret ()) _ w w () eq_refl).
  rewrite (Py_bind_ok get_world _ w w w eq_refl).
  destruct (splitext file_name) as [base_name ext] eqn:Hsplit.
  apply splitext_append in Hsplit.
  set (td := temp_dir (settings w)).
  destruct (next_free_path_total (fs w) td base_name ext) as [path Hpath].
  rewrite Hpath.
  destruct (next_free_path_Some _ _ _ _ _ _ _ _ Hpath) as [Hfree Hform].
  eexists _, path. split; [reflexivity|]. do 4 (split; [reflexivity|]).
  split; [exact Hfree|]. split.
  - destruct Hform as [->|[n ->]]; unfold numbered_path;
      rewrite <- append_assoc; apply prefix_append.
  - intros Hplain. rewrite <- Hsplit in Hplain.
    rewrite (next_free_path_free _ _ _ _ _ _ 0 Hplain) in Hpath.
    injection Hpath as <-. by rewrite Hsplit.
Qed.

(** [os.makedirs] over the directories still to look at, none of which is a
    regular file: those that are missing are made. *)
Lemma make_each_directories (dirs : list string) :
  ∀ w, (∀ d, d ∈ dirs → fs w !! d ≠ Some RegularFile) →
    ∃ w', make_each dirs w = (w', Ok ()) ∧
          settings w' = settings w ∧ files_created w' = files_created w ∧
          files_create w' = files_create w ∧
          (∀ d, d ∈ dirs → fs w' !! d = Some Directory) ∧
          (∀ p, is_Some (fs w !! p) → fs w' !! p = fs w !! p) ∧
          (∀ p, p ∉ dirs → fs w' !! p = fs w !! p).
Proof.
  induction dirs as [|d dirs IH]; intros w Hdirs.
  - exists w. do 4 (split; [reflexivity|]). split; [|by split].
    intros d []%elem_of_nil.
  - cbn [make_each]. rewrite (Py_bind_ok get_world _ w w w eq_refl).
    destruct (fs w !! d) as [[|]|] eqn:Hd.
    + destruct (Hdirs d); [left | exact Hd].
    + destruct (IH w) as (w' & Hw' & Hs & Hc & Hcr & Hmade & Hkept & Hother).
      { intros d' Hd'. apply Hdirs. by right. }
      exists w'. split; [exact Hw'|]. do 3 (split; [assumption|]).
      split; [|split].
      * intros d' [->|Hd']%elem_of_cons; [|by apply Hmade].
        rewrite Hkept by (by rewrite Hd). exact Hd.
      * exact Hkept.
      * intros p Hp. apply Hother. intros Hin. apply Hp. by right.
    + set (w1 := mkWorld (<[d := Directory]> (fs w)) (settings w) (files_created w)
                         (files_create w)).
      rewrite (Py_bind_ok (put_fs _) _ w w1 () eq_refl).
      destruct (IH w1) as (w' & Hw' & Hs & Hc & Hcr & Hmade & Hkept & Hother).
      { intros d' Hd'. simpl. destruct (decide (d = d')) as [<-|Hne].
        - by rewrite lookup_insert_eq.
        - rewrite lookup_insert_ne by exact Hne. apply Hdirs. by right. }
      exists w'. split; [exact Hw'|]. do 3 (split; [assumption|]).
      split; [|split].
      * intros d' [->|Hd']%elem_of_cons; [|by apply Hmade].
        rewrite Hkept; simpl; by rewrite lookup_insert_eq.
      * intros p Hp. assert (d ≠ p) as Hne by (intros <-; rewrite Hd in Hp; by destruct Hp).
        rewrite Hkept; simpl; by rewrite lookup_insert_ne.
      * intros p Hp. assert (d ≠ p) as Hne by (intros <-; apply Hp; left).
        rewrite Hother; [simpl; by rewrite lookup_insert_ne|].
        intros Hin. apply Hp. by right.
Qed.

(** X17. When the temporary directory exists, or is missing, not the empty
    path, with no regular file in the way of making it, [get_temp_filename]
    always returns: the
    temporary directory exists afterwards, the path returned does not exist,
    lies in the temporary directory, is the directory joined with the file
    name whenever that path is free, and is appended to [files_created];
    nothing that existed is changed, and nothing but missing directories on
    the way to the temporary directory is created. *)
Theorem get_temp_filename_returns_a_free_path (file_name : string) (w : World) :
  (os_path_exists (fs w) (temp_dir (settings w)) = false →
   temp_dir (settings w) ≠ "" ∧
   ∀ d, d ∈ parent_dirs (temp_dir (settings w)) → fs w !! d ≠ Some RegularFile) →
  ∃ w' path,
    get_temp_filename file_name w = (w', Ok path) ∧
    settings w' = settings w ∧ files_create w' = files_create w ∧
    files_created w' = files_created w ++ [path] ∧
    is_Some (fs w' !! temp_dir (settings w)) ∧
    fs w' !! path = None ∧
    String.prefix (temp_dir (settings w) +:+ "/") path = true ∧
    (fs w' !! (temp_dir (settings w) +:+ "/" +:+ file_name) = None →
     path = temp_dir (settings w) +:+ "/" +:+ file_name) ∧
    (∀ p, is_Some (fs w !! p) → fs w' !! p = fs w !! p) ∧
    (∀ p, fs w !! p = None → fs w' !! p = None ∨
          (fs w' !! p = Some Directory ∧
           p ∈ parent_dirs (temp_dir (settings w)) ++ [temp_dir (settings w)])).
Proof.
  intros Hway. set (td := temp_dir (settings w)) in *.
  destruct (os_path_exists (fs w) td) eqn:Hex.
  - destruct (get_temp_filename_in_existing_dir file_name w Hex)
      as (w' & path & Hw' & Hfs & Hs & Hcr & Hc & Hfree & Hpre & Hplain).
    exists w', path. split; [exact Hw'|]. do 3 (split; [assumption|]). rewrite Hfs.
    split; [by apply os_path_exists_true|]. do 3 (split; [assumption|]).
    split; [done | by left].
  - destruct (Hway eq_refl) as [Hne Hclear]. clear Hway.
    destruct (make_each_directories (parent_dirs td ++ [td]) w)
      as (w1 & Hw1 & Hs1 & Hc1 & Hcr1 & Hmade & Hkept & Hother).
    { intros d [Hd|[->|[]%elem_of_nil]%elem_of_cons]%elem_of_app; [by apply Hclear|].
      apply os_path_exists_false in Hex. by rewrite Hex. }
    assert (os_path_exists (fs w1) (temp_dir (settings w1)) = true) as Hex1.
    { apply os_path_exists_true. rewrite Hs1, Hmade; [by eexists|].
      apply elem_of_app. right. left. }
    destruct (get_temp_filename_in_existing_dir file_name w1 Hex1)
      as (w' & path & Hw' & Hfs & Hs & Hcr & Hc & Hfree & Hpre & Hplain).
    rewrite Hs1 in Hpre, Hplain. fold td in Hpre, Hplain.
    assert (get_temp_filename file_name w = get_temp_filename file_name w1) as ->.
    { assert (os_makedirs td w = (w1, Ok ())) as Hmk.
      { unfold os_makedirs.
        rewrite (Py_bind_ok get_world _ w w w eq_refl), Hex.
        rewrite bool_decide_eq_false_2 by exact Hne. exact Hw1. }
      rewrite Hs1 in Hex1. fold td in Hex1. unfold get_temp_filename.
      rewrite (Py_bind_ok get_world _ w w w eq_refl).
      rewrite (Py_bind_ok get_world _ w1 w1 w1 eq_refl).
      rewrite Hs1. fold td. rewrite Hex, Hex1.
      rewrite (Py_bind_ok (mret ()) _ w1 w1 () eq_refl).
      by rewrite (Py_bind_ok (os_makedirs td) _ w w1 () Hmk). }
    exists w', path. split; [exact Hw'|]. split; [congruence|]. split; [congruence|].
    split; [congruence|]. rewrite Hfs.
    split; [rewrite Hmade; [by eexists | apply elem_of_app; right; left]|].
    do 3 (split; [assumption|]). split; [exact Hkept|].
    intros p Hp. destruct (decide (p ∈ parent_dirs td ++ [td])) as [Hin|Hin].
    + right. split; [by apply Hmade | exact Hin].
    + left. by rewrite Hother.
Qed.

Lemma get_temp_filename_returns_a_free_path_witness :
  ∃ w' path,
    get_temp_filename "a.ma" fresh_world = (w', Ok path) ∧
    is_Some (fs w' !! "/tmp/mayaunittest/123e4567-e89b-42d3-a456-426614174000") ∧
    files_created w' = [path].
Proof.
  destruct (get_temp_filename_returns_a_free_path "a.ma" fresh_world)
    as (w' & path & Hw' & _ & _ & Hreg & Hdir & _).
  - intros _. split; [discriminate|]. intros d Hd. vm_compute in Hd.
    repeat (apply elem_of_cons in Hd as [->|Hd]; [vm_compute; discriminate|]).
    by apply elem_of_nil in Hd.
  - exists w', path. split; [exact Hw'|]. split; [exact Hdir | exact Hreg].
Defined.

(** With the empty path as the temporary directory, [os.makedirs] fails. *)
Example get_temp_filename_empty_temp_dir :
  (get_temp_filename "a.ma" (with_temp_dir fresh_world "")).2 = Raise (OSError "").
Proof. reflexivity. Qed.

(** On the sample, where [a.ma] exists, the name gets the number 1. *)
Example get_temp_filename_numbers :
  (get_temp_filename "a.ma" world_with_two_registered).2 = Ok "/tmp/t/a1.ma".
Proof. reflexivity. Qed.


Lemma make_each_app (pre post : list string) :
  ∀ w w1, make_each pre w = (w1, Ok ()) →
    make_each (pre ++ post) w = make_each post w1.
Proof.
  induction pre as [|d pre IH]; intros w w1; [by intros [= ->]|].
  cbn [app make_each]. unfold mbind, Py_bind, get_world in *. simpl.
  destruct (fs w !! d) as [[|]|]; [discriminate | apply IH | apply IH].
Qed.

(** X18. When the temporary directory is missing and a regular file has the
    name of a directory on the way to it, [get_temp_filename] ends with the
    [OSError] of [os.makedirs], which carries the path that was to be made
    below the regular file: no path is registered and nothing that existed
    is changed. *)
Theorem get_temp_filename_file_in_the_way (file_name : string) (w : World)
    (pre post : list string) (d below : string) :
  os_path_exists (fs w) (temp_dir (settings w)) = false →
  parent_dirs (temp_dir (settings w)) ++ [temp_dir (settings w)]
  = pre ++ d :: below :: post →
  (∀ x, x ∈ pre → fs w !! x ≠ Some RegularFile) →
  fs w !! d = Some RegularFile →
  ∃ w', get_temp_filename file_name w = (w', Raise (OSError below)) ∧
        files_created w' = files_created w ∧
        (∀ p, is_Some (fs w !! p) → fs w' !! p = fs w !! p).
Proof.
  intros Hex Hdirs Hpre Hd.
  assert (temp_dir (settings w) ≠ "") as Hne.
  { intros Htd. rewrite Htd in Hdirs. apply (f_equal length) in Hdirs.
    rewrite !length_app in Hdirs. cbn in Hdirs. lia. }
  destruct (make_each_directories pre w Hpre)
    as (w1 & Hw1 & _ & Hc1 & _ & _ & Hkept & _).
  exists w1. split; [|by split].
  unfold get_temp_filename.
  rewrite (Py_bind_ok get_world _ w w w eq_refl), Hex.
  apply Py_bind_raise. unfold os_makedirs.
  rewrite (Py_bind_ok get_world _ w w w eq_refl), Hex.
  rewrite bool_decide_eq_false_2 by exact Hne. cbn [orb].
  rewrite Hdirs, (make_each_app pre _ w w1 Hw1). cbn [make_each].
  rewrite (Py_bind_ok get_world _ w1 w1 w1 eq_refl).
  rewrite Hkept by (by rewrite Hd). by rewrite Hd.
Qed.

Lemma get_temp_filename_file_in_the_way_witness :
  ∃ w', get_temp_filename "a.ma" world_with_file_in_the_way
        = (w', Raise (OSError "/tmp/mayaunittest/123e4567-e89b-42d3-a456-426614174000")) ∧
        files_created w' = [].
Proof.
  destruct (get_temp_filename_file_in_the_way "a.ma" world_with_file_in_the_way
              ["/tmp"] [] "/tmp/mayaunittest"
              "/tmp/mayaunittest/123e4567-e89b-42d3-a456-426614174000" eq_refl eq_refl)
    as (w' & Hw' & Hreg & _).
  - intros x [->|[]%elem_of_nil]%elem_of_cons. vm_compute. discriminate.
  - reflexivity.
  - exists w'. split; [exact Hw' | exact Hreg].
Defined.


(** ** [sys.path] around the loading of tests *)

Lemma add_directories_prepends (fs : gmap string FileKind) (directories : list string) :
  ∀ sys_path sys_path' added,
    add_directories fs directories sys_path = (sys_path', added) →
    sys_path' = reverse added ++ sys_path ∧
    NoDup added ∧
    (∀ x, x ∈ added → (x ∉ sys_path) ∧ x ∈ directories ∧ os_path_exists fs x = true) ∧
    (∀ x, x ∈ directories → os_path_exists fs x = true → x ∈ sys_path').
Proof.
  induction directories as [|p rest IH]; intros sys_path sys_path' added; simpl.
  - intros [= <- <-]. split; [reflexivity|]. split; [constructor|].
    split; intros x []%elem_of_nil.
  - unfold add_to_path.
    destruct (os_path_exists fs p && negb (bool_decide (p ∈ sys_path))) eqn:Hadd.
    + apply andb_true_iff in Hadd as [Hex Hnew].
      apply negb_true_iff, bool_decide_eq_false in Hnew.
      destruct (add_directories fs rest (p :: sys_path)) as [sp2 added_r] eqn:Hrest.
      intros [= <- <-]. destruct (IH _ _ _ Hrest) as (-> & Hnodup & Hfresh & Hin).
      split; [by rewrite reverse_cons, <- app_assoc|]. split; [|split].
      * constructor; [|exact Hnodup]. intros Hp. destruct (Hfresh p Hp) as [Hnot _].
        apply Hnot. left.
      * intros x [->|Hx]%elem_of_cons.
        -- split; [exact Hnew|]. split; [left | exact Hex].
        -- destruct (Hfresh x Hx) as (Hnot & Hdir & Hexx).
           split; [|split; [by right | exact Hexx]].
           intros Hxs. apply Hnot. by right.
      * intros x [->|Hx]%elem_of_cons Hexx; [|by apply Hin].
        apply elem_of_app. right. left.
    + destruct (add_directories fs rest sys_path) as [sp2 added_r] eqn:Hrest.
      intros [= <- <-]. destruct (IH _ _ _ Hrest) as (-> & Hnodup & Hfresh & Hin).
      split; [reflexivity|]. split; [exact Hnodup|]. split.
      * intros x Hx. destruct (Hfresh x Hx) as (Hnot & Hdir & Hexx).
        split; [exact Hnot|]. split; [by right | exact Hexx].
      * intros x [->|Hx]%elem_of_cons Hexx; [|by apply Hin].
        apply elem_of_app. right.
        apply andb_false_iff in Hadd as [Hno|Hold]; [congruence|].
        by apply negb_false_iff, bool_decide_eq_true in Hold.
Qed.

Lemma list_remove_first (x : string) (pre post : list string) :
  x ∉ pre → list_remove x (pre ++ x :: post) = Some (pre ++ post).
Proof.
  induction pre as [|y pre IH]; intros Hnot; simpl.
  - by rewrite String.eqb_refl.
  - apply not_elem_of_cons in Hnot as [Hne Hnot].
    assert (String.eqb y x = false) as -> by (apply String.eqb_neq; congruence).
    by rewrite IH.
Qed.

Lemma remove_directories_undoes (added : list string) :
  ∀ sys_path, NoDup added →
    remove_directories added (reverse added ++ sys_path) = (sys_path, true).
Proof.
  induction added as [|x added IH]; intros sys_path Hnodup; [reflexivity|].
  apply NoDup_cons in Hnodup as [Hx Hnodup]. cbn [remove_directories].
  rewrite reverse_cons, <- app_assoc. simpl.
  rewrite list_remove_first by (by rewrite elem_of_reverse). by apply IH.
Qed.

Section GetTestsFacts.
Variable loadTestsFromName : list string → string → list string * result (list UnitTest).
Variable discover : list string → string → string → list string * result (list UnitTest).

(** X19. With a test name given, when the loader returns and leaves
    [sys.path] as it finds it, [get_tests] returns with [sys.path] exactly as
    it was before the call: every directory it had put in front is removed
    again; the suite returned is the given suite followed by the tests
    loaded, or the given suite alone when those count no test case. *)
Theorem get_tests_restores_sys_path (fs : gmap string FileKind)
    (directories : list string) (test : string) (test_suite : option (list UnitTest))
    (pattern : string) (sys_path : list string) (discovered : list UnitTest) :
  test ≠ "" →
  (let sys_path1 := (add_directories fs directories sys_path).1 in
   loadTestsFromName sys_path1 test = (sys_path1, Ok discovered)) →
  get_tests loadTestsFromName discover fs (Some directories) test test_suite pattern sys_path
  = (sys_path, Returned (add_discovered (default [] test_suite) discovered)).
Proof.
  intros Htest Hload. unfold get_tests.
  rewrite bool_decide_eq_true_2 by exact Htest.
  destruct (add_directories fs directories sys_path) as [sp1 added] eqn:Hadd.
  destruct (add_directories_prepends _ _ _ _ _ Hadd) as (-> & Hnodup & _).
  cbn in Hload. rewrite Hload. by rewrite remove_directories_undoes.
Qed.

(** X20. With a test name given, when the loader raises, [get_tests] ends
    with that exception and the directories it had put in front of
    [sys.path] stay there: every existing directory of the list is in
    [sys.path] afterwards, in front of the entries that were there. *)
Theorem get_tests_leaves_sys_path_on_error (fs : gmap string FileKind)
    (directories : list string) (test : string) (test_suite : option (list UnitTest))
    (pattern : string) (sys_path : list string) (e : exn) :
  test ≠ "" →
  (let sys_path1 := (add_directories fs directories sys_path).1 in
   loadTestsFromName sys_path1 test = (sys_path1, Raise e)) →
  ∃ sys_path',
    get_tests loadTestsFromName discover fs (Some directories) test test_suite pattern sys_path
    = (sys_path', Raised e) ∧
    sys_path `suffix_of` sys_path' ∧
    (∀ p, p ∈ directories → os_path_exists fs p = true → p ∈ sys_path').
Proof.
  intros Htest Hload. unfold get_tests.
  rewrite bool_decide_eq_true_2 by exact Htest.
  destruct (add_directories fs directories sys_path) as [sp1 added] eqn:Hadd.
  destruct (add_directories_prepends _ _ _ _ _ Hadd) as (Hsp1 & _ & _ & Hin).
  cbn in Hload. rewrite Hload. exists sp1. split; [reflexivity|]. split; [|exact Hin].
  rewrite Hsp1. by eexists.
Qed.
End GetTestsFacts.

Lemma get_tests_restores_sys_path_witness :
  get_tests sample_loader no_discover (fs fresh_world) (Some ["/tmp"; "/missing"; "/tmp"])
    "test_sphere.SphereTests.test_radius" None "test_*.py" ["/usr/lib/python"]
  = (["/usr/lib/python"],
     Returned [TestCaseObj "SphereTests" "test_sphere" "test_radius"
                 "test_sphere.SphereTests.test_radius" Returns]).
Proof.
  apply (get_tests_restores_sys_path sample_loader no_discover (fs fresh_world)
           ["/tmp"; "/missing"; "/tmp"] "test_sphere.SphereTests.test_radius" None
           "test_*.py" ["/usr/lib/python"]
           [TestCaseObj "SphereTests" "test_sphere" "test_radius"
              "test_sphere.SphereTests.test_radius" Returns]).
  - discriminate.
  - reflexivity.
Defined.

Lemma get_tests_leaves_sys_path_on_error_witness :
  ∃ sys_path',
    get_tests failing_loader no_discover (fs fresh_world) (Some ["/tmp"; "/missing"])
      "test_sphere.Missing" None "test_*.py" ["/usr/lib/python"]
    = (sys_path', Raised (AttributeError "test_sphere.Missing")) ∧
    "/tmp" ∈ sys_path'.
Proof.
  destruct (get_tests_leaves_sys_path_on_error failing_loader no_discover (fs fresh_world)
              ["/tmp"; "/missing"] "test_sphere.Missing" None "test_*.py"
              ["/usr/lib/python"] (AttributeError "test_sphere.Missing"))
    as (sys_path' & Hget & _ & Hin).
  - discriminate.
  - reflexivity.
  - exists sys_path'. split; [exact Hget|]. apply Hin; [left | reflexivity].
Defined.


(** ** The start and the end of a test run *)

Lemma restore_output_saved (p : Process) (results errors warnings info : bool) :
  script_editor_state p
  = mkScriptEditorState (Some results) (Some errors) (Some warnings) (Some info) →
  restore_output p
  = mkProcess (world p) (environ p) (mkScriptEditorInfo results errors warnings info)
      (script_editor_state p) (logging_disable p).
Proof. intros Hcls. unfold restore_output. by rewrite Hcls. Qed.

Lemma stopTestRun_scriptEditorInfo (p : Process) :
  scriptEditorInfo (stopTestRun p).1
  = scriptEditorInfo
      (restore_output (mkProcess (world p) (environ p) (scriptEditorInfo p)
                         (script_editor_state p) NOTSET)).
Proof.
  unfold stopTestRun.
  set (p1 := if buffer_output (settings (world p)) then _ else p).
  assert (scriptEditorInfo (restore_output p1)
          = scriptEditorInfo
              (restore_output (mkProcess (world p) (environ p) (scriptEditorInfo p)
                                 (script_editor_state p) NOTSET))) as <-.
  { subst p1. destruct (buffer_output _); [reflexivity|].
    unfold restore_output.
    by destruct p as [w env ed [[r|] [e|] [wa|] [i|]] l]. }
  destruct (if _ && _ then _ else _) as [w' [[]|e]]; [|reflexivity].
  cbn. by destruct (environ (restore_output p1) !! CMT_TESTING_VAR).
Qed.

Lemma stopTestRun_env_and_files (p : Process) :
  fs (world p) !! temp_dir (settings (world p)) ≠ Some RegularFile →
  ∃ p', (stopTestRun p).1 = p' ∧
        (stopTestRun p).2
        = match environ p !! CMT_TESTING_VAR with
          | Some _ => Ok ()
          | None => Raise (KeyError CMT_TESTING_VAR)
          end ∧
        environ p' = delete CMT_TESTING_VAR (environ p) ∧
        settings (world p') = settings (world p) ∧
        logging_disable p'
        = (if buffer_output (settings (world p)) then NOTSET else logging_disable p) ∧
        (delete_files (settings (world p)) = true →
         fs (world p') !! temp_dir (settings (world p)) = None) ∧
        (delete_files (settings (world p)) = false → fs (world p') = fs (world p)).
Proof.
  intros Htd. eexists. split; [reflexivity|]. unfold stopTestRun.
  set (p1 := if buffer_output (settings (world p)) then _ else p).
  assert (world (restore_output p1) = world p ∧
          environ (restore_output p1) = environ p ∧
          logging_disable (restore_output p1)
          = (if buffer_output (settings (world p)) then NOTSET else logging_disable p))
    as (Hw & He & Hl).
  { subst p1. unfold restore_output.
    by destruct (buffer_output _), p as [w env ed [[r|] [e|] [wa|] [i|]] l]. }
  rewrite Hw. set (td := temp_dir (settings (world p))) in *.
  destruct (delete_files (settings (world p))) eqn:Hdel; cbn [andb].
  - destruct (fs (world p) !! td) as [[]|] eqn:Hfs; [done| |].
    + rewrite (proj2 (os_path_exists_true (fs (world p)) td)) by (by rewrite Hfs).
      destruct (shutil_rmtree_directory td (world p) Hfs)
        as (w' & -> & Hs' & _ & _ & Hgone & _).
      cbn. rewrite He.
      destruct (environ p !! CMT_TESTING_VAR) eqn:Henv; cbn.
      * split; [reflexivity|]. rewrite ?He. do 3 (split; [done|]). by split.
      * split; [reflexivity|]. rewrite ?He.
        split; [by rewrite delete_id|]. do 2 (split; [done|]). by split.
    + rewrite (proj2 (os_path_exists_false (fs (world p)) td) Hfs).
      cbn. rewrite He.
      destruct (environ p !! CMT_TESTING_VAR) eqn:Henv; cbn.
      * split; [reflexivity|]. rewrite ?He. do 3 (split; [done|]). by split.
      * split; [reflexivity|]. rewrite ?He.
        split; [by rewrite delete_id|]. do 2 (split; [done|]). by split.
  - cbn. rewrite He.
    destruct (environ p !! CMT_TESTING_VAR) eqn:Henv; cbn.
    + split; [reflexivity|]. rewrite ?He. do 3 (split; [done|]). by split.
    + split; [reflexivity|]. rewrite ?He.
      split; [by rewrite delete_id|]. do 2 (split; [done|]). by split.
Qed.

Lemma startTestRun_fields (p : Process) :
  world (startTestRun p) = world p ∧
  environ (startTestRun p) = <[CMT_TESTING_VAR := "1"]> (environ p).
Proof.
  unfold startTestRun, suppress_output. cbn.
  destruct (buffer_output (settings (world p))) eqn:Hbuf; cbn; rewrite ?Hbuf; by split.
Qed.

(** X21. With [Settings.buffer_output] true, [startTestRun] sets the four
    suppress flags of the script editor, and [stopTestRun] puts back the
    flags the editor had before [startTestRun], whatever the tests did to the
    editor, the files and the environment in between, as long as the saved
    class attributes of [ScriptEditorState] are those of [startTestRun]. *)
Theorem stopTestRun_restores_the_script_editor (p p' : Process) :
  buffer_output (settings (world p)) = true →
  script_editor_state p' = script_editor_state (startTestRun p) →
  scriptEditorInfo (startTestRun p) = mkScriptEditorInfo true true true true ∧
  logging_disable (startTestRun p) = CRITICAL ∧
  scriptEditorInfo (stopTestRun p').1 = scriptEditorInfo p.
Proof.
  intros Hbuf Hcls.
  assert (startTestRun p
          = mkProcess (world p) (<[CMT_TESTING_VAR := "1"]> (environ p))
              (mkScriptEditorInfo true true true true)
              (mkScriptEditorState (Some (suppressResults (scriptEditorInfo p)))
                 (Some (suppressErrors (scriptEditorInfo p)))
                 (Some (suppressWarnings (scriptEditorInfo p)))
                 (Some (suppressInfo (scriptEditorInfo p)))) CRITICAL) as Hstart.
  { unfold startTestRun, suppress_output. cbn. rewrite Hbuf. cbn. by rewrite ?Hbuf. }
  rewrite Hstart in *. do 2 (split; [reflexivity|]).
  rewrite stopTestRun_scriptEditorInfo.
  erewrite restore_output_saved by exact Hcls. cbn. by destruct (scriptEditorInfo p).
Qed.

Lemma stopTestRun_restores_the_script_editor_witness :
  scriptEditorInfo (startTestRun buffered_process) = mkScriptEditorInfo true true true true ∧
  logging_disable (startTestRun buffered_process) = CRITICAL ∧
  scriptEditorInfo (stopTestRun buffered_process_after_the_tests).1
  = mkScriptEditorInfo false true false false.
Proof.
  apply (stopTestRun_restores_the_script_editor buffered_process
           buffered_process_after_the_tests); reflexivity.
Defined.

(** X22. With [Settings.buffer_output] false, [startTestRun] saves nothing
    and leaves the script editor alone, but [stopTestRun] still writes the
    flags an earlier run has saved: the editor ends with those, not with the
    flags it had when the run started. *)
Theorem stopTestRun_unbuffered_writes_the_saved_flags (p p' : Process)
    (results errors warnings info : bool) :
  buffer_output (settings (world p)) = false →
  script_editor_state p
  = mkScriptEditorState (Some results) (Some errors) (Some warnings) (Some info) →
  script_editor_state p' = script_editor_state (startTestRun p) →
  scriptEditorInfo (startTestRun p) = scriptEditorInfo p ∧
  script_editor_state (startTestRun p) = script_editor_state p ∧
  scriptEditorInfo (stopTestRun p').1 = mkScriptEditorInfo results errors warnings info.
Proof.
  intros Hbuf Hsaved Hcls.
  assert (startTestRun p
          = mkProcess (world p) (<[CMT_TESTING_VAR := "1"]> (environ p))
              (scriptEditorInfo p) (script_editor_state p) (logging_disable p)) as Hstart.
  { unfold startTestRun, suppress_output. cbn. rewrite Hbuf. cbn. by rewrite ?Hbuf. }
  rewrite Hstart in *. do 2 (split; [reflexivity|]).
  rewrite stopTestRun_scriptEditorInfo. cbn in Hcls.
  erewrite restore_output_saved; [reflexivity|]. cbn. by rewrite Hcls.
Qed.

Lemma stopTestRun_unbuffered_writes_the_saved_flags_witness :
  scriptEditorInfo (startTestRun unbuffered_process)
  = mkScriptEditorInfo true false false false ∧
  script_editor_state (startTestRun unbuffered_process)
  = script_editor_state unbuffered_process ∧
  scriptEditorInfo (stopTestRun (startTestRun unbuffered_process)).1
  = mkScriptEditorInfo false false false false.
Proof.
  apply (stopTestRun_unbuffered_writes_the_saved_flags unbuffered_process
           (startTestRun unbuffered_process) false false false false); reflexivity.
Defined.

(** X23. When the temporary directory is not a regular file, [stopTestRun]
    after [startTestRun] returns; [CMT_UNITTEST] is then not in the
    environment, also when it was there before the run, and the rest of the
    environment is as before; with [Settings.delete_files] true the
    temporary directory does not exist any more, and otherwise the file
    system is untouched. *)
Theorem stopTestRun_after_startTestRun (p : Process) :
  fs (world p) !! temp_dir (settings (world p)) ≠ Some RegularFile →
  ∃ p', stopTestRun (startTestRun p) = (p', Ok ()) ∧
        environ p' = delete CMT_TESTING_VAR (environ p) ∧
        settings (world p') = settings (world p) ∧
        (delete_files (settings (world p)) = true →
         os_path_exists (fs (world p')) (temp_dir (settings (world p))) = false) ∧
        (delete_files (settings (world p)) = false → fs (world p') = fs (world p)).
Proof.
  intros Htd. destruct (startTestRun_fields p) as [Hw He].
  destruct (stopTestRun_env_and_files (startTestRun p))
    as (p' & Hp' & Hres & Henv & Hset & _ & Hgone & Hkept).
  { by rewrite Hw. }
  rewrite Hw in *. rewrite He in Hres, Henv.
  rewrite lookup_insert_eq in Hres. rewrite delete_insert_eq in Henv.
  exists p'. split; [by rewrite <- Hp', <- Hres; destruct (stopTestRun _)|].
  split; [exact Henv|]. split; [exact Hset|]. split; [|exact Hkept].
  intros Hdel. apply os_path_exists_false. by apply Hgone.
Qed.

Lemma stopTestRun_after_startTestRun_witness :
  ∃ p', stopTestRun (startTestRun buffered_process) = (p', Ok ()) ∧
        environ p' = delete CMT_TESTING_VAR (environ buffered_process) ∧
        os_path_exists (fs (world p')) "/tmp/t" = false.
Proof.
  destruct (stopTestRun_after_startTestRun buffered_process)
    as (p' & Hstop & Henv & _ & Hgone & _).
  - discriminate.
  - exists p'. split; [exact Hstop|]. split; [exact Henv|]. by apply Hgone.
Defined.

(** X24. [stopTestRun] without [CMT_UNITTEST] in the environment, as when
    [startTestRun] did not run, ends in a [KeyError], and it does so after
    its other work: with [Settings.delete_files] true the temporary
    directory is already removed. *)
Theorem stopTestRun_without_startTestRun (p : Process) :
  environ p !! CMT_TESTING_VAR = None →
  fs (world p) !! temp_dir (settings (world p)) ≠ Some RegularFile →
  ∃ p', stopTestRun p = (p', Raise (KeyError CMT_TESTING_VAR)) ∧
        environ p' = environ p ∧
        (delete_files (settings (world p)) = true →
         os_path_exists (fs (world p')) (temp_dir (settings (world p))) = false).
Proof.
  intros Hno Htd.
  destruct (stopTestRun_env_and_files p Htd)
    as (p' & Hp' & Hres & Henv & _ & _ & Hgone & _).
  rewrite Hno in Hres.
  rewrite delete_id in Henv by exact Hno.
  exists p'. split; [by rewrite <- Hp', <- Hres; destruct (stopTestRun _)|].
  split; [exact Henv|].
  intros Hdel. apply os_path_exists_false. by apply Hgone.
Qed.

Lemma stopTestRun_without_startTestRun_witness :
  ∃ p', stopTestRun buffered_process = (p', Raise (KeyError CMT_TESTING_VAR)) ∧
        os_path_exists (fs (world p')) "/tmp/t" = false.
Proof.
  destruct (stopTestRun_without_startTestRun buffered_process)
    as (p' & Hstop & _ & Hgone).
  - reflexivity.
  - discriminate.
  - exists p'. split; [exact Hstop|]. by apply Hgone.
Defined.

(** X25. With [Settings.delete_files] true and a regular file where the
    temporary directory should be, [stopTestRun] after [startTestRun] ends in
    the error of [shutil.rmtree], and [CMT_UNITTEST] stays in the
    environment. *)
Theorem stopTestRun_file_as_temp_dir (p : Process) :
  delete_files (settings (world p)) = true →
  fs (world p) !! temp_dir (settings (world p)) = Some RegularFile →
  ∃ p', stopTestRun (startTestRun p)
        = (p', Raise (OSError (temp_dir (settings (world p))))) ∧
        environ p' !! CMT_TESTING_VAR = Some "1" ∧
        fs (world p') = fs (world p).
Proof.
  intros Hdel Htd. destruct (startTestRun_fields p) as [Hw He].
  unfold stopTestRun.
  set (p1 := if buffer_output (settings (world (startTestRun p))) then _ else _).
  assert (world (restore_output p1) = world p ∧
          environ (restore_output p1) = <[CMT_TESTING_VAR := "1"]> (environ p))
    as (Hw2 & He2).
  { subst p1. rewrite <- Hw, <- He. unfold restore_output.
    by destruct (buffer_output _),
         (startTestRun p) as [w env ed [[r|] [e|] [wa|] [i|]] l]. }
  rewrite Hw2, Hdel.
  rewrite (proj2 (os_path_exists_true (fs (world p)) _)) by (by rewrite Htd).
  cbn [andb]. unfold shutil_rmtree.
  rewrite (Py_bind_ok get_world _ (world p) (world p) (world p) eq_refl), Htd.
  cbn. eexists. split; [reflexivity|]. cbn. rewrite He2.
  split; [by rewrite lookup_insert_eq | reflexivity].
Qed.

Lemma stopTestRun_file_as_temp_dir_witness :
  ∃ p', stopTestRun (startTestRun process_with_file_as_temp_dir)
        = (p', Raise (OSError "/tmp/t")) ∧
        environ p' !! CMT_TESTING_VAR = Some "1" ∧
        fs (world p') = fs (world process_with_file_as_temp_dir).
Proof.
  apply (stopTestRun_file_as_temp_dir process_with_file_as_temp_dir); reflexivity.
Defined.
